(** * Application constructs: keyed table, relational cluster, load balancer

    A shallow embedding of the three construct builders
    ([ApplicationDynamoDBTable], [ApplicationRDSCluster] and
    [ApplicationLoadBalancer]) and the properties their specification states.

    Every builder is a TypeScript constructor that registers resource
    declarations as children of [this] and may throw.  It is embedded as a
    computation in a state-and-exception monad: the state is the list of
    declarations registered so far, in order, and a throw keeps the
    declarations registered before it.  What the constructs library and the
    synthesis engine do, which are not part of these sources, enters as
    parameters: the attributes a handle exposes and the message of the
    library's error for an id that is already taken. *)

From Stdlib Require Import String Ascii List ZArith Bool Lia DecimalString.
Import ListNotations.

Open Scope string_scope.

(** ** JavaScript values and string primitives *)

Module Js.

(** What a [throw] or a failing primitive raises. *)
Inductive Thrown : Type :=
| Error (message : string)
| TypeError (message : string).

(** A field typed [T | IResolvable]: a plain value, or a token object that
    only the synthesis engine resolves. *)
Inductive Resolvable (A : Type) : Type :=
| Value (a : A)
| Token.
Arguments Value {A} a.
Arguments Token {A}.

(** Truthiness of an optional string: [undefined] and [''] are falsy. *)
Definition truthy_string (s : option string) : bool :=
  match s with
  | None => false
  | Some "" => false
  | Some _ => true
  end.

(** Truthiness of an optional [boolean | IResolvable]: an object is truthy. *)
Definition truthy_flag (b : option (Resolvable bool)) : bool :=
  match b with
  | None => false
  | Some (Value v) => v
  | Some Token => true
  end.

(** [x === undefined] on an optional property. *)
Definition is_undefined {A} (x : option A) : bool :=
  match x with
  | None => true
  | Some _ => false
  end.

(** [s.charAt(i)]: the one-character string at index [i], [''] out of range. *)
Definition charAt (s : string) (i : Z) : string :=
  if (i <? 0)%Z then ""
  else match String.get (Z.to_nat i) s with
       | Some c => String c ""
       | None => ""
       end.

(** [s.length] as a JavaScript number. *)
Definition length (s : string) : Z := Z.of_nat (String.length s).

(** [s.includes(sub)]. *)
Fixpoint includes (s sub : string) : bool :=
  if String.prefix sub s then true
  else match s with
       | "" => false
       | String _ s' => includes s' sub
       end.

(** [xs.includes(x)] on an array of strings; [undefined] is in none. *)
Definition array_includes (xs : list string) (x : option string) : bool :=
  match x with
  | Some v => existsb (String.eqb v) xs
  | None => false
  end.

(** [s.toLowerCase()] on a string of ASCII characters: the letters A-Z
    become a-z and every other character is kept.  Strings are sequences
    of 8-bit characters here, and a character outside ASCII is kept as it
    is; JavaScript lower-cases capital letters outside ASCII as well, which
    can change the length, so what is stated about the lower-cased string
    itself is stated for ASCII strings, see [is_ascii]. *)
Definition lower_ascii (c : ascii) : ascii :=
  let n := nat_of_ascii c in
  if (65 <=? n)%nat && (n <=? 90)%nat then ascii_of_nat (n + 32) else c.

Fixpoint toLowerCase (s : string) : string :=
  match s with
  | "" => ""
  | String c s' => String (lower_ascii c) (toLowerCase s')
  end.

(** A string of ASCII characters: every code is below 128. *)
Definition is_ascii (s : string) : bool :=
  forallb (fun c => (nat_of_ascii c <? 128)%nat) (list_ascii_of_string s).

(** Decimal rendering of a non-negative integer number inside a template
    literal. *)
Definition number_to_string (n : Z) : string :=
  NilEmpty.string_of_uint (N.to_uint (Z.to_N n)).

End Js.

(** ** The construction monad *)

Module Build.
Import Js.

Inductive Completion (A : Type) : Type :=
| Returned (a : A)
| Threw (e : Thrown).
Arguments Returned {A} a.
Arguments Threw {A} e.

Definition M (S A : Type) : Type := S -> Completion A * S.

Definition ret {S A} (a : A) : M S A := fun st => (Returned a, st).

Definition bind {S A B} (m : M S A) (k : A -> M S B) : M S B :=
  fun st =>
    match m st with
    | (Returned a, st') => k a st'
    | (Threw e, st') => (Threw e, st')
    end.

Definition throw {S A} (e : Thrown) : M S A := fun st => (Threw e, st).

(** [xs.forEach(f)]: stops at the first throw. *)
Fixpoint forEach {S A} (f : A -> M S unit) (xs : list A) : M S unit :=
  match xs with
  | [] => ret tt
  | x :: xs' => bind (f x) (fun _ => forEach f xs')
  end.

Definition returned {A} (c : Completion A) : bool :=
  match c with
  | Returned _ => true
  | Threw _ => false
  end.

(** A computation over a scope that only registers declarations: from
    scope [st] it completes with [c] after appending [ns]. *)
Definition appends {N A} (m : M (list N) A) (st : list N)
    (c : Completion A) (ns : list N) : Prop :=
  m st = (c, (st ++ ns)%list).

End Build.

Declare Scope build_scope.
Delimit Scope build_scope with build.
Notation "x <- m ;; k" := (Build.bind m (fun x => k))
  (at level 61, m at next level, right associativity) : build_scope.
Notation "m ;; k" := (Build.bind m (fun _ => k))
  (at level 61, right associativity) : build_scope.

(** Tags, policy statements and security-group rules are shared by the
    builders. *)
Definition Tags : Type := option (list (string * string)).

(** A property that may be left out, set to [null], or given. *)
Inductive Nullable (A : Type) : Type :=
| Absent
| Null
| Given (a : A).
Arguments Absent {A}.
Arguments Null {A}.
Arguments Given {A} a.

Record Rule : Type := mkRule {
  fromPort : Z;
  toPort : Z;
  protocol : string;
  cidrBlocks : list string;
  rule_description : Nullable string;
  ipv6CidrBlocks : Nullable (list string);
  prefixListIds : Nullable (list string);
  securityGroups : Nullable (list string)
}.

Record Principal : Type := mkPrincipal {
  principal_type : string;
  identifiers : list string
}.

Record Statement : Type := mkStatement {
  effect : string;
  principals : list Principal;
  actions : list string;
  resources : list string
}.

(** ** Keyed-table builder: [ApplicationDynamoDBTable] *)

Module KeyedTable.
Import Js Build.
Local Open Scope build_scope.

Inductive ApplicationDynamoDBTableCapacityType : Type :=
| Read
| Write.

Definition capacityType_value (c : ApplicationDynamoDBTableCapacityType) : string :=
  match c with
  | Read => "ReadCapacity"
  | Write => "WriteCapacity"
  end.

Inductive ApplicationDynamoDBTableCapacityMode : Type :=
| PROVISIONED
| ON_DEMAND.

Definition capacityMode_value (m : ApplicationDynamoDBTableCapacityMode) : string :=
  match m with
  | PROVISIONED => "PROVISIONED"
  | ON_DEMAND => "PAY_PER_REQUEST"
  end.

(** [Object.values(ApplicationDynamoDBTableStreamViewType)]. *)
Definition ApplicationDynamoDBTableStreamViewType : list string :=
  ["KEYS_ONLY"; "NEW_IMAGE"; "OLD_IMAGE"; "NEW_AND_OLD_IMAGES"].

(** Numbers are only passed through by this builder; they are integers here. *)
Record ApplicationDynamoDBTableAutoScaleProps : Type := mkAutoScaleProps {
  tracking : Z;
  max : Z;
  min : Z
}.

Record DynamodbTableGlobalSecondaryIndex : Type := mkIndex {
  index_name : string;
  index_hashKey : string;
  index_projectionType : string;
  index_readCapacity : option Z;
  index_writeCapacity : option Z
}.

Record ApplicationDynamoDBTableConfig : Type := mkTableConfig {
  hashKey : string;
  rangeKey : option string;
  table_billingMode : option string;
  table_readCapacity : option Z;
  table_writeCapacity : option Z;
  streamEnabled : option (Resolvable bool);
  streamViewType : option string;
  globalSecondaryIndex : option (Resolvable (list DynamodbTableGlobalSecondaryIndex));
  (* the meta-argument [dependsOn] of the table configuration: handles *)
  tc_dependsOn : option (list string)
}.

Record ApplicationDynamoDBProps : Type := mkProps {
  tags : Tags;
  prefix : string;
  tableConfig : ApplicationDynamoDBTableConfig;
  readCapacity : option ApplicationDynamoDBTableAutoScaleProps;
  writeCapacity : option ApplicationDynamoDBTableAutoScaleProps;
  capacityMode : option ApplicationDynamoDBTableCapacityMode;
  preventDestroyTable : option bool
}.

Inductive PolicyTarget : Type :=
| table
| index.

Definition policyTarget_value (t : PolicyTarget) : string :=
  match t with
  | table => "table"
  | index => "index"
  end.

(** *** Declared resources *)

Record Lifecycle : Type := mkLifecycle {
  ignoreChanges : list string;
  preventDestroy : bool
}.

Record DynamodbTable : Type := mkTable {
  dt_tableConfig : ApplicationDynamoDBTableConfig;
  dt_billingMode : string;
  dt_tags : Tags;
  dt_name : string;
  dt_lifecycle : Lifecycle
}.

Record AppautoscalingTarget : Type := mkTarget {
  maxCapacity : Z;
  minCapacity : option Z;
  tg_resourceId : string;
  tg_scalableDimension : string;
  tg_roleArn : string;
  tg_serviceNamespace : string;
  tg_dependsOn : list string
}.

Record AppautoscalingPolicy : Type := mkPolicy {
  ap_name : string;
  policyType : string;
  ap_resourceId : string;
  ap_scalableDimension : string;
  ap_serviceNamespace : string;
  predefinedMetricType : string;
  targetValue : Z;
  ap_dependsOn : list string
}.

Inductive Resource : Type :=
| RDynamodbTable (t : DynamodbTable)
| RIamPolicy (name policy : string)
| RDataAwsIamPolicyDocument (statement : list Statement)
| RIamRole (name : string) (tags : Tags) (assumeRolePolicy : string)
| RIamRolePolicyAttachment (policyArn role : string) (dependsOn : list string)
| RAppautoscalingTarget (t : AppautoscalingTarget)
| RAppautoscalingPolicy (p : AppautoscalingPolicy).

(** A declaration: the local id given to the constructor of the resource,
    and its configuration. *)
Definition Node : Type := (string * Resource)%type.
Definition Scope : Type := list Node.

(** The id under which the constructs library stores a child: the id given
    to the constructor with every ['/'], its path separator, replaced by
    ['--']. *)
Fixpoint sanitizeId (id : string) : string :=
  match id with
  | "" => ""
  | String c id' =>
      if Ascii.eqb c "/" then String "-" (String "-" (sanitizeId id'))
      else String c (sanitizeId id')
  end.

(** The scope already has a child stored under the id. *)
Definition taken (st : Scope) (id : string) : bool :=
  existsb (fun n => String.eqb (sanitizeId (fst n)) (sanitizeId id)) st.

(** [new R(scope, id, config)].  The constructs library, which is not part
    of these sources, throws an [Error] when the scope already has a child
    stored under the id; [alreadyExists k] is the message of that error for
    the stored id [k].  Otherwise the declaration is registered and its
    handle, which is its local id, is returned.  (The library also refuses
    an empty id; every id this builder passes ends in a literal.) *)
Definition declare (alreadyExists : string -> string)
    (id : string) (r : Resource) : M Scope string :=
  fun st =>
    if taken st id then (Threw (Error (alreadyExists (sanitizeId id))), st)
    else (Returned id, (st ++ [(id, r)])%list).

(** A declaration as the builder asks for it, registered whatever the scope
    holds.  Running the builder with it gives the declarations it asks for,
    in order: its plan. *)
Definition request (id : string) (r : Resource) : M Scope string :=
  fun st => (Returned id, (st ++ [(id, r)])%list).

Section Engine.
(** The attributes a handle exposes ([arn], [name], [friendlyUniqueId],
    [json], ...) are computed by the synthesis engine, which is not part
    of these sources: [attribute h a] is the string that reading
    attribute [a] of handle [h] gives. *)
Variable attribute : string -> string -> string.

(** [new]: how a declaration is registered in the scope, [declare] for a
    construction and [request] for its plan. *)
Variable new : string -> Resource -> M Scope string.

Definition validateStreamConfig
    (tableConfig : ApplicationDynamoDBTableConfig)
    (streamViewTypeValues : list string) : M Scope unit :=
  if truthy_flag (streamEnabled tableConfig) then
    (if negb (truthy_string (streamViewType tableConfig)) then
       throw (Error "you must specify a stream view type if streams are enabled")
     else ret tt) ;;
    (if negb (array_includes streamViewTypeValues (streamViewType tableConfig)) then
       throw (Error "you must specify a valid stream view type")
     else ret tt)
  else ret tt.

Definition createAutoScalingRole
    (capacityType : ApplicationDynamoDBTableCapacityType)
    (prefix : string) (dynamoDBARN : string) (tags : Tags) : M Scope string :=
  let ct := capacityType_value capacityType in
  doc <- new (ct ++ "_policy_document")
    (RDataAwsIamPolicyDocument
       [ mkStatement "Allow" []
           ["application-autoscaling:*"; "cloudwatch:DescribeAlarms";
            "cloudwatch:PutMetricAlarm"]
           ["*"];
         mkStatement "Allow" []
           ["dynamodb:DescribeTable"; "dynamodb:UpdateTable"]
           [dynamoDBARN; dynamoDBARN ++ "*"] ]) ;;
  policy <- new (ct ++ "_autoscaling_policy")
    (RIamPolicy (prefix ++ "-" ++ ct ++ "-AutoScalingPolicy")
       (attribute doc "json")) ;;
  assume <- new (ct ++ "_assume_role_policy_document")
    (RDataAwsIamPolicyDocument
       [ mkStatement "Allow"
           [mkPrincipal "Service" ["application-autoscaling.amazonaws.com"]]
           ["sts:AssumeRole"] [] ]) ;;
  role <- new (ct ++ "_role")
    (RIamRole (prefix ++ "-" ++ ct ++ "-AutoScalingRole") tags
       (attribute assume "json")) ;;
  new (ct ++ "_role_attachment")
    (RIamRolePolicyAttachment (attribute policy "arn")
       (attribute role "name") [role; policy]) ;;
  ret (attribute role "arn").

Definition createAutoScalingPolicy
    (roleArn : string) (policyTarget : PolicyTarget)
    (capacityType : ApplicationDynamoDBTableCapacityType)
    (minCapacity : option Z) (maxCapacity : Z) (tracking : Z)
    (dynamoDB : string) (indexName : option string) : M Scope unit :=
  let ct := capacityType_value capacityType in
  let pt := policyTarget_value policyTarget in
  resourceId <-
    (match policyTarget with
     | index =>
         if truthy_string indexName then
           ret ("table/" ++ attribute dynamoDB "name" ++ "/index/" ++
                match indexName with Some n => n | None => "" end)
         else
           throw (Error
             "you must specify an indexName when creating an index auto scaling policy")
     | table => ret ("table/" ++ attribute dynamoDB "name")
     end) ;;
  let constructPrefix :=
    (if truthy_string indexName
     then match indexName with Some n => n | None => "" end
     else attribute dynamoDB "friendlyUniqueId") ++ "_" ++ ct ++ "_" ++ pt in
  targetTracking <- new (constructPrefix ++ "_target")
    (RAppautoscalingTarget
       {| maxCapacity := maxCapacity;
          minCapacity := minCapacity;
          tg_resourceId := resourceId;
          tg_scalableDimension := "dynamodb:" ++ pt ++ ":" ++ ct ++ "Units";
          tg_roleArn := roleArn;
          tg_serviceNamespace := "dynamodb";
          tg_dependsOn := [dynamoDB] |}) ;;
  new (constructPrefix ++ "_policy")
    (RAppautoscalingPolicy
       {| ap_name := "DynamoDB" ++ ct ++ "Utilization:" ++
                     attribute targetTracking "resourceId";
          policyType := "TargetTrackingScaling";
          ap_resourceId := attribute targetTracking "resourceId";
          ap_scalableDimension := attribute targetTracking "scalableDimension";
          ap_serviceNamespace := attribute targetTracking "serviceNamespace";
          predefinedMetricType := "DynamoDB" ++ ct ++ "Utilization";
          targetValue := tracking;
          ap_dependsOn := [targetTracking; dynamoDB] |}) ;;
  ret tt.

Definition setupAutoscaling
    (prefix : string) (config : ApplicationDynamoDBTableAutoScaleProps)
    (dynamoDB : string)
    (capacityType : ApplicationDynamoDBTableCapacityType)
    (globalSecondaryIndexes :
       option (Resolvable (list DynamodbTableGlobalSecondaryIndex)))
    (tags : Tags) : M Scope unit :=
  roleArn <- createAutoScalingRole capacityType prefix
               (attribute dynamoDB "arn") tags ;;
  createAutoScalingPolicy roleArn table capacityType
    (Some (min config)) (max config) (tracking config) dynamoDB None ;;
  match globalSecondaryIndexes with
  | None =>
      (* [undefined.length] *)
      throw (TypeError "Cannot read properties of undefined (reading 'length')")
  | Some Token =>
      (* a token object has no [length]: the condition is falsy *)
      ret tt
  | Some (Value castedGlobalSecondaryIndexes) =>
      if (0 <? List.length castedGlobalSecondaryIndexes)%nat then
        forEach
          (fun gsIndex =>
             let minCapacity :=
               match capacityType with
               | Read => index_readCapacity gsIndex
               | Write => index_writeCapacity gsIndex
               end in
             createAutoScalingPolicy roleArn index capacityType
               minCapacity (max config) (tracking config) dynamoDB
               (Some (index_name gsIndex)))
          castedGlobalSecondaryIndexes
      else ret tt
  end.

Definition constructor (config : ApplicationDynamoDBProps) : M Scope string :=
  validateStreamConfig (tableConfig config)
    ApplicationDynamoDBTableStreamViewType ;;
  let billingMode :=
    capacityMode_value
      (match capacityMode config with Some m => m | None => PROVISIONED end) in
  dynamodb <- new "dynamodb_table"
    (RDynamodbTable
       {| dt_tableConfig := tableConfig config;
          dt_billingMode := billingMode;
          dt_tags := tags config;
          dt_name := prefix config;
          dt_lifecycle :=
            {| ignoreChanges := ["read_capacity"; "write_capacity"];
               preventDestroy :=
                 match preventDestroyTable config with
                 | Some false => false
                 | _ => true
                 end |} |}) ;;
  (match readCapacity config with
   | Some rc =>
       setupAutoscaling (prefix config) rc dynamodb Read
         (globalSecondaryIndex (tableConfig config)) (tags config)
   | None => ret tt
   end) ;;
  (match writeCapacity config with
   | Some wc =>
       setupAutoscaling (prefix config) wc dynamodb Write
         (globalSecondaryIndex (tableConfig config)) (tags config)
   | None => ret tt
   end) ;;
  ret dynamodb.

End Engine.

(** [new ApplicationDynamoDBTable(scope, name, config)]: the completion
    of the constructor and the declarations registered under the new
    construct. *)
Definition construct (attribute : string -> string -> string)
    (alreadyExists : string -> string) (config : ApplicationDynamoDBProps)
  : Completion string * Scope :=
  constructor attribute (declare alreadyExists) config [].

(** The plan of a construction: how the constructor completes and what it
    asks to declare when no id is refused. *)
Definition plan (attribute : string -> string -> string)
    (config : ApplicationDynamoDBProps) : Completion string * Scope :=
  constructor attribute request config [].

(** *** Observations on the declarations *)

Definition tables (s : Scope) : list DynamodbTable :=
  flat_map (fun n => match snd n with RDynamodbTable t => [t] | _ => [] end) s.

Definition targets (s : Scope) : list AppautoscalingTarget :=
  flat_map (fun n => match snd n with RAppautoscalingTarget t => [t] | _ => [] end) s.

Definition policies (s : Scope) : list AppautoscalingPolicy :=
  flat_map (fun n => match snd n with RAppautoscalingPolicy p => [p] | _ => [] end) s.

(** The capacity an index declares for a dimension: its [readCapacity] for
    read, its [writeCapacity] for write. *)
Definition index_capacity (capacityType : ApplicationDynamoDBTableCapacityType)
    (gsIndex : DynamodbTableGlobalSecondaryIndex) : option Z :=
  match capacityType with
  | Read => index_readCapacity gsIndex
  | Write => index_writeCapacity gsIndex
  end.

(** What an autoscaling target scales and between which bounds: its
    scalable dimension, resource id, minimum and maximum capacity. *)
Definition target_view (t : AppautoscalingTarget)
  : string * string * option Z * Z :=
  (tg_scalableDimension t, tg_resourceId t, minCapacity t, maxCapacity t).

(** The metric a scaling policy tracks and its target value. *)
Definition policy_view (p : AppautoscalingPolicy) : string * Z :=
  (predefinedMetricType p, targetValue p).

(** The targets one capacity dimension is meant to get: one for the table,
    with the bounds of the capacity spec, then one per index, with the
    capacity the index declares as minimum and the maximum of the spec. *)
Definition dimension_targets (tableName : string)
    (capacityType : ApplicationDynamoDBTableCapacityType)
    (spec : ApplicationDynamoDBTableAutoScaleProps)
    (indexes : list DynamodbTableGlobalSecondaryIndex)
  : list (string * string * option Z * Z) :=
  ("dynamodb:table:" ++ capacityType_value capacityType ++ "Units",
   "table/" ++ tableName, Some (min spec), max spec)
  :: map (fun gsIndex =>
            ("dynamodb:index:" ++ capacityType_value capacityType ++ "Units",
             "table/" ++ tableName ++ "/index/" ++ index_name gsIndex,
             index_capacity capacityType gsIndex, max spec))
       indexes.

(** The policies one capacity dimension is meant to get: one for the table
    and one per index, all tracking the target of the spec. *)
Definition dimension_policies
    (capacityType : ApplicationDynamoDBTableCapacityType)
    (spec : ApplicationDynamoDBTableAutoScaleProps)
    (indexes : list DynamodbTableGlobalSecondaryIndex)
  : list (string * Z) :=
  repeat ("DynamoDB" ++ capacityType_value capacityType ++ "Utilization",
          tracking spec)
    (S (List.length indexes)).

(** An index has a name when JavaScript finds its [name] truthy. *)
Definition named (gsIndex : DynamodbTableGlobalSecondaryIndex) : bool :=
  truthy_string (Some (index_name gsIndex)).

(** The stream view type is present and one of the enumeration's values. *)
Definition validStreamViewType (tableConfig : ApplicationDynamoDBTableConfig)
  : Prop :=
  exists v, streamViewType tableConfig = Some v /\
            In v ApplicationDynamoDBTableStreamViewType.

(** How [setupAutoscaling] completes, as a function of the indexes it is
    given: reading [length] of [undefined] throws, a token is skipped, and
    the loop over an array stops at the first index without a name. *)
Definition setup_completion
    (globalSecondaryIndexes :
       option (Resolvable (list DynamodbTableGlobalSecondaryIndex)))
  : Completion unit :=
  match globalSecondaryIndexes with
  | None =>
      Threw (TypeError "Cannot read properties of undefined (reading 'length')")
  | Some Token => Returned tt
  | Some (Value l) =>
      if forallb named l then Returned tt
      else Threw (Error
        "you must specify an indexName when creating an index auto scaling policy")
  end.

(** The billing mode the table is meant to be declared with. *)
Definition billingMode_of (config : ApplicationDynamoDBProps) : string :=
  match capacityMode config with
  | Some ON_DEMAND => "PAY_PER_REQUEST"
  | Some PROVISIONED | None => "PROVISIONED"
  end.

End KeyedTable.

(** ** Relational-cluster builder: [ApplicationRDSCluster] *)

Module RdsCluster.
Import Js Build.
Local Open Scope build_scope.

Record ApplicationRDSClusterConfig : Type := mkRdsConfig {
  masterUsername : string;
  masterPassword : option string;
  engine : option string;
  databaseName : option string;
  port : option Z
}.

Record ApplicationRDSClusterProps : Type := mkProps {
  prefix : string;
  vpcId : string;
  subnetIds : list string;
  rdsConfig : ApplicationRDSClusterConfig;
  tags : Tags;
  provider : option string
}.

Inductive JsonValue : Type :=
| JString (s : string)
| JNumber (n : Z).

(** An object literal: its properties in insertion order. *)
Definition JsonObject : Type := list (string * JsonValue).

Definition property (o : JsonObject) (k : string) : option JsonValue :=
  option_map snd (find (fun kv => String.eqb (fst kv) k) o).

Record SecurityGroup : Type := mkSecurityGroup {
  sg_namePrefix : string;
  sg_description : string;
  sg_vpcId : string;
  ingress : list Rule;
  egress : list Rule;
  sg_provider : option string;
  sg_tags : Tags
}.

Record RdsClusterDecl : Type := mkCluster {
  rc_rdsConfig : ApplicationRDSClusterConfig;
  clusterIdentifierPrefix : string;
  rc_tags : Tags;
  copyTagsToSnapshot : bool;
  rc_masterPassword : string;
  vpcSecurityGroupIds : list string;
  dbSubnetGroupName : string;
  rc_ignoreChanges : list string;
  rc_provider : option string
}.

Inductive Resource : Type :=
| RDataAwsVpc (filter : list (string * list string)) (provider : option string)
| RSecurityGroup (g : SecurityGroup)
| RDbSubnetGroup (namePrefix : string) (subnetIds : list string)
    (provider : option string) (tags : Tags)
| RRdsCluster (c : RdsClusterDecl)
| RSecretsmanagerSecret (description name : string) (dependsOn : list string)
    (provider : option string) (tags : Tags)
| RSecretsmanagerSecretVersion (secretId : string)
    (* the object handed to [JSON.stringify] for [secretString] *)
    (secretValues : JsonObject)
    (dependsOn : list string) (provider : option string).

Definition Node : Type := (string * Resource)%type.

(** The state of a construction: the declarations registered so far and
    the system's source of random bytes, of which [drawn] have been
    consumed. *)
Record World : Type := mkWorld {
  scope : list Node;
  source : nat -> Byte.byte;
  drawn : nat
}.

(** [new R(scope, id, config)]: registers the declaration and returns its
    handle, which is its local id.  The ids this builder passes are six
    different literals without ['/'], declared once each, so an id is never
    taken when it is declared. *)
Definition declare (id : string) (r : Resource) : M World string :=
  fun w => (Returned id,
            {| scope := (scope w ++ [(id, r)])%list;
               source := source w;
               drawn := drawn w |}).

(** [crypto.randomBytes(n)]. *)
Definition randomBytes (n : nat) : M World (list Byte.byte) :=
  fun w => (Returned (map (source w) (seq (drawn w) n)),
            {| scope := scope w; source := source w; drawn := drawn w + n |}).

(** The hexadecimal digits, in order of value. *)
Definition hex_digits : list ascii := list_ascii_of_string "0123456789abcdef".

Definition hex_digit (n : N) : ascii := nth (N.to_nat n) hex_digits "0"%char.

(** [buffer.toString('hex')]: two lower-case digits per byte. *)
Fixpoint toString_hex (bs : list Byte.byte) : string :=
  match bs with
  | [] => ""
  | b :: bs' =>
      let n := Byte.to_N b in
      String (hex_digit (n / 16)) (String (hex_digit (n mod 16)) (toString_hex bs'))
  end.

Section Engine.
Variable attribute : string -> string -> string.

(** [engine?.includes('postgresql') ? 5432 : 3306]. *)
Definition rdsPort_of (engine : option string) : Z :=
  if match engine with
     | Some e => includes e "postgresql"
     | None => false
     end
  then 5432 else 3306.

Definition createRdsSecret (rds : string) (rdsPort : Z) (prefix : string)
    (tags : Tags) (engine : option string) (provider : option string)
  : M World string :=
  secret <- declare "rds_secret"
    (RSecretsmanagerSecret
       ("Secret For " ++ attribute rds "clusterIdentifier")
       (prefix ++ "/" ++ attribute rds "clusterIdentifier")
       [rds] provider tags) ;;
  let secretValues : JsonObject :=
    [ ("engine", JString (attribute rds "engine"));
      ("host", JString (attribute rds "endpoint"));
      ("username", JString (attribute rds "masterUsername"));
      ("password", JString (attribute rds "masterPassword"));
      ("dbname", JString (attribute rds "databaseName"));
      ("port", JNumber rdsPort) ] in
  let secretValues :=
    if truthy_string engine &&
       match engine with Some e => String.eqb e "aurora-mysql" | None => false end
    then
      (secretValues ++
       [ ("database_url",
          JString ("mysql://" ++ attribute rds "masterUsername" ++ ":" ++
                   attribute rds "masterPassword" ++ "@" ++
                   attribute rds "endpoint" ++ ":" ++
                   number_to_string rdsPort ++ "/" ++
                   attribute rds "databaseName")) ])%list
    else secretValues in
  declare "rds_secret_version"
    (RSecretsmanagerSecretVersion (attribute secret "id") secretValues
       [secret] provider) ;;
  ret (attribute secret "arn").

(** Returns the cluster handle and [secretARN]. *)
Definition constructor (config : ApplicationRDSClusterProps)
  : M World (string * string) :=
  appVpc <- declare "vpc"
    (RDataAwsVpc [("vpc-id", [vpcId config])] (provider config)) ;;
  let rdsPort := rdsPort_of (engine (rdsConfig config)) in
  securityGroup <- declare "rds_security_group"
    (RSecurityGroup
       {| sg_namePrefix := prefix config;
          sg_description := "Managed by Terraform";
          sg_vpcId := attribute appVpc "id";
          ingress :=
            [ {| fromPort := rdsPort;
                 toPort := rdsPort;
                 protocol := "tcp";
                 cidrBlocks := [attribute appVpc "cidrBlock"];
                 rule_description := Null;
                 ipv6CidrBlocks := Null;
                 prefixListIds := Null;
                 securityGroups := Null |} ];
          egress :=
            [ {| fromPort := 0;
                 toPort := 0;
                 protocol := "-1";
                 cidrBlocks := ["0.0.0.0/0"];
                 rule_description := Given "required";
                 ipv6CidrBlocks := Given [];
                 prefixListIds := Given [];
                 securityGroups := Given [] |} ];
          sg_provider := provider config;
          sg_tags := tags config |}) ;;
  subnetGroup <- declare "rds_subnet_group"
    (RDbSubnetGroup (toLowerCase (prefix config)) (subnetIds config)
       (provider config) (tags config)) ;;
  password <-
    (match masterPassword (rdsConfig config) with
     | Some p => ret p
     | None => bytes <- randomBytes 8 ;; ret (toString_hex bytes)
     end) ;;
  rds <- declare "rds_cluster"
    (RRdsCluster
       {| rc_rdsConfig := rdsConfig config;
          clusterIdentifierPrefix := toLowerCase (prefix config);
          rc_tags := tags config;
          copyTagsToSnapshot := true;
          rc_masterPassword := password;
          vpcSecurityGroupIds := [attribute securityGroup "id"];
          dbSubnetGroupName := attribute subnetGroup "name";
          rc_ignoreChanges := ["master_username"; "master_password"];
          rc_provider := provider config |}) ;;
  secretARN <- createRdsSecret rds rdsPort (prefix config) (tags config)
                 (engine (rdsConfig config)) (provider config) ;;
  ret (rds, secretARN).

(** [new ApplicationRDSCluster(scope, name, config)] with the random
    source [src], of which [n] bytes were consumed before the call. *)
Definition construct (src : nat -> Byte.byte) (n : nat)
    (config : ApplicationRDSClusterProps)
  : Completion (string * string) * World :=
  constructor config {| scope := []; source := src; drawn := n |}.

End Engine.

(** *** Observations on the declarations *)

Definition clusters (s : list Node) : list RdsClusterDecl :=
  flat_map (fun n => match snd n with RRdsCluster c => [c] | _ => [] end) s.

Definition securityGroupsOf (s : list Node) : list SecurityGroup :=
  flat_map (fun n => match snd n with RSecurityGroup g => [g] | _ => [] end) s.

Definition secretPayloads (s : list Node) : list JsonObject :=
  flat_map (fun n => match snd n with
                     | RSecretsmanagerSecretVersion _ v _ _ => [v]
                     | _ => []
                     end) s.

Definition is_hex_digit (c : ascii) : bool := existsb (Ascii.eqb c) hex_digits.

(** The value of a digit: its position among the digits. *)
Fixpoint position (c : ascii) (l : list ascii) : option N :=
  match l with
  | [] => None
  | d :: l' => if Ascii.eqb c d then Some 0%N else option_map N.succ (position c l')
  end.

Definition hex_value (c : ascii) : option N := position c hex_digits.

(** [Buffer.from(s, 'hex')] on lower-case digits: decoding stops at the
    first pair that is not two digits. *)
Fixpoint fromHex (s : string) : list Byte.byte :=
  match s with
  | String h (String l s') =>
      match hex_value h, hex_value l with
      | Some a, Some b =>
          match Byte.of_N (16 * a + b) with
          | Some x => x :: fromHex s'
          | None => []
          end
      | _, _ => []
      end
  | _ => []
  end.

End RdsCluster.

(** ** Load-balancer builder: [ApplicationLoadBalancer] *)

Module LoadBalancer.
Import Js Build.
Local Open Scope build_scope.

Record AccessLogs : Type := mkAccessLogs {
  existingBucket : option string;
  bucket : option string;
  al_prefix : option string
}.

Record ApplicationLoadBalancerProps : Type := mkProps {
  prefix : string;
  alb6CharacterPrefix : string;
  vpcId : string;
  subnetIds : list string;
  internal : option bool;
  accessLogs : option AccessLogs;
  tags : Tags;
  provider : option string
}.

Record SecurityGroup : Type := mkSecurityGroup {
  sg_namePrefix : string;
  sg_description : string;
  sg_vpcId : string;
  ingress : list Rule;
  egress : list Rule;
  sg_tags : list (string * string);
  createBeforeDestroy : bool;
  sg_provider : option string
}.

Record AlbAccessLogs : Type := mkAlbAccessLogs {
  logs_bucket : string;
  logs_enabled : bool;
  logs_prefix : string
}.

Record AlbConfig : Type := mkAlbConfig {
  namePrefix : string;
  alb_securityGroups : list string;
  alb_internal : bool;
  subnets : list string;
  alb_tags : Tags;
  alb_accessLogs : option AlbAccessLogs;
  alb_provider : option string
}.

Inductive Resource : Type :=
| RSecurityGroup (g : SecurityGroup)
| RDataAwsS3Bucket (bucket : string) (provider : option string)
| RS3Bucket (bucket : option string) (provider : option string) (tags : Tags)
| RDataAwsElbServiceAccount (provider : option string)
| RDataAwsIamPolicyDocument (statement : list Statement) (provider : option string)
| RS3BucketPolicy (bucket policy : string) (provider : option string)
| RAlb (c : AlbConfig).

Definition Node : Type := (string * Resource)%type.
Definition Scope : Type := list Node.

(** [new R(scope, id, config)]: registers the declaration and returns its
    handle, which is its local id.  The ids this builder passes are
    literals without ['/'], different along every path through the
    constructor, so an id is never taken when it is declared. *)
Definition declare (id : string) (r : Resource) : M Scope string :=
  fun st => (Returned id, (st ++ [(id, r)])%list).

(** [{...tags, k: v}]: an existing key keeps its place and takes the new
    value, a new key goes last. *)
Fixpoint set_property (o : list (string * string)) (k v : string)
  : list (string * string) :=
  match o with
  | [] => [(k, v)]
  | (k', v') :: o' =>
      if String.eqb k' k then (k, v) :: o' else (k', v') :: set_property o' k v
  end.

Section Engine.
Variable attribute : string -> string -> string.

Definition getOrCreateBucket (existingBucket bucket : option string)
    (tags : Tags) (provider : option string) : M Scope string :=
  if is_undefined existingBucket && is_undefined bucket then
    throw (Error
      "If you are configuring access logs you need to define either an existing bucket or a new one to store the logs")
  else
    match existingBucket with
    | Some existing =>
        b <- declare "log-bucket" (RDataAwsS3Bucket existing provider) ;;
        ret (attribute b "bucket")
    | None =>
        s3Bucket <- declare "log-bucket" (RS3Bucket bucket provider tags) ;;
        account <- declare "elb-service-account"
                     (RDataAwsElbServiceAccount provider) ;;
        let albAccountId := attribute account "id" in
        s3IAMDocument <- declare "iam-log-bucket-policy-document"
          (RDataAwsIamPolicyDocument
             [ mkStatement "Allow"
                 [mkPrincipal "AWS" ["arn:aws:iam::" ++ albAccountId ++ ":root"]]
                 ["s3:PutObject"]
                 ["arn:aws:s3:::" ++ attribute s3Bucket "bucket" ++ "/*"] ]
             provider) ;;
        declare "log-bucket-policy"
          (RS3BucketPolicy (attribute s3Bucket "bucket")
             (attribute s3IAMDocument "json") provider) ;;
        ret (attribute s3Bucket "bucket")
    end.

Definition defaultPrefix (config : ApplicationLoadBalancerProps) : string :=
  "server-logs/" ++ toLowerCase (prefix config) ++ "/alb".

(** The prefix the access logs are written under. *)
Definition resolvedPrefix (config : ApplicationLoadBalancerProps)
    (logs : AccessLogs) : string :=
  match al_prefix logs with
  | None => defaultPrefix config
  | Some p => p
  end.

(** The condition of the prefix check. *)
Definition startsOrEndsWithSlash (prefix : string) : bool :=
  String.eqb (charAt prefix (Js.length prefix - 1)) "/" ||
  String.eqb (charAt prefix 0) "/".

(** Returns the load-balancer handle and the security-group handle. *)
Definition constructor (config : ApplicationLoadBalancerProps)
  : M Scope (string * string) :=
  securityGroup <- declare "alb_security_group"
    (RSecurityGroup
       {| sg_namePrefix := prefix config ++ "-HTTP/S Security Group";
          sg_description := "External security group  (Managed by Terraform)";
          sg_vpcId := vpcId config;
          ingress :=
            [ mkRule 443 443 "TCP" ["0.0.0.0/0"] Absent Absent Absent Absent;
              mkRule 80 80 "TCP" ["0.0.0.0/0"] Absent Absent Absent Absent ];
          egress :=
            [ mkRule 0 0 "-1" ["0.0.0.0/0"] (Given "required")
                (Given []) (Given []) (Given []) ];
          sg_tags :=
            set_property
              (match tags config with Some t => t | None => [] end)
              "Name" (prefix config ++ "-HTTP/S Security Group");
          createBeforeDestroy := true;
          sg_provider := provider config |}) ;;
  logsConfig <-
    (match accessLogs config with
     | Some logs =>
         let prefix := resolvedPrefix config logs in
         if startsOrEndsWithSlash prefix then
           throw (Error "Logs prefix cannot start or end with '/'")
         else
           bucket <- getOrCreateBucket (existingBucket logs) (bucket logs)
                       (tags config) (provider config) ;;
           ret (Some {| logs_bucket := bucket;
                        logs_enabled := true;
                        logs_prefix := prefix |})
     | None => ret None
     end) ;;
  alb <- declare "alb"
    (RAlb
       {| namePrefix := alb6CharacterPrefix config;
          alb_securityGroups := [attribute securityGroup "id"];
          alb_internal :=
            match internal config with Some b => b | None => false end;
          subnets := subnetIds config;
          alb_tags := tags config;
          alb_accessLogs := logsConfig;
          alb_provider := provider config |}) ;;
  ret (alb, securityGroup).

Definition construct (config : ApplicationLoadBalancerProps)
  : Completion (string * string) * Scope :=
  constructor config [].

End Engine.

(** *** Observations on the declarations *)

Definition albs (s : Scope) : list AlbConfig :=
  flat_map (fun n => match snd n with RAlb c => [c] | _ => [] end) s.

Definition createdBuckets (s : Scope) : list (option string) :=
  flat_map (fun n => match snd n with RS3Bucket b _ _ => [b] | _ => [] end) s.

Definition lookedUpBuckets (s : Scope) : list string :=
  flat_map (fun n => match snd n with RDataAwsS3Bucket b _ => [b] | _ => [] end) s.

End LoadBalancer.

(** ** Sample configurations *)

Module Samples.
Import Js.

(** A sample engine: attribute [a] of handle [h] reads as the reference
    [${h.a}]. *)
Definition reference (h a : string) : string := "${" ++ h ++ "." ++ a ++ "}".

(** A sample message for an id that is already taken in the scope. *)
Definition alreadyThere (k : string) : string :=
  "There is already a Construct with name '" ++ k ++ "'".

Module Table.
Import KeyedTable.

Definition spec_70_10_1 : ApplicationDynamoDBTableAutoScaleProps :=
  {| tracking := 70; max := 10; min := 1 |}.

Definition plainTable : ApplicationDynamoDBTableConfig :=
  {| hashKey := "123";
     rangeKey := None;
     table_billingMode := None;
     table_readCapacity := None;
     table_writeCapacity := None;
     streamEnabled := None;
     streamViewType := None;
     globalSecondaryIndex := None;
     tc_dependsOn := None |}.

Definition withIndexes (tc : ApplicationDynamoDBTableConfig)
    (l : list DynamodbTableGlobalSecondaryIndex)
  : ApplicationDynamoDBTableConfig :=
  {| hashKey := hashKey tc;
     rangeKey := rangeKey tc;
     table_billingMode := table_billingMode tc;
     table_readCapacity := table_readCapacity tc;
     table_writeCapacity := table_writeCapacity tc;
     streamEnabled := streamEnabled tc;
     streamViewType := streamViewType tc;
     globalSecondaryIndex := Some (Value l);
     tc_dependsOn := tc_dependsOn tc |}.

Definition withStream (tc : ApplicationDynamoDBTableConfig)
    (view : option string) : ApplicationDynamoDBTableConfig :=
  {| hashKey := hashKey tc;
     rangeKey := rangeKey tc;
     table_billingMode := table_billingMode tc;
     table_readCapacity := table_readCapacity tc;
     table_writeCapacity := table_writeCapacity tc;
     streamEnabled := Some (Value true);
     streamViewType := view;
     globalSecondaryIndex := globalSecondaryIndex tc;
     tc_dependsOn := tc_dependsOn tc |}.

Definition indexNamed (n : string) : DynamodbTableGlobalSecondaryIndex :=
  {| index_name := n;
     index_hashKey := "attribeautiful";
     index_projectionType := "ALL";
     index_readCapacity := Some 2%Z;
     index_writeCapacity := Some 3%Z |}.

Definition twoIndexes : list DynamodbTableGlobalSecondaryIndex :=
  [indexNamed "index1"; indexNamed "index2"].

Definition props (tc : ApplicationDynamoDBTableConfig)
    (r w : option ApplicationDynamoDBTableAutoScaleProps)
    (mode : option ApplicationDynamoDBTableCapacityMode)
    (protect : option bool) : ApplicationDynamoDBProps :=
  {| tags := Some [("name", "thedude")];
     prefix := "abides-";
     tableConfig := tc;
     readCapacity := r;
     writeCapacity := w;
     capacityMode := mode;
     preventDestroyTable := protect |}.

(** Read and write capacity on a table with two indexes. *)
Definition readWriteTwoIndexes : ApplicationDynamoDBProps :=
  props (withIndexes plainTable twoIndexes)
    (Some spec_70_10_1) (Some spec_70_10_1) None None.

(** Read capacity on a table whose configuration has no
    [globalSecondaryIndex]. *)
Definition readNoIndexes : ApplicationDynamoDBProps :=
  props plainTable (Some spec_70_10_1) None None None.

(** Read capacity on an on-demand table with an empty index array. *)
Definition onDemandRead : ApplicationDynamoDBProps :=
  props (withIndexes plainTable []) (Some spec_70_10_1) None
    (Some ON_DEMAND) None.

(** An on-demand table without capacity specs. *)
Definition onDemandOnly : ApplicationDynamoDBProps :=
  props plainTable None None (Some ON_DEMAND) None.


(** Streaming without a view type. *)
Definition streamNoView : ApplicationDynamoDBProps :=
  props (withStream plainTable None) None None None None.

(** Destroy protection switched off. *)
Definition unprotected : ApplicationDynamoDBProps :=
  props plainTable None None None (Some false).
End Table.

Module Cluster.
Import RdsCluster.

Definition cluster (password engine : option string) (p : option Z)
  : ApplicationRDSClusterProps :=
  {| prefix := "BowlingTeam";
     vpcId := "rug";
     subnetIds := ["0"; "1"];
     rdsConfig :=
       {| masterUsername := "walter";
          masterPassword := password;
          engine := engine;
          databaseName := Some "walter";
          port := p |};
     tags := Some [("whodis", "walter")];
     provider := None |}.

(** A source of random bytes: byte [i] is [i mod 256]. *)
Definition counting (i : nat) : Byte.byte :=
  match Byte.of_N (N.of_nat i mod 256) with
  | Some b => b
  | None => Byte.x00
  end.
End Cluster.

Module Balancer.
Import LoadBalancer.

Definition balancer (logs : option AccessLogs) : ApplicationLoadBalancerProps :=
  {| prefix := "Test-Prod";
     alb6CharacterPrefix := "TSTPRD";
     vpcId := "123";
     subnetIds := ["a"; "b"];
     internal := None;
     accessLogs := logs;
     tags := Some [("name", "thedude")];
     provider := None |}.

Definition logsTo (existing new prefix : option string) : AccessLogs :=
  {| existingBucket := existing; bucket := new; al_prefix := prefix |}.
End Balancer.

End Samples.

(** ** Further observations *)

Module Frame.
Import Js Build.

(** How a computation completes from the empty scope, and what it declares
    there. *)
Definition outcome {N A} (m : M (list N) A) : Completion A := fst (m []).

Definition emitted {N A} (m : M (list N) A) : list N := snd (m []).

(** A computation that neither reads nor removes declarations: from any
    scope it completes as from the empty one and appends what it declares
    there. *)
Definition framed {N A} (m : M (list N) A) : Prop :=
  forall st, m st = (outcome m, (st ++ emitted m)%list).

End Frame.

Module KeyedTableObs.
Import Js Build KeyedTable.

(** The local ids of the declarations, in order. *)
Definition ids (s : Scope) : list string := map fst s.

(** The ids of the autoscaling targets. *)
Definition target_ids (s : Scope) : list string :=
  flat_map (fun n => match snd n with RAppautoscalingTarget _ => [fst n] | _ => [] end) s.

(** The name and tags of each IAM role. *)
Definition iam_roles (s : Scope) : list (string * Tags) :=
  flat_map (fun n => match snd n with RIamRole name tg _ => [(name, tg)] | _ => [] end) s.

(** The name of each IAM policy. *)
Definition iam_policies (s : Scope) : list string :=
  flat_map (fun n => match snd n with RIamPolicy name _ => [name] | _ => [] end) s.

(** The policy ARN and role of each role-policy attachment. *)
Definition attachments (s : Scope) : list (string * string) :=
  flat_map (fun n => match snd n with
                     | RIamRolePolicyAttachment arn role _ => [(arn, role)]
                     | _ => []
                     end) s.

(** The handles a declaration lists in [dependsOn]: for the table those of
    the caller's table configuration, which is spread into it; for an
    attachment, a target and a policy those the builder writes; none for a
    role, an IAM policy and a policy document. *)
Definition dependsOn (r : Resource) : list string :=
  match r with
  | RDynamodbTable t =>
      match tc_dependsOn (dt_tableConfig t) with Some d => d | None => [] end
  | RIamRolePolicyAttachment _ _ d => d
  | RAppautoscalingTarget t => tg_dependsOn t
  | RAppautoscalingPolicy p => ap_dependsOn p
  | _ => []
  end.

(** Every declaration other than a table depends only on what was declared
    before it, [seen] being declared already.  A table has the caller's
    dependencies, which are handles from outside the construction. *)
Fixpoint backward (seen : list string) (s : Scope) : Prop :=
  match s with
  | [] => True
  | n :: s' =>
      match snd n with
      | RDynamodbTable _ => True
      | r => incl (dependsOn r) seen
      end /\ backward (fst n :: seen) s'
  end.

(** Every autoscaling target acts through the role of a capacity dimension,
    and that role was declared before it, [roles] being the roles declared
    already. *)
Fixpoint roles_first (attribute : string -> string -> string)
    (roles : list string) (s : Scope) : Prop :=
  match s with
  | [] => True
  | n :: s' =>
      match snd n with
      | RIamRole _ _ _ => roles_first attribute (fst n :: roles) s'
      | RAppautoscalingTarget t =>
          (exists ct,
             tg_roleArn t = attribute (capacityType_value ct ++ "_role") "arn" /\
             In (capacityType_value ct ++ "_role") roles) /\
          roles_first attribute roles s'
      | _ => roles_first attribute roles s'
      end
  end.

(** The ids under which a scope stores its declarations. *)
Definition stored (s : Scope) : list string :=
  map (fun n => sanitizeId (fst n)) s.

(** Registering declarations one after the other, as [declare] does:
    the stored id that is refused, if one is, and the scope reached. *)
Fixpoint settle (st : Scope) (ns : list Node) : option string * Scope :=
  match ns with
  | [] => (None, st)
  | n :: ns' =>
      if taken st (fst n) then (Some (sanitizeId (fst n)), st)
      else settle (st ++ [n])%list ns'
  end.

(** A plan carried out from a scope: it completes as planned when every
    declaration is accepted, and throws at the first one that is refused. *)
Definition replay {A} (alreadyExists : string -> string) (st : Scope)
    (c : Completion A) (ns : list Node) : Completion A * Scope :=
  match settle st ns with
  | (None, st') => (c, st')
  | (Some k, st') => (Threw (Error (alreadyExists k)), st')
  end.

(** A computation carries out the plan of another. *)
Definition simulates {A} (alreadyExists : string -> string)
    (m m0 : M Scope A) : Prop :=
  forall st, m st = replay alreadyExists st (Frame.outcome m0) (Frame.emitted m0).

(** The names of the indexes give pairwise distinct construct ids: no two
    are equal once every ['/'] is read as ['--']. *)
Definition distinct_ids (l : list DynamodbTableGlobalSecondaryIndex) : Prop :=
  NoDup (map (fun gsIndex => sanitizeId (index_name gsIndex)) l).

(** Indexes an autoscaling set-up completes on: a token, or an array in
    which every index has a name and the names give distinct construct
    ids. *)
Definition indexesAccepted
    (gsis : option (Resolvable (list DynamodbTableGlobalSecondaryIndex)))
  : Prop :=
  match gsis with
  | Some (Value l) => forallb named l = true /\ distinct_ids l
  | Some Token => True
  | None => False
  end.

(** The scaling policies are in step with the targets: the i-th policy
    depends on the i-th target and on the table and takes its resource id,
    scalable dimension and namespace from that target. *)
Definition in_step (attribute : string -> string -> string) (s : Scope) : Prop :=
  map (fun p => (ap_dependsOn p, ap_resourceId p, ap_scalableDimension p,
                 ap_serviceNamespace p, policyType p))
    (policies s)
  = map (fun i => ([i; "dynamodb_table"], attribute i "resourceId",
                   attribute i "scalableDimension",
                   attribute i "serviceNamespace", "TargetTrackingScaling"))
      (target_ids s).

(** Where the policy id of a table or index step is stored, the target id
    of that step is stored as well. *)
Definition well_keyed (s : Scope) : Prop :=
  forall x pt,
    In (x ++ "_" ++ policyTarget_value pt ++ "_policy") (stored s) ->
    In (x ++ "_" ++ policyTarget_value pt ++ "_target") (stored s).

(** The indexes before the first one without a name. *)
Fixpoint named_prefix (l : list DynamodbTableGlobalSecondaryIndex)
  : list DynamodbTableGlobalSecondaryIndex :=
  match l with
  | [] => []
  | g :: l' => if named g then g :: named_prefix l' else []
  end.

(** The indexes the autoscaling loop runs over. *)
Definition indexes_of
    (gsis : option (Resolvable (list DynamodbTableGlobalSecondaryIndex)))
  : list DynamodbTableGlobalSecondaryIndex :=
  match gsis with
  | Some (Value l) => l
  | _ => []
  end.

(** The targets and policies of a dimension, when its spec is supplied. *)
Definition supplied_targets (tableName : string)
    (capacityType : ApplicationDynamoDBTableCapacityType)
    (spec : option ApplicationDynamoDBTableAutoScaleProps)
    (indexes : list DynamodbTableGlobalSecondaryIndex)
  : list (string * string * option Z * Z) :=
  match spec with
  | Some s => dimension_targets tableName capacityType s indexes
  | None => []
  end.

Definition supplied_policies
    (capacityType : ApplicationDynamoDBTableCapacityType)
    (spec : option ApplicationDynamoDBTableAutoScaleProps)
    (indexes : list DynamodbTableGlobalSecondaryIndex)
  : list (string * Z) :=
  match spec with
  | Some s => dimension_policies capacityType s indexes
  | None => []
  end.

(** The IAM role a supplied dimension gets. *)
Definition supplied_role (prefix : string) (tg : Tags)
    (capacityType : ApplicationDynamoDBTableCapacityType)
    (spec : option ApplicationDynamoDBTableAutoScaleProps)
  : list (string * Tags) :=
  match spec with
  | Some _ =>
      [(prefix ++ "-" ++ capacityType_value capacityType ++ "-AutoScalingRole", tg)]
  | None => []
  end.

(** The characters of a string, last first: two strings with different
    endings differ early in this form. *)
Definition key (s : string) : list ascii := rev (list_ascii_of_string s).

(** The local ids one dimension declares: those of the role step, of the
    table's target and policy, built on the table's unique id, and of the
    target and policy of each index, built on its name. *)
Definition dimension_ids (uniqueId : string)
    (capacityType : ApplicationDynamoDBTableCapacityType)
    (names : list string) : list string :=
  List.app
    [ capacityType_value capacityType ++ "_policy_document";
      capacityType_value capacityType ++ "_autoscaling_policy";
      capacityType_value capacityType ++ "_assume_role_policy_document";
      capacityType_value capacityType ++ "_role";
      capacityType_value capacityType ++ "_role_attachment" ]
    (List.app
       [ (uniqueId ++ "_" ++ capacityType_value capacityType ++ "_table") ++ "_target";
         (uniqueId ++ "_" ++ capacityType_value capacityType ++ "_table") ++ "_policy" ]
       (flat_map
          (fun n =>
             [ (n ++ "_" ++ capacityType_value capacityType ++ "_index") ++ "_target";
               (n ++ "_" ++ capacityType_value capacityType ++ "_index") ++ "_policy" ])
          names)).

(** The ids of the targets of one dimension: that of the table, then one
    per index. *)
Definition dimension_target_ids (uniqueId : string)
    (capacityType : ApplicationDynamoDBTableCapacityType)
    (indexes : list DynamodbTableGlobalSecondaryIndex) : list string :=
  ((uniqueId ++ "_" ++ capacityType_value capacityType ++ "_table") ++ "_target")
  :: map (fun gsIndex =>
            (index_name gsIndex ++ "_" ++ capacityType_value capacityType ++ "_index")
            ++ "_target")
       indexes.

(** The spec a configuration supplies for a dimension. *)
Definition spec_of (config : ApplicationDynamoDBProps)
    (capacityType : ApplicationDynamoDBTableCapacityType)
  : option ApplicationDynamoDBTableAutoScaleProps :=
  match capacityType with
  | Read => readCapacity config
  | Write => writeCapacity config
  end.

(** What the autoscaling step of a dimension declares for a configuration:
    nothing without a spec. *)
Definition dimension_emitted (attribute : string -> string -> string)
    (config : ApplicationDynamoDBProps)
    (capacityType : ApplicationDynamoDBTableCapacityType) : Scope :=
  match spec_of config capacityType with
  | Some s =>
      Frame.emitted
        (setupAutoscaling attribute request (prefix config) s "dynamodb_table"
           capacityType (globalSecondaryIndex (tableConfig config)) (tags config))
  | None => []
  end.

(** Whether the autoscaling step of a dimension completes normally. *)
Definition dimension_completes (config : ApplicationDynamoDBProps)
    (capacityType : ApplicationDynamoDBTableCapacityType) : bool :=
  match spec_of config capacityType with
  | Some _ => returned (setup_completion (globalSecondaryIndex (tableConfig config)))
  | None => true
  end.

(** The stream configuration passes the validation. *)
Definition streamAccepted (tableConfig : ApplicationDynamoDBTableConfig) : Prop :=
  truthy_flag (streamEnabled tableConfig) = true -> validStreamViewType tableConfig.

End KeyedTableObs.

Module RdsClusterObs.
Import Js Build RdsCluster.

(** The local ids of the declarations, in order. *)
Definition ids (s : list Node) : list string := map fst s.

(** The name prefix of each subnet group. *)
Definition subnetGroupPrefixes (s : list Node) : list string :=
  flat_map (fun n => match snd n with
                     | RDbSubnetGroup p _ _ _ => [p]
                     | _ => []
                     end) s.

(** The subnets of each subnet group. *)
Definition subnetGroupSubnets (s : list Node) : list (list string) :=
  flat_map (fun n => match snd n with
                     | RDbSubnetGroup _ ids _ _ => [ids]
                     | _ => []
                     end) s.

(** The filter of each network lookup. *)
Definition vpcFilters (s : list Node) : list (list (string * list string)) :=
  flat_map (fun n => match snd n with RDataAwsVpc f _ => [f] | _ => [] end) s.

(** The description, name and dependencies of each secret. *)
Definition secrets (s : list Node) : list (string * string * list string) :=
  flat_map (fun n => match snd n with
                     | RSecretsmanagerSecret d name deps _ _ => [(d, name, deps)]
                     | _ => []
                     end) s.

(** The secret and the dependencies of each secret version. *)
Definition secretVersions (s : list Node) : list (string * list string) :=
  flat_map (fun n => match snd n with
                     | RSecretsmanagerSecretVersion id _ deps _ => [(id, deps)]
                     | _ => []
                     end) s.

(** An ASCII capital letter. *)
Definition is_upper (c : ascii) : bool :=
  (65 <=? nat_of_ascii c)%nat && (nat_of_ascii c <=? 90)%nat.

End RdsClusterObs.

Module LoadBalancerObs.
Import Js Build LoadBalancer.

(** The local ids of the declarations, in order. *)
Definition ids (s : Scope) : list string := map fst s.

Definition securityGroupsOf (s : Scope) : list SecurityGroup :=
  flat_map (fun n => match snd n with RSecurityGroup g => [g] | _ => [] end) s.

(** The bucket and the policy of each bucket policy. *)
Definition bucketPolicies (s : Scope) : list (string * string) :=
  flat_map (fun n => match snd n with
                     | RS3BucketPolicy b p _ => [(b, p)]
                     | _ => []
                     end) s.

(** The statements of each policy document. *)
Definition policyDocuments (s : Scope) : list (list Statement) :=
  flat_map (fun n => match snd n with
                     | RDataAwsIamPolicyDocument st _ => [st]
                     | _ => []
                     end) s.

(** The number of lookups of the load-balancing service account. *)
Definition serviceAccountLookups (s : Scope) : nat :=
  List.length
    (flat_map (fun n => match snd n with
                        | RDataAwsElbServiceAccount _ => [tt]
                        | _ => []
                        end) s).

(** The value of a tag: that of the first entry with the key. *)
Definition tag (k : string) (o : list (string * string)) : option string :=
  option_map snd (find (fun kv => String.eqb (fst kv) k) o).

End LoadBalancerObs.

Module MoreSamples.
Import Js Samples Samples.Table KeyedTable.

(** Streaming with a view type that is not one of the four. *)
Definition streamBadView : ApplicationDynamoDBProps :=
  props (withStream plainTable (Some "ALL")) None None None None.

(** A write capacity spec only, on a table with two indexes. *)
Definition writeOnlyTwoIndexes : ApplicationDynamoDBProps :=
  props (withIndexes plainTable twoIndexes) None (Some spec_70_10_1) None None.

(** Read and write capacity on a table whose second index has no name. *)
Definition secondIndexUnnamed : ApplicationDynamoDBProps :=
  props (withIndexes plainTable [indexNamed "index1"; indexNamed ""; indexNamed "index3"])
    (Some spec_70_10_1) (Some spec_70_10_1) None None.


(** Read and write capacity on a table with two indexes of one name. *)
Definition sameNameReadWrite : ApplicationDynamoDBProps :=
  props (withIndexes plainTable [indexNamed "index1"; indexNamed "index1"])
    (Some spec_70_10_1) (Some spec_70_10_1) None None.


(** Read and write capacity and two indexes, with streaming enabled and no
    view type. *)
Definition readWriteStreamNoView : ApplicationDynamoDBProps :=
  props (withStream (withIndexes plainTable twoIndexes) None)
    (Some spec_70_10_1) (Some spec_70_10_1) None None.

(** A table configuration that lists a dependency, with read capacity and
    one index. *)
Definition tableDependsOn : ApplicationDynamoDBProps :=
  props
    {| hashKey := "123";
       rangeKey := None;
       table_billingMode := None;
       table_readCapacity := None;
       table_writeCapacity := None;
       streamEnabled := None;
       streamViewType := None;
       globalSecondaryIndex := Some (Value [indexNamed "index1"]);
       tc_dependsOn := Some ["kms_key"] |}
    (Some spec_70_10_1) None None None.

End MoreSamples.
(** * Properties *)

(** ** The construction monad *)

Module BuildFacts.
Import Js Build.

Lemma appends_ret {N A} (a : A) (st : list N) :
  appends (ret a) st (Returned a) [].
Proof. unfold appends, ret. now rewrite app_nil_r. Qed.

Lemma appends_throw {N A} (e : Thrown) (st : list N) :
  appends (@throw _ A e) st (Threw e) [].
Proof. unfold appends, throw. now rewrite app_nil_r. Qed.

Lemma appends_bind {N A B} (m : M (list N) A) (k : A -> M (list N) B)
    st a ns1 c ns2 :
  appends m st (Returned a) ns1 ->
  appends (k a) (st ++ ns1)%list c ns2 ->
  appends (bind m k) st c (ns1 ++ ns2)%list.
Proof.
  unfold appends, bind. intros -> ->. now rewrite app_assoc.
Qed.

Lemma appends_bind_threw {N A B} (m : M (list N) A) (k : A -> M (list N) B)
    st e ns :
  appends m st (Threw e) ns ->
  appends (bind m k) st (Threw e) ns.
Proof. unfold appends, bind. now intros ->. Qed.

End BuildFacts.

(** ** Keyed-table builder: the plan of a construction

    What the constructor asks to declare, and how it completes, when no id
    is refused: the builder run with [request]. *)

Module PlanFacts.
Import Js Build BuildFacts KeyedTable.

Lemma tables_app a b : tables (a ++ b)%list = (tables a ++ tables b)%list.
Proof. apply flat_map_app. Qed.

Lemma targets_app a b : targets (a ++ b)%list = (targets a ++ targets b)%list.
Proof. apply flat_map_app. Qed.

Lemma policies_app a b : policies (a ++ b)%list = (policies a ++ policies b)%list.
Proof. apply flat_map_app. Qed.

Lemma array_includes_In xs x : array_includes xs (Some x) = true <-> In x xs.
Proof.
  unfold array_includes. rewrite existsb_exists. split.
  - intros (y & Hy & E). apply String.eqb_eq in E. now subst.
  - intros H. exists x. split; [exact H | apply String.eqb_refl].
Qed.

Lemma truthy_string_Some s : truthy_string (Some s) = true <-> s <> "".
Proof. destruct s; simpl; split; congruence. Qed.

Section Engine.
Variable attribute : string -> string -> string.

(** *** Stream validation *)

Lemma validateStreamConfig_disabled tc vs st :
  truthy_flag (streamEnabled tc) = false ->
  validateStreamConfig tc vs st = (Returned tt, st).
Proof. unfold validateStreamConfig. now intros ->. Qed.

Lemma validateStreamConfig_valid tc st :
  validStreamViewType tc ->
  validateStreamConfig tc ApplicationDynamoDBTableStreamViewType st
  = (Returned tt, st).
Proof.
  intros (v & Hv & Hin). unfold validateStreamConfig. rewrite Hv.
  destruct (truthy_flag (streamEnabled tc)); [|reflexivity].
  assert (truthy_string (Some v) = true) as ->.
  { simpl in Hin. decompose [or] Hin; subst; try reflexivity; contradiction. }
  apply array_includes_In in Hin. unfold bind. simpl negb. cbv iota.
  now rewrite Hin.
Qed.

Lemma validateStreamConfig_invalid tc st :
  truthy_flag (streamEnabled tc) = true ->
  ~ validStreamViewType tc ->
  exists msg,
    validateStreamConfig tc ApplicationDynamoDBTableStreamViewType st
    = (Threw (Error msg), st) /\
    (msg = "you must specify a stream view type if streams are enabled" \/
     msg = "you must specify a valid stream view type").
Proof.
  intros Hen Hinv. unfold validateStreamConfig, bind. rewrite Hen.
  destruct (truthy_string (streamViewType tc)) eqn:Ht; simpl negb; cbv iota.
  - destruct (streamViewType tc) as [v|] eqn:Hv; [|discriminate].
    destruct (array_includes ApplicationDynamoDBTableStreamViewType (Some v)) eqn:Hi.
    + exfalso. apply Hinv. exists v. split; [exact Hv|].
      now apply array_includes_In.
    + eexists; split; [reflexivity | now right].
  - eexists; split; [reflexivity | now left].
Qed.

(** *** Autoscaling *)

Lemma request_appends id r st :
  appends (request id r) st (Returned id) [(id, r)].
Proof. reflexivity. Qed.

Lemma createAutoScalingRole_appends ct p arn tg st :
  exists ns,
    appends (createAutoScalingRole attribute request ct p arn tg) st
      (Returned (attribute (capacityType_value ct ++ "_role") "arn")) ns /\
    tables ns = [] /\ targets ns = [] /\ policies ns = [].
Proof.
  eexists. split.
  - unfold createAutoScalingRole.
    repeat (eapply appends_bind; [apply request_appends|]).
    apply appends_ret.
  - repeat split.
Qed.

Lemma createAutoScalingPolicy_table_appends roleArn ct mn mx tr db st :
  exists ns,
    appends (createAutoScalingPolicy attribute request roleArn table ct mn mx tr db None)
      st (Returned tt) ns /\
    tables ns = [] /\
    map target_view (targets ns)
    = [("dynamodb:table:" ++ capacityType_value ct ++ "Units",
        "table/" ++ attribute db "name", mn, mx)] /\
    map policy_view (policies ns)
    = [("DynamoDB" ++ capacityType_value ct ++ "Utilization", tr)].
Proof.
  eexists. split.
  - unfold createAutoScalingPolicy.
    eapply appends_bind; [apply appends_ret|].
    repeat (eapply appends_bind; [apply request_appends|]).
    apply appends_ret.
  - repeat split.
Qed.

Lemma createAutoScalingPolicy_index_appends roleArn ct mn mx tr db n st :
  n <> "" ->
  exists ns,
    appends (createAutoScalingPolicy attribute request roleArn index ct mn mx tr db (Some n))
      st (Returned tt) ns /\
    tables ns = [] /\
    map target_view (targets ns)
    = [("dynamodb:index:" ++ capacityType_value ct ++ "Units",
        "table/" ++ attribute db "name" ++ "/index/" ++ n, mn, mx)] /\
    map policy_view (policies ns)
    = [("DynamoDB" ++ capacityType_value ct ++ "Utilization", tr)].
Proof.
  intros Hn. apply truthy_string_Some in Hn.
  eexists. split.
  - unfold createAutoScalingPolicy. rewrite Hn.
    eapply appends_bind; [apply appends_ret|].
    repeat (eapply appends_bind; [apply request_appends|]).
    apply appends_ret.
  - repeat split.
Qed.

Lemma createAutoScalingPolicy_index_unnamed roleArn ct mn mx tr db st :
  appends (createAutoScalingPolicy attribute request roleArn index ct mn mx tr db (Some ""))
    st
    (Threw (Error
       "you must specify an indexName when creating an index auto scaling policy"))
    [].
Proof.
  unfold createAutoScalingPolicy. simpl truthy_string. cbv iota.
  apply appends_bind_threw, appends_throw.
Qed.

(** The loop over the indexes, when every index has a name. *)
Lemma forEach_index_appends roleArn ct spec db l : forall st,
  forallb named l = true ->
  exists ns,
    appends
      (forEach
         (fun gsIndex =>
            createAutoScalingPolicy attribute request roleArn index ct
              (index_capacity ct gsIndex) (max spec) (tracking spec) db
              (Some (index_name gsIndex))) l)
      st (Returned tt) ns /\
    tables ns = [] /\
    map target_view (targets ns)
    = map (fun gsIndex =>
             ("dynamodb:index:" ++ capacityType_value ct ++ "Units",
              "table/" ++ attribute db "name" ++ "/index/" ++ index_name gsIndex,
              index_capacity ct gsIndex, max spec)) l /\
    map policy_view (policies ns)
    = repeat ("DynamoDB" ++ capacityType_value ct ++ "Utilization",
              tracking spec) (List.length l).
Proof.
  induction l as [|g l IH]; intros st Hl.
  - exists []. split; [apply appends_ret | repeat split].
  - simpl in Hl. apply andb_true_iff in Hl as [Hg Hl].
    apply truthy_string_Some in Hg.
    destruct (createAutoScalingPolicy_index_appends roleArn ct
                (index_capacity ct g) (max spec) (tracking spec) db
                (index_name g) st Hg) as (ns1 & H1 & T1 & V1 & P1).
    destruct (IH (st ++ ns1)%list Hl) as (ns2 & H2 & T2 & V2 & P2).
    exists (ns1 ++ ns2)%list. split; [|repeat split].
    + simpl forEach. eapply appends_bind; eassumption.
    + now rewrite tables_app, T1, T2.
    + rewrite targets_app, map_app, V1, V2. reflexivity.
    + rewrite policies_app, map_app, P1, P2. reflexivity.
Qed.

(** The loop over the indexes, whatever they are: it completes normally
    exactly when every index has a name. *)
Lemma forEach_index_any roleArn ct spec db l : forall st,
  exists ns,
    appends
      (forEach
         (fun gsIndex =>
            createAutoScalingPolicy attribute request roleArn index ct
              (index_capacity ct gsIndex) (max spec) (tracking spec) db
              (Some (index_name gsIndex))) l)
      st
      (if forallb named l then Returned tt
       else Threw (Error
         "you must specify an indexName when creating an index auto scaling policy"))
      ns /\
    tables ns = [].
Proof.
  induction l as [|g l IH]; intros st.
  - exists []. split; [apply appends_ret | reflexivity].
  - simpl forallb. destruct (named g) eqn:Hg.
    + unfold named in Hg. apply truthy_string_Some in Hg.
      destruct (createAutoScalingPolicy_index_appends roleArn ct
                  (index_capacity ct g) (max spec) (tracking spec) db
                  (index_name g) st Hg) as (ns1 & H1 & T1 & _).
      destruct (IH (st ++ ns1)%list) as (ns2 & H2 & T2).
      exists (ns1 ++ ns2)%list. split.
      * simpl forEach. eapply appends_bind; eassumption.
      * now rewrite tables_app, T1, T2.
    + exists []. split; [|reflexivity].
      simpl forEach. apply appends_bind_threw.
      unfold named in Hg.
      destruct (index_name g) eqn:Hn; [|discriminate].
      apply createAutoScalingPolicy_index_unnamed.
Qed.

(** One capacity dimension on a table whose indexes all have a name. *)
Lemma setupAutoscaling_indexes p spec db ct l tg st :
  forallb named l = true ->
  exists ns,
    appends (setupAutoscaling attribute request p spec db ct (Some (Value l)) tg)
      st (Returned tt) ns /\
    tables ns = [] /\
    map target_view (targets ns)
    = dimension_targets (attribute db "name") ct spec l /\
    map policy_view (policies ns) = dimension_policies ct spec l.
Proof.
  intros Hl.
  destruct (createAutoScalingRole_appends ct p (attribute db "arn") tg st)
    as (ns1 & H1 & T1 & G1 & P1).
  set (roleArn := attribute (capacityType_value ct ++ "_role") "arn") in *.
  destruct (createAutoScalingPolicy_table_appends roleArn ct
              (Some (min spec)) (max spec) (tracking spec) db (st ++ ns1)%list)
    as (ns2 & H2 & T2 & G2 & P2).
  destruct (forEach_index_appends roleArn ct spec db l
              ((st ++ ns1) ++ ns2)%list Hl)
    as (ns3 & H3 & T3 & G3 & P3).
  exists (ns1 ++ ns2 ++ ns3)%list. split; [|repeat split].
  - unfold setupAutoscaling.
    eapply appends_bind; [exact H1|].
    eapply appends_bind; [exact H2|].
    destruct l as [|g l]; [|exact H3].
    simpl. unfold appends in H3 |- *. simpl in H3. exact H3.
  - now rewrite !tables_app, T1, T2, T3.
  - rewrite !targets_app, !map_app, G1, G2, G3. reflexivity.
  - rewrite !policies_app, !map_app, P1, P2, P3. reflexivity.
Qed.

(** One capacity dimension, whatever the indexes: the plan completes as
    [setup_completion], asks for no further table, and always asks for the
    table's own target and policy. *)
Lemma setupAutoscaling_any p spec db ct gsis tg st :
  exists ns,
    appends (setupAutoscaling attribute request p spec db ct gsis tg) st
      (setup_completion gsis) ns /\
    tables ns = [] /\ targets ns <> [] /\ policies ns <> [].
Proof.
  destruct (createAutoScalingRole_appends ct p (attribute db "arn") tg st)
    as (ns1 & H1 & T1 & G1 & P1).
  set (roleArn := attribute (capacityType_value ct ++ "_role") "arn") in *.
  destruct (createAutoScalingPolicy_table_appends roleArn ct
              (Some (min spec)) (max spec) (tracking spec) db (st ++ ns1)%list)
    as (ns2 & H2 & T2 & G2 & P2).
  assert (exists ns3,
            appends
              (match gsis with
               | None => throw (TypeError
                   "Cannot read properties of undefined (reading 'length')")
               | Some Token => ret tt
               | Some (Value l) =>
                   if (0 <? List.length l)%nat then
                     forEach
                       (fun gsIndex =>
                          createAutoScalingPolicy attribute request roleArn index ct
                            (index_capacity ct gsIndex) (max spec)
                            (tracking spec) db (Some (index_name gsIndex))) l
                   else ret tt
               end) ((st ++ ns1) ++ ns2)%list (setup_completion gsis) ns3 /\
            tables ns3 = [])
    as (ns3 & H3 & T3).
  { destruct gsis as [[l|]|]; simpl setup_completion.
    - destruct l as [|g l].
      + exists []. split; [apply appends_ret | reflexivity].
      + apply forEach_index_any.
    - exists []. split; [apply appends_ret | reflexivity].
    - exists []. split; [apply appends_throw | reflexivity]. }
  exists (ns1 ++ ns2 ++ ns3)%list. split; [|repeat split].
  - unfold setupAutoscaling.
    eapply appends_bind; [exact H1|].
    eapply appends_bind; [exact H2|].
    exact H3.
  - now rewrite !tables_app, T1, T2, T3.
  - rewrite !targets_app, G1. simpl. intros E.
    apply (f_equal (map target_view)) in E.
    rewrite map_app, G2 in E. discriminate.
  - rewrite !policies_app, P1. simpl. intros E.
    apply (f_equal (map policy_view)) in E.
    rewrite map_app, P2 in E. discriminate.
Qed.

(** *** The plan of the constructor *)

Lemma validStreamViewType_dec tc :
  validStreamViewType tc \/ ~ validStreamViewType tc.
Proof.
  unfold validStreamViewType.
  destruct (streamViewType tc) as [v|].
  - destruct (array_includes ApplicationDynamoDBTableStreamViewType (Some v)) eqn:E.
    + left. exists v. split; [reflexivity | now apply array_includes_In].
    + right. intros (w & Hw & Hin). injection Hw as <-.
      apply array_includes_In in Hin. congruence.
  - right. intros (w & Hw & _). discriminate.
Qed.

(** The two autoscaling steps that follow the declaration of the table. *)
Lemma autoscaling_steps p tg gsis (R W : option ApplicationDynamoDBTableAutoScaleProps)
    db st :
  exists c ns,
    appends
      (bind (match R with
             | Some rc => setupAutoscaling attribute request p rc db Read gsis tg
             | None => ret tt
             end)
         (fun _ =>
            bind (match W with
                  | Some wc => setupAutoscaling attribute request p wc db Write gsis tg
                  | None => ret tt
                  end)
              (fun _ => ret db)))
      st c ns /\
    tables ns = [] /\
    (R = None -> W = None -> c = Returned db /\ ns = []) /\
    (R <> None \/ W <> None ->
     targets ns <> [] /\ policies ns <> [] /\
     c = match setup_completion gsis with
         | Returned _ => Returned db
         | Threw e => Threw e
         end).
Proof.
  assert (Hne : forall (A : Type) (x : list A) y, x <> [] -> (x ++ y)%list <> []).
  { intros A x y Hx E. apply app_eq_nil in E. now destruct E. }
  destruct R as [rc|]; destruct W as [wc|].
  - destruct (setupAutoscaling_any p rc db Read gsis tg st)
      as (ns1 & H1 & T1 & G1 & P1).
    destruct (setupAutoscaling_any p wc db Write gsis tg (st ++ ns1)%list)
      as (ns2 & H2 & T2 & G2 & P2).
    destruct (setup_completion gsis) as [[]|e].
    + exists (Returned db), (ns1 ++ ns2 ++ [])%list.
      split; [|split; [|split; [|intros _; split; [|split]]]].
      * eapply appends_bind; [exact H1|].
        eapply appends_bind; [exact H2|]. apply appends_ret.
      * now rewrite !tables_app, T1, T2.
      * discriminate.
      * rewrite targets_app. now apply Hne.
      * rewrite policies_app. now apply Hne.
      * reflexivity.
    + exists (Threw e), ns1.
      split; [|split; [|split; [|intros _; split; [|split]]]];
        try assumption; try discriminate; try reflexivity.
      now apply appends_bind_threw.
  - destruct (setupAutoscaling_any p rc db Read gsis tg st)
      as (ns1 & H1 & T1 & G1 & P1).
    destruct (setup_completion gsis) as [[]|e].
    + exists (Returned db), (ns1 ++ [] ++ [])%list.
      split; [|split; [|split; [|intros _; split; [|split]]]].
      * eapply appends_bind; [exact H1|].
        eapply appends_bind; apply appends_ret.
      * now rewrite !tables_app, T1.
      * discriminate.
      * rewrite targets_app. now apply Hne.
      * rewrite policies_app. now apply Hne.
      * reflexivity.
    + exists (Threw e), ns1.
      split; [|split; [|split; [|intros _; split; [|split]]]];
        try assumption; try discriminate; try reflexivity.
      now apply appends_bind_threw.
  - destruct (setupAutoscaling_any p wc db Write gsis tg (st ++ [])%list)
      as (ns2 & H2 & T2 & G2 & P2).
    destruct (setup_completion gsis) as [[]|e].
    + exists (Returned db), ([] ++ ns2 ++ [])%list.
      split; [|split; [|split; [|intros _; split; [|split]]]].
      * eapply appends_bind; [apply appends_ret|].
        eapply appends_bind; [exact H2|]. apply appends_ret.
      * now rewrite !tables_app, T2.
      * discriminate.
      * simpl. rewrite targets_app. now apply Hne.
      * simpl. rewrite policies_app. now apply Hne.
      * reflexivity.
    + exists (Threw e), ([] ++ ns2)%list.
      split; [|split; [|split; [|intros _; split; [|split]]]];
        try assumption; try discriminate; try reflexivity.
      eapply appends_bind; [apply appends_ret|].
      now apply appends_bind_threw.
  - exists (Returned db), ([] ++ [] ++ [])%list.
    split; [|split; [|split; [|intros [H|H]; congruence]]].
    + eapply appends_bind; [apply appends_ret|].
      eapply appends_bind; apply appends_ret.
    + reflexivity.
    + intros _ _. split; reflexivity.
Qed.

(** A configuration the stream validation rejects: the plan is to throw
    before anything is declared. *)
Lemma plan_rejected cfg :
  truthy_flag (streamEnabled (tableConfig cfg)) = true ->
  ~ validStreamViewType (tableConfig cfg) ->
  exists msg,
    plan attribute cfg = (Threw (Error msg), []) /\
    (msg = "you must specify a stream view type if streams are enabled" \/
     msg = "you must specify a valid stream view type").
Proof.
  intros Hen Hinv.
  destruct (validateStreamConfig_invalid (tableConfig cfg) [] Hen Hinv)
    as (msg & Hv & Hmsg).
  exists msg. split; [|exact Hmsg].
  unfold plan, constructor, bind at 1. now rewrite Hv.
Qed.

(** A configuration the stream validation accepts: the plan declares the
    table first, then runs the autoscaling steps. *)
Lemma plan_accepted cfg :
  (truthy_flag (streamEnabled (tableConfig cfg)) = true ->
   validStreamViewType (tableConfig cfg)) ->
  exists t c ns,
    plan attribute cfg = (c, ("dynamodb_table", RDynamodbTable t) :: ns) /\
    dt_billingMode t = billingMode_of cfg /\
    preventDestroy (dt_lifecycle t)
    = (match preventDestroyTable cfg with Some false => false | _ => true end) /\
    tables ns = [] /\
    (readCapacity cfg = None -> writeCapacity cfg = None ->
     c = Returned "dynamodb_table" /\ ns = []) /\
    (readCapacity cfg <> None \/ writeCapacity cfg <> None ->
     targets ns <> [] /\ policies ns <> [] /\
     c = match setup_completion (globalSecondaryIndex (tableConfig cfg)) with
         | Returned _ => Returned "dynamodb_table"
         | Threw e => Threw e
         end).
Proof.
  intros Hok.
  assert (validateStreamConfig (tableConfig cfg)
            ApplicationDynamoDBTableStreamViewType []
          = (Returned tt, [])) as Hv.
  { destruct (truthy_flag (streamEnabled (tableConfig cfg))) eqn:Hen.
    - now apply validateStreamConfig_valid, Hok.
    - now apply validateStreamConfig_disabled. }
  destruct (autoscaling_steps (prefix cfg) (tags cfg)
              (globalSecondaryIndex (tableConfig cfg))
              (readCapacity cfg) (writeCapacity cfg) "dynamodb_table"
              [("dynamodb_table",
                RDynamodbTable
                  {| dt_tableConfig := tableConfig cfg;
                     dt_billingMode :=
                       capacityMode_value
                         (match capacityMode cfg with
                          | Some m => m
                          | None => PROVISIONED
                          end);
                     dt_tags := tags cfg;
                     dt_name := prefix cfg;
                     dt_lifecycle :=
                       {| ignoreChanges := ["read_capacity"; "write_capacity"];
                          preventDestroy :=
                            match preventDestroyTable cfg with
                            | Some false => false
                            | _ => true
                            end |} |})])
    as (c & ns & H & T & F1 & F2).
  eexists _, c, ns.
  split; [|split; [|split; [|split; [exact T | split; [exact F1 | exact F2]]]]].
  - unfold plan, constructor, bind at 1. rewrite Hv.
    unfold bind at 1. unfold request at 1. simpl app.
    exact H.
  - simpl. unfold billingMode_of.
    destruct (capacityMode cfg) as [[]|]; reflexivity.
  - reflexivity.
Qed.

(** With a read and a write capacity spec on a table whose indexes all
    have a name, the plan of a configuration that passes the stream
    validation completes, with one target and policy for the table followed
    by one per index in each dimension, read first. *)
Lemma plan_fan_out cfg rc wc l :
  readCapacity cfg = Some rc ->
  writeCapacity cfg = Some wc ->
  globalSecondaryIndex (tableConfig cfg) = Some (Value l) ->
  forallb named l = true ->
  (truthy_flag (streamEnabled (tableConfig cfg)) = true ->
   validStreamViewType (tableConfig cfg)) ->
  exists ns,
    plan attribute cfg = (Returned "dynamodb_table", ns) /\
    map target_view (targets ns)
    = (dimension_targets (attribute "dynamodb_table" "name") Read rc l ++
       dimension_targets (attribute "dynamodb_table" "name") Write wc l)%list /\
    map policy_view (policies ns)
    = (dimension_policies Read rc l ++ dimension_policies Write wc l)%list /\
    List.length (targets ns) = 2 + 2 * List.length l /\
    List.length (policies ns) = 2 + 2 * List.length l.
Proof.
  intros HR HW HG Hl Hok.
  assert (validateStreamConfig (tableConfig cfg)
            ApplicationDynamoDBTableStreamViewType []
          = (Returned tt, [])) as Hv.
  { destruct (truthy_flag (streamEnabled (tableConfig cfg))) eqn:Hen.
    - now apply validateStreamConfig_valid, Hok.
    - now apply validateStreamConfig_disabled. }
  set (tbl := ("dynamodb_table",
               RDynamodbTable
                 {| dt_tableConfig := tableConfig cfg;
                    dt_billingMode :=
                      capacityMode_value
                        (match capacityMode cfg with
                         | Some m => m
                         | None => PROVISIONED
                         end);
                    dt_tags := tags cfg;
                    dt_name := prefix cfg;
                    dt_lifecycle :=
                      {| ignoreChanges := ["read_capacity"; "write_capacity"];
                         preventDestroy :=
                           match preventDestroyTable cfg with
                           | Some false => false
                           | _ => true
                           end |} |})).
  destruct (setupAutoscaling_indexes (prefix cfg) rc "dynamodb_table" Read l
              (tags cfg) [tbl] Hl) as (ns1 & H1 & T1 & G1 & P1).
  destruct (setupAutoscaling_indexes (prefix cfg) wc "dynamodb_table" Write l
              (tags cfg) ([tbl] ++ ns1)%list Hl) as (ns2 & H2 & T2 & G2 & P2).
  assert (map target_view (targets (tbl :: ns1 ++ ns2 ++ []))
          = (dimension_targets (attribute "dynamodb_table" "name") Read rc l ++
             dimension_targets (attribute "dynamodb_table" "name") Write wc l)%list)
    as HT.
  { change (tbl :: ns1 ++ ns2 ++ [])%list with ([tbl] ++ ns1 ++ ns2 ++ [])%list.
    rewrite !targets_app, !map_app, G1, G2. simpl. now rewrite app_nil_r. }
  assert (map policy_view (policies (tbl :: ns1 ++ ns2 ++ []))
          = (dimension_policies Read rc l ++ dimension_policies Write wc l)%list)
    as HP.
  { change (tbl :: ns1 ++ ns2 ++ [])%list with ([tbl] ++ ns1 ++ ns2 ++ [])%list.
    rewrite !policies_app, !map_app, P1, P2. simpl. now rewrite app_nil_r. }
  exists (tbl :: ns1 ++ ns2 ++ [])%list.
  split; [|split; [exact HT | split; [exact HP | split]]].
  - unfold plan, constructor, bind at 1. rewrite Hv.
    unfold bind at 1. unfold request at 1. simpl app. fold tbl.
    rewrite HR, HW, HG.
    change (tbl :: ns1 ++ ns2 ++ [])%list with ([tbl] ++ ns1 ++ ns2 ++ [])%list.
    eapply appends_bind; [exact H1|].
    eapply appends_bind; [exact H2|]. apply appends_ret.
  - rewrite <- (length_map target_view), HT, length_app.
    unfold dimension_targets. simpl. rewrite !length_map. lia.
  - rewrite <- (length_map policy_view), HP, length_app.
    unfold dimension_policies. rewrite !repeat_length. lia.
Qed.

End Engine.

End PlanFacts.
(** ** Computations that only append declarations *)

Module FrameFacts.
Import Js Build Frame.

Lemma framed_ret {N A} (a : A) : framed (@ret (list N) A a).
Proof. intros st. unfold ret, outcome, emitted. simpl. now rewrite app_nil_r. Qed.

Lemma framed_throw {N A} (e : Thrown) : framed (@throw (list N) A e).
Proof. intros st. unfold throw, outcome, emitted. simpl. now rewrite app_nil_r. Qed.

(** A bind whose first step returns declares what both steps declare and
    completes as the second. *)
Lemma bind_returned {N A B} (m : M (list N) A) (k : A -> M (list N) B) a :
  framed m -> framed (k a) -> outcome m = Returned a ->
  outcome (bind m k) = outcome (k a) /\
  emitted (bind m k) = (emitted m ++ emitted (k a))%list.
Proof.
  intros Hm Hk Ho. unfold outcome at 1, emitted at 1, bind.
  rewrite (Hm []), Ho. simpl app. rewrite (Hk (emitted m)). auto.
Qed.

(** A bind whose first step throws stops there. *)
Lemma bind_threw {N A B} (m : M (list N) A) (k : A -> M (list N) B) e :
  framed m -> outcome m = Threw e ->
  outcome (bind m k) = Threw e /\ emitted (bind m k) = emitted m.
Proof.
  intros Hm Ho. unfold outcome at 1, emitted at 1, bind.
  rewrite (Hm []), Ho. auto.
Qed.

Lemma framed_bind {N A B} (m : M (list N) A) (k : A -> M (list N) B) :
  framed m -> (forall a, framed (k a)) -> framed (bind m k).
Proof.
  intros Hm Hk st. destruct (outcome m) as [a|e] eqn:Ho.
  - destruct (bind_returned m k a Hm (Hk a) Ho) as (-> & ->).
    unfold bind. rewrite (Hm st), Ho, (Hk a). now rewrite app_assoc.
  - destruct (bind_threw m k e Hm Ho) as (-> & ->).
    unfold bind. now rewrite (Hm st), Ho.
Qed.

Lemma framed_forEach {N A} (f : A -> M (list N) unit) l :
  (forall x, framed (f x)) -> framed (forEach f l).
Proof.
  intros Hf. induction l as [|x l IH]; simpl.
  - apply framed_ret.
  - apply framed_bind; [apply Hf | intros _; exact IH].
Qed.

(** A property of declaration lists that holds of concatenations holds of
    what a bind declares when it holds of what its steps declare. *)
Lemma emitted_bind_ind {N A B} (P : list N -> Prop)
    (m : M (list N) A) (k : A -> M (list N) B) :
  (forall a b, P a -> P b -> P (a ++ b)%list) ->
  framed m -> (forall a, framed (k a)) ->
  P (emitted m) -> (forall a, outcome m = Returned a -> P (emitted (k a))) ->
  P (emitted (bind m k)).
Proof.
  intros Happ Hm Hk Pm Pk. destruct (outcome m) as [a|e] eqn:Ho.
  - destruct (bind_returned m k a Hm (Hk a) Ho) as (_ & ->). auto.
  - destruct (bind_threw m k e Hm Ho) as (_ & ->). exact Pm.
Qed.

(** Two steps in a row, then a result. *)
Lemma two_steps {N A} (sr sw : M (list N) unit) (db : A) :
  framed sr -> framed sw ->
  outcome (bind sr (fun _ => bind sw (fun _ => ret db)))
  = match outcome sr with
    | Returned _ =>
        match outcome sw with
        | Returned _ => Returned db
        | Threw e => Threw e
        end
    | Threw e => Threw e
    end /\
  emitted (bind sr (fun _ => bind sw (fun _ => ret db)))
  = (emitted sr ++ (if returned (outcome sr) then emitted sw else []))%list.
Proof.
  intros Hr Hw.
  assert (Hk : framed (bind sw (fun _ => @ret (list N) A db)))
    by (apply framed_bind; [exact Hw | intros _; apply framed_ret]).
  destruct (outcome sr) as [[]|e] eqn:Hor.
  - destruct (bind_returned sr (fun _ => bind sw (fun _ => ret db)) tt Hr Hk Hor)
      as (E1 & E2).
    rewrite E1, E2. simpl returned. cbv iota.
    destruct (outcome sw) as [[]|e] eqn:How.
    + destruct (bind_returned sw (fun _ => @ret (list N) A db) tt Hw
                  (framed_ret db) How) as (E3 & E4).
      rewrite E3, E4. split; [reflexivity|].
      unfold emitted at 3. simpl. now rewrite app_nil_r.
    + destruct (bind_threw sw (fun _ => @ret (list N) A db) e Hw How)
        as (E3 & E4).
      rewrite E3, E4. auto.
  - destruct (bind_threw sr (fun _ => bind sw (fun _ => ret db)) e Hr Hor)
      as (E1 & E2).
    rewrite E1, E2. simpl. now rewrite app_nil_r.
Qed.

End FrameFacts.

(** ** Keyed-table builder: the shape of a plan *)

Module PlanShape.
Import Js Build BuildFacts Frame FrameFacts KeyedTable KeyedTableObs PlanFacts.

Lemma framed_request id r : framed (request id r).
Proof. intros st. reflexivity. Qed.

Ltac framed_steps :=
  repeat first
    [ apply framed_ret
    | apply framed_throw
    | apply framed_request
    | apply framed_bind; [|intros ?] ].

Lemma framed_validateStreamConfig tc vs : framed (validateStreamConfig tc vs).
Proof.
  unfold validateStreamConfig.
  destruct (truthy_flag (streamEnabled tc)); [|apply framed_ret].
  apply framed_bind; [|intros _].
  - destruct (negb (truthy_string (streamViewType tc))); framed_steps.
  - destruct (negb (array_includes vs (streamViewType tc))); framed_steps.
Qed.

Lemma emitted_validateStreamConfig tc vs :
  emitted (validateStreamConfig tc vs) = [].
Proof.
  unfold validateStreamConfig, emitted, bind, ret, throw.
  destruct (truthy_flag (streamEnabled tc)); [|reflexivity].
  destruct (negb (truthy_string (streamViewType tc))); [reflexivity|].
  destruct (negb (array_includes vs (streamViewType tc))); reflexivity.
Qed.

Lemma iam_roles_app a b : iam_roles (a ++ b)%list = (iam_roles a ++ iam_roles b)%list.
Proof. apply flat_map_app. Qed.

Lemma iam_policies_app a b :
  iam_policies (a ++ b)%list = (iam_policies a ++ iam_policies b)%list.
Proof. apply flat_map_app. Qed.

Lemma attachments_app a b :
  attachments (a ++ b)%list = (attachments a ++ attachments b)%list.
Proof. apply flat_map_app. Qed.

Lemma target_ids_app a b :
  target_ids (a ++ b)%list = (target_ids a ++ target_ids b)%list.
Proof. apply flat_map_app. Qed.

Lemma ids_app a b : ids (a ++ b)%list = (ids a ++ ids b)%list.
Proof. apply map_app. Qed.

Section Engine.
Variable attribute : string -> string -> string.

Lemma framed_createAutoScalingRole ct p arn tg :
  framed (createAutoScalingRole attribute request ct p arn tg).
Proof. unfold createAutoScalingRole. framed_steps. Qed.

Lemma framed_createAutoScalingPolicy roleArn pt ct mn mx tr db n :
  framed (createAutoScalingPolicy attribute request roleArn pt ct mn mx tr db n).
Proof.
  unfold createAutoScalingPolicy. apply framed_bind; [|intros ?; framed_steps].
  destruct pt; [apply framed_ret|].
  destruct (truthy_string n); framed_steps.
Qed.

Lemma framed_setupAutoscaling p spec db ct gsis tg :
  framed (setupAutoscaling attribute request p spec db ct gsis tg).
Proof.
  unfold setupAutoscaling.
  apply framed_bind; [apply framed_createAutoScalingRole | intros roleArn].
  apply framed_bind; [apply framed_createAutoScalingPolicy | intros _].
  destruct gsis as [[l|]|]; framed_steps.
  destruct (0 <? List.length l)%nat; [|apply framed_ret].
  apply framed_forEach. intros g. apply framed_createAutoScalingPolicy.
Qed.

(** *** What the autoscaling steps ask to declare *)

(** The index step: for an index without a name it throws and declares
    nothing, otherwise it returns. *)
Lemma index_step_outcome roleArn ct mn mx tr db n :
  outcome (createAutoScalingPolicy attribute request roleArn index ct mn mx tr db (Some n))
  = (if truthy_string (Some n) then Returned tt
     else Threw (Error
       "you must specify an indexName when creating an index auto scaling policy")) /\
  (truthy_string (Some n) = false ->
   emitted (createAutoScalingPolicy attribute request roleArn index ct mn mx tr db (Some n))
   = []).
Proof. destruct n; split; try reflexivity; discriminate. Qed.

(** The loop declares the steps of the indexes before the first one without
    a name, and throws at that one. *)
Lemma forEach_index_emitted roleArn ct spec db l :
  outcome
    (forEach
       (fun gsIndex =>
          createAutoScalingPolicy attribute request roleArn index ct
            (index_capacity ct gsIndex) (max spec) (tracking spec) db
            (Some (index_name gsIndex))) l)
  = (if forallb named l then Returned tt
     else Threw (Error
       "you must specify an indexName when creating an index auto scaling policy")) /\
  emitted
    (forEach
       (fun gsIndex =>
          createAutoScalingPolicy attribute request roleArn index ct
            (index_capacity ct gsIndex) (max spec) (tracking spec) db
            (Some (index_name gsIndex))) l)
  = flat_map
      (fun gsIndex =>
         emitted
           (createAutoScalingPolicy attribute request roleArn index ct
              (index_capacity ct gsIndex) (max spec) (tracking spec) db
              (Some (index_name gsIndex))))
      (named_prefix l).
Proof.
  set (f := fun gsIndex =>
              createAutoScalingPolicy attribute request roleArn index ct
                (index_capacity ct gsIndex) (max spec) (tracking spec) db
                (Some (index_name gsIndex))).
  assert (Hf : forall x, framed (f x))
    by (intros x; apply framed_createAutoScalingPolicy).
  induction l as [|g l (IHo & IHe)]; [split; reflexivity|].
  destruct (index_step_outcome roleArn ct (index_capacity ct g) (max spec)
              (tracking spec) db (index_name g)) as (Ho & He).
  fold (f g) in Ho, He.
  change (forEach f (g :: l)) with (bind (f g) (fun _ => forEach f l)).
  simpl forallb. simpl named_prefix. unfold named in *.
  destruct (truthy_string (Some (index_name g))) eqn:Hg.
  - destruct (bind_returned (f g) (fun _ => forEach f l) tt (Hf g)
                (framed_forEach f l Hf) Ho) as (E1 & E2).
    split.
    + etransitivity; [exact E1|]. now rewrite IHo.
    + etransitivity; [exact E2|]. simpl flat_map. now rewrite IHe.
  - destruct (bind_threw (f g) (fun _ => forEach f l) _ (Hf g) Ho) as (E1 & E2).
    split.
    + exact E1.
    + etransitivity; [exact E2|]. exact (He eq_refl).
Qed.

(** One capacity dimension: the role, the table's target and policy, and
    the steps of the indexes before the first one without a name. *)
Lemma setupAutoscaling_emitted p spec db ct gsis tg :
  outcome (setupAutoscaling attribute request p spec db ct gsis tg)
  = setup_completion gsis /\
  emitted (setupAutoscaling attribute request p spec db ct gsis tg)
  = (emitted (createAutoScalingRole attribute request ct p (attribute db "arn") tg) ++
     emitted (createAutoScalingPolicy attribute request
                (attribute (capacityType_value ct ++ "_role") "arn") table ct
                (Some (min spec)) (max spec) (tracking spec) db None) ++
     flat_map
       (fun gsIndex =>
          emitted
            (createAutoScalingPolicy attribute request
               (attribute (capacityType_value ct ++ "_role") "arn") index ct
               (index_capacity ct gsIndex) (max spec) (tracking spec) db
               (Some (index_name gsIndex))))
       (named_prefix (indexes_of gsis)))%list.
Proof.
  set (roleArn := attribute (capacityType_value ct ++ "_role") "arn").
  set (loop := match gsis with
               | None => throw (TypeError
                   "Cannot read properties of undefined (reading 'length')")
               | Some Token => ret tt
               | Some (Value l) =>
                   if (0 <? List.length l)%nat then
                     forEach
                       (fun gsIndex =>
                          createAutoScalingPolicy attribute request roleArn index ct
                            (index_capacity ct gsIndex) (max spec)
                            (tracking spec) db (Some (index_name gsIndex))) l
                   else ret tt
               end : M Scope unit).
  set (tpol := createAutoScalingPolicy attribute request roleArn table ct
                 (Some (min spec)) (max spec) (tracking spec) db None).
  set (role := createAutoScalingRole attribute request ct p (attribute db "arn") tg).
  assert (Hloop : framed loop).
  { unfold loop. destruct gsis as [[l|]|]; framed_steps.
    destruct (0 <? List.length l)%nat; [|apply framed_ret].
    apply framed_forEach. intros g. apply framed_createAutoScalingPolicy. }
  assert (Htpol : framed tpol) by apply framed_createAutoScalingPolicy.
  assert (Hrole : framed role) by apply framed_createAutoScalingRole.
  assert (Hl : outcome loop = setup_completion gsis /\
               emitted loop
               = flat_map
                   (fun gsIndex =>
                      emitted
                        (createAutoScalingPolicy attribute request roleArn index ct
                           (index_capacity ct gsIndex) (max spec) (tracking spec) db
                           (Some (index_name gsIndex))))
                   (named_prefix (indexes_of gsis))).
  { unfold loop. destruct gsis as [[l|]|]; simpl indexes_of; simpl setup_completion.
    - destruct l as [|g l]; [split; reflexivity|].
      change (0 <? List.length (g :: l))%nat with true. cbv iota.
      apply forEach_index_emitted.
    - split; reflexivity.
    - split; reflexivity. }
  destruct Hl as (Hlo & Hle).
  change (setupAutoscaling attribute request p spec db ct gsis tg)
    with (bind role (fun roleArn' =>
            bind (createAutoScalingPolicy attribute request roleArn' table ct
                    (Some (min spec)) (max spec) (tracking spec) db None)
              (fun _ =>
                 match gsis with
                 | None => throw (TypeError
                     "Cannot read properties of undefined (reading 'length')")
                 | Some Token => ret tt
                 | Some (Value l) =>
                     if (0 <? List.length l)%nat then
                       forEach
                         (fun gsIndex =>
                            createAutoScalingPolicy attribute request roleArn' index ct
                              (index_capacity ct gsIndex) (max spec)
                              (tracking spec) db (Some (index_name gsIndex))) l
                     else ret tt
                 end))).
  destruct (bind_returned role
              (fun roleArn' =>
                 bind (createAutoScalingPolicy attribute request roleArn' table ct
                         (Some (min spec)) (max spec) (tracking spec) db None)
                   (fun _ =>
                      match gsis with
                      | None => throw (TypeError
                          "Cannot read properties of undefined (reading 'length')")
                      | Some Token => ret tt
                      | Some (Value l) =>
                          if (0 <? List.length l)%nat then
                            forEach
                              (fun gsIndex =>
                                 createAutoScalingPolicy attribute request roleArn' index ct
                                   (index_capacity ct gsIndex) (max spec)
                                   (tracking spec) db (Some (index_name gsIndex))) l
                          else ret tt
                      end))
              roleArn Hrole) as (E1 & E2).
  { fold tpol loop. apply framed_bind; [exact Htpol | intros _; exact Hloop]. }
  { reflexivity. }
  destruct (bind_returned tpol (fun _ => loop) tt Htpol Hloop eq_refl) as (E3 & E4).
  split.
  - etransitivity; [exact E1|]. etransitivity; [exact E3|]. exact Hlo.
  - etransitivity; [exact E2|]. f_equal.
    etransitivity; [exact E4|]. f_equal. exact Hle.
Qed.

(** *** What a plan declares *)

(** The autoscaling step of a dimension, as the constructor runs it. *)
Lemma dimension_step cfg ct :
  let step :=
    match spec_of cfg ct with
    | Some s =>
        setupAutoscaling attribute request (prefix cfg) s "dynamodb_table" ct
          (globalSecondaryIndex (tableConfig cfg)) (tags cfg)
    | None => ret tt
    end in
  framed step /\
  emitted step = dimension_emitted attribute cfg ct /\
  returned (outcome step) = dimension_completes cfg ct /\
  (returned (outcome step) = false ->
   outcome step = setup_completion (globalSecondaryIndex (tableConfig cfg))).
Proof.
  unfold dimension_emitted, dimension_completes.
  destruct (spec_of cfg ct) as [s|]; simpl.
  - destruct (setupAutoscaling_emitted (prefix cfg) s "dynamodb_table" ct
                (globalSecondaryIndex (tableConfig cfg)) (tags cfg)) as (Ho & _).
    split; [apply framed_setupAutoscaling | split; [reflexivity|]].
    rewrite Ho. auto.
  - split; [apply framed_ret | split; [reflexivity | split; [reflexivity|discriminate]]].
Qed.

(** The plan of an accepted configuration: the table first, then what the
    read step declares, then, if that completes, what the write step
    declares.  The plan completes when both steps do, and otherwise as the
    step that fails. *)
Lemma plan_emitted cfg :
  streamAccepted (tableConfig cfg) ->
  exists t,
    dt_tableConfig t = tableConfig cfg /\ dt_name t = prefix cfg /\
    dt_tags t = tags cfg /\
    snd (plan attribute cfg)
    = (("dynamodb_table", RDynamodbTable t)
       :: dimension_emitted attribute cfg Read ++
          (if dimension_completes cfg Read
           then dimension_emitted attribute cfg Write else []))%list /\
    returned (fst (plan attribute cfg))
    = dimension_completes cfg Read && dimension_completes cfg Write /\
    (returned (fst (plan attribute cfg)) = true ->
     fst (plan attribute cfg) = Returned "dynamodb_table") /\
    (returned (fst (plan attribute cfg)) = false ->
     fst (plan attribute cfg)
     = match setup_completion (globalSecondaryIndex (tableConfig cfg)) with
       | Returned _ => Returned "dynamodb_table"
       | Threw e => Threw e
       end).
Proof.
  intros Hok.
  assert (validateStreamConfig (tableConfig cfg)
            ApplicationDynamoDBTableStreamViewType []
          = (Returned tt, [])) as Hv.
  { destruct (truthy_flag (streamEnabled (tableConfig cfg))) eqn:Hen.
    - apply validateStreamConfig_valid, Hok, Hen.
    - now apply validateStreamConfig_disabled. }
  destruct (dimension_step cfg Read) as (FR & ER & CR & TR).
  destruct (dimension_step cfg Write) as (FW & EW & CW & TW).
  cbv zeta in *. unfold spec_of in FR, ER, CR, TR, FW, EW, CW, TW.
  destruct (two_steps _ _ "dynamodb_table" FR FW) as (O & E).
  match type of O with
  | outcome ?m = _ =>
      assert (Hm : framed m)
        by (apply framed_bind;
            [exact FR | intros _; apply framed_bind;
                        [exact FW | intros _; apply framed_ret]]);
      assert (Hc : exists t,
                 dt_tableConfig t = tableConfig cfg /\ dt_name t = prefix cfg /\
                 dt_tags t = tags cfg /\
                 plan attribute cfg
                 = (outcome m, (("dynamodb_table", RDynamodbTable t) :: emitted m)%list))
  end.
  { eexists. split; [|split; [|split]].
    4:{ unfold plan, constructor, bind at 1. rewrite Hv.
        unfold bind at 1. unfold request at 1. simpl app.
        etransitivity; [apply Hm|]. reflexivity. }
    all: reflexivity. }
  destruct Hc as (t & H1 & H2 & H3 & Hc).
  exists t. rewrite Hc. simpl fst. simpl snd. rewrite O, E, ER, EW, CR.
  split; [exact H1 | split; [exact H2 | split; [exact H3 | split; [reflexivity|]]]].
  rewrite <- CR, <- CW. clear O E Hc Hm ER EW CR CW.
  match type of FR with framed ?m => set (o_r := outcome m) in * end.
  match type of FW with framed ?m => set (o_w := outcome m) in * end.
  clearbody o_r o_w.
  destruct o_r as [[]|e1]; destruct o_w as [[]|e2]; simpl;
    (split; [reflexivity | split; [intros H; try reflexivity; discriminate H|]]);
    intros H; try discriminate H.
  - symmetry. rewrite <- (TW eq_refl). reflexivity.
  - rewrite <- (TR eq_refl). reflexivity.
  - rewrite <- (TR eq_refl). reflexivity.
Qed.

(** *** The pieces, observed *)

(** The step of an index that has a name declares a target and then its
    policy. *)
Lemma index_step_emitted roleArn ct mn mx tr db n :
  n <> "" ->
  emitted (createAutoScalingPolicy attribute request roleArn index ct mn mx tr db (Some n))
  = [ ((n ++ "_" ++ capacityType_value ct ++ "_index") ++ "_target",
       RAppautoscalingTarget
         {| maxCapacity := mx;
            minCapacity := mn;
            tg_resourceId := "table/" ++ attribute db "name" ++ "/index/" ++ n;
            tg_scalableDimension :=
              "dynamodb:index:" ++ capacityType_value ct ++ "Units";
            tg_roleArn := roleArn;
            tg_serviceNamespace := "dynamodb";
            tg_dependsOn := [db] |});
      ((n ++ "_" ++ capacityType_value ct ++ "_index") ++ "_policy",
       RAppautoscalingPolicy
         {| ap_name :=
              "DynamoDB" ++ capacityType_value ct ++ "Utilization:" ++
              attribute ((n ++ "_" ++ capacityType_value ct ++ "_index") ++ "_target")
                "resourceId";
            policyType := "TargetTrackingScaling";
            ap_resourceId :=
              attribute ((n ++ "_" ++ capacityType_value ct ++ "_index") ++ "_target")
                "resourceId";
            ap_scalableDimension :=
              attribute ((n ++ "_" ++ capacityType_value ct ++ "_index") ++ "_target")
                "scalableDimension";
            ap_serviceNamespace :=
              attribute ((n ++ "_" ++ capacityType_value ct ++ "_index") ++ "_target")
                "serviceNamespace";
            predefinedMetricType :=
              "DynamoDB" ++ capacityType_value ct ++ "Utilization";
            targetValue := tr;
            ap_dependsOn :=
              [(n ++ "_" ++ capacityType_value ct ++ "_index") ++ "_target"; db] |}) ].
Proof. intros Hn. destruct n; [congruence | reflexivity]. Qed.

Lemma named_prefix_named l : forallb named (named_prefix l) = true.
Proof.
  induction l as [|g l IH]; [reflexivity|]. simpl.
  destruct (named g) eqn:Hg; [simpl; now rewrite Hg | reflexivity].
Qed.

Lemma named_prefix_all l : forallb named l = true -> named_prefix l = l.
Proof.
  induction l as [|g l IH]; [reflexivity|]. simpl.
  intros H. apply andb_true_iff in H as (-> & H). now rewrite IH.
Qed.

(** A property of declaration lists that holds of nothing and of
    concatenations holds of what the index loop declares when it holds of
    what the step of every named index declares. *)
Lemma index_steps_ind (P : Scope -> Prop) roleArn ct spec db l :
  P [] -> (forall a b, P a -> P b -> P (a ++ b)%list) ->
  (forall g, index_name g <> "" ->
             P (emitted (createAutoScalingPolicy attribute request roleArn index ct
                           (index_capacity ct g) (max spec) (tracking spec) db
                           (Some (index_name g))))) ->
  P (flat_map
       (fun gsIndex =>
          emitted
            (createAutoScalingPolicy attribute request roleArn index ct
               (index_capacity ct gsIndex) (max spec) (tracking spec) db
               (Some (index_name gsIndex))))
       (named_prefix l)).
Proof.
  intros Hnil Happ Hstep. induction l as [|g l IH]; [exact Hnil|].
  simpl named_prefix. destruct (named g) eqn:Hg; [|exact Hnil].
  simpl flat_map. apply Happ; [|exact IH].
  apply Hstep. now apply truthy_string_Some.
Qed.

(** The views of what the index loop declares. *)
Lemma index_steps_views roleArn ct spec db l :
  let E :=
    flat_map
      (fun gsIndex =>
         emitted
           (createAutoScalingPolicy attribute request roleArn index ct
              (index_capacity ct gsIndex) (max spec) (tracking spec) db
              (Some (index_name gsIndex))))
      (named_prefix l) in
  map target_view (targets E)
  = map (fun gsIndex =>
           ("dynamodb:index:" ++ capacityType_value ct ++ "Units",
            "table/" ++ attribute db "name" ++ "/index/" ++ index_name gsIndex,
            index_capacity ct gsIndex, max spec))
      (named_prefix l) /\
  map policy_view (policies E)
  = repeat ("DynamoDB" ++ capacityType_value ct ++ "Utilization", tracking spec)
      (List.length (named_prefix l)) /\
  tables E = [] /\ iam_roles E = [] /\ iam_policies E = [] /\
  attachments E = [] /\
  ids E
  = flat_map (fun gsIndex =>
                [(index_name gsIndex ++ "_" ++ capacityType_value ct ++ "_index") ++ "_target";
                 (index_name gsIndex ++ "_" ++ capacityType_value ct ++ "_index") ++ "_policy"])
      (named_prefix l).
Proof.
  induction l as [|g l IH]; [repeat split|].
  simpl named_prefix. destruct (named g) eqn:Hg; [|repeat split].
  apply truthy_string_Some in Hg.
  cbv zeta in *. simpl flat_map.
  rewrite (index_step_emitted roleArn ct (index_capacity ct g) (max spec)
             (tracking spec) db (index_name g) Hg).
  destruct IH as (I1 & I2 & I3 & I4 & I5 & I6 & I7).
  unfold targets, policies, tables, iam_roles, iam_policies, attachments, ids in *.
  simpl. rewrite I1, I2, I3, I4, I5, I6, I7. repeat split.
Qed.

(** The views of what one dimension declares for a configuration. *)
Lemma dimension_views cfg ct :
  let E := dimension_emitted attribute cfg ct in
  let l := named_prefix (indexes_of (globalSecondaryIndex (tableConfig cfg))) in
  map target_view (targets E)
  = supplied_targets (attribute "dynamodb_table" "name") ct (spec_of cfg ct) l /\
  map policy_view (policies E) = supplied_policies ct (spec_of cfg ct) l /\
  tables E = [] /\
  iam_roles E = supplied_role (prefix cfg) (tags cfg) ct (spec_of cfg ct) /\
  iam_policies E
  = match spec_of cfg ct with
    | Some _ => [prefix cfg ++ "-" ++ capacityType_value ct ++ "-AutoScalingPolicy"]
    | None => []
    end /\
  attachments E
  = match spec_of cfg ct with
    | Some _ =>
        [(attribute (capacityType_value ct ++ "_autoscaling_policy") "arn",
          attribute (capacityType_value ct ++ "_role") "name")]
    | None => []
    end.
Proof.
  cbv zeta. unfold dimension_emitted.
  destruct (spec_of cfg ct) as [s|]; [|repeat split].
  destruct (setupAutoscaling_emitted (prefix cfg) s "dynamodb_table" ct
              (globalSecondaryIndex (tableConfig cfg)) (tags cfg)) as (_ & ->).
  destruct (index_steps_views (attribute (capacityType_value ct ++ "_role") "arn")
              ct s "dynamodb_table"
              (indexes_of (globalSecondaryIndex (tableConfig cfg))))
    as (I1 & I2 & I3 & I4 & I5 & I6 & _).
  cbv zeta in *.
  rewrite !targets_app, !policies_app, !tables_app, !iam_roles_app,
    !iam_policies_app, !attachments_app, !map_app, I1, I2, I3, I4, I5, I6.
  repeat split.
Qed.

(** A property of declaration lists that holds of nothing and of
    concatenations holds of everything a plan declares after the table
    when it holds of what the role step, the table step and the step of
    every named index declare. *)
Lemma plan_ind (P : Scope -> Prop) :
  P [] -> (forall a b, P a -> P b -> P (a ++ b)%list) ->
  (forall ct p arn tg, P (emitted (createAutoScalingRole attribute request ct p arn tg))) ->
  (forall ct mn mx tr,
     P (emitted (createAutoScalingPolicy attribute request
                   (attribute (capacityType_value ct ++ "_role") "arn") table ct
                   mn mx tr "dynamodb_table" None))) ->
  (forall ct mn mx tr n,
     n <> "" ->
     P (emitted (createAutoScalingPolicy attribute request
                   (attribute (capacityType_value ct ++ "_role") "arn") index ct
                   mn mx tr "dynamodb_table" (Some n)))) ->
  forall cfg,
    snd (plan attribute cfg) = [] \/
    exists t E,
      snd (plan attribute cfg) = ("dynamodb_table", RDynamodbTable t) :: E /\
      P E.
Proof.
  intros Hnil Happ Hrole Htable Hindex cfg.
  assert (HD : forall ct, P (dimension_emitted attribute cfg ct)).
  { intros ct. unfold dimension_emitted.
    destruct (spec_of cfg ct) as [s|]; [|exact Hnil].
    destruct (setupAutoscaling_emitted (prefix cfg) s "dynamodb_table" ct
                (globalSecondaryIndex (tableConfig cfg)) (tags cfg)) as (_ & ->).
    apply Happ; [apply Hrole | apply Happ; [apply Htable|]].
    apply index_steps_ind; auto. }
  destruct (truthy_flag (streamEnabled (tableConfig cfg))) eqn:Hen.
  - destruct (validStreamViewType_dec (tableConfig cfg)) as [Hv|Hv].
    + right. destruct (plan_emitted cfg (fun _ => Hv))
        as (t & _ & _ & _ & E & _).
      exists t. eexists. split; [exact E|].
      apply Happ; [apply HD|]. destruct (dimension_completes cfg Read); auto.
    + left. destruct (plan_rejected attribute cfg Hen Hv) as (msg & E & _).
      now rewrite E.
  - right. destruct (plan_emitted cfg) as (t & _ & _ & _ & E & _).
    { intros H. rewrite Hen in H. discriminate H. }
    exists t. eexists. split; [exact E|].
    apply Happ; [apply HD|]. destruct (dimension_completes cfg Read); auto.
Qed.

Lemma backward_app seen a b :
  backward seen a ->
  (forall seen', In "dynamodb_table" seen' -> backward seen' b) ->
  In "dynamodb_table" seen ->
  backward seen (a ++ b)%list.
Proof.
  revert seen. induction a as [|n a IH]; intros seen Ha Hb Hin.
  - apply Hb, Hin.
  - destruct Ha as (Hd & Ha). split; [exact Hd|].
    apply IH; [exact Ha | exact Hb | now right].
Qed.

End Engine.

End PlanShape.
(** ** Keyed-table builder: the local ids of a plan *)

Module IdFacts.
Import Js Build BuildFacts Frame FrameFacts KeyedTable KeyedTableObs
  PlanFacts PlanShape.

Lemma list_ascii_of_string_app a b :
  list_ascii_of_string (a ++ b)
  = (list_ascii_of_string a ++ list_ascii_of_string b)%list.
Proof. induction a as [|c a IH]; simpl; [reflexivity | now rewrite IH]. Qed.

Lemma key_app a b : key (a ++ b) = (key b ++ key a)%list.
Proof. unfold key. now rewrite list_ascii_of_string_app, rev_app_distr. Qed.

Lemma key_injective a b : key a = key b -> a = b.
Proof.
  unfold key. intros H. apply (f_equal (@rev ascii)) in H.
  rewrite !rev_involutive in H.
  rewrite <- (string_of_list_ascii_of_string a),
          <- (string_of_list_ascii_of_string b).
  now rewrite H.
Qed.

Lemma app_same_length {A} (c1 c2 k1 k2 : list A) :
  List.length c1 = List.length c2 ->
  (c1 ++ k1 = c2 ++ k2)%list -> c1 = c2 /\ k1 = k2.
Proof.
  revert c2. induction c1 as [|a c1 IH]; intros [|b c2] Hlen H; try discriminate.
  - auto.
  - simpl in H. injection H as -> H. injection Hlen as Hlen.
    destruct (IH c2 Hlen H) as (-> & ->). auto.
Qed.

(** Two ids built on each name, with tags of one length. *)
Lemma NoDup_tagged (c1 c2 : list ascii) (names : list (list ascii)) :
  List.length c1 = List.length c2 -> c1 <> c2 -> NoDup names ->
  NoDup (flat_map (fun k => [c1 ++ k; c2 ++ k])%list names).
Proof.
  intros Hlen Hne Hnd. induction Hnd as [|k names Hk Hnd IH]; [constructor|].
  simpl. constructor; [|constructor; [|exact IH]].
  - intros [H|H].
    + apply app_inv_tail in H. congruence.
    + apply in_flat_map in H as (k' & Hin & [H|[H|[]]]).
      * apply app_inv_head in H. congruence.
      * destruct (app_same_length _ _ _ _ (eq_sym Hlen) H). congruence.
  - intros H. apply in_flat_map in H as (k' & Hin & [H|[H|[]]]).
    + destruct (app_same_length _ _ _ _ Hlen H). congruence.
    + apply app_inv_head in H. congruence.
Qed.


(** The keys of a target id and of a policy id built on a name. *)
Lemma key_target_id n mid :
  key ((n ++ mid) ++ "_target")
  = (list_ascii_of_string "tegrat_" ++ key mid ++ key n)%list.
Proof. now rewrite !key_app. Qed.

Lemma key_policy_id n mid :
  key ((n ++ mid) ++ "_policy")
  = (list_ascii_of_string "ycilop_" ++ key mid ++ key n)%list.
Proof. now rewrite !key_app. Qed.

Ltac in_cases H :=
  repeat match type of H with
         | In _ (_ ++ _)%list => apply in_app_or in H; destruct H as [H|H]
         | In _ (_ :: _) => destruct H as [H|H]
         | In _ [] => destruct H
         | In _ (flat_map _ _) =>
             apply in_flat_map in H; destruct H as (? & _ & H)
         end.

(** The keys of the ids of one dimension. *)
Lemma dimension_keys uniqueId ct names :
  map key (dimension_ids uniqueId ct names)
  = List.app
      [ key (capacityType_value ct ++ "_policy_document");
        key (capacityType_value ct ++ "_autoscaling_policy");
        key (capacityType_value ct ++ "_assume_role_policy_document");
        key (capacityType_value ct ++ "_role");
        key (capacityType_value ct ++ "_role_attachment") ]
      (List.app
         [ List.app (list_ascii_of_string "tegrat_")
             (List.app (key ("_" ++ capacityType_value ct ++ "_table"))
                (key uniqueId));
           List.app (list_ascii_of_string "ycilop_")
             (List.app (key ("_" ++ capacityType_value ct ++ "_table"))
                (key uniqueId)) ]
         (flat_map
            (fun k =>
               [ List.app
                   (List.app (list_ascii_of_string "tegrat_")
                      (key ("_" ++ capacityType_value ct ++ "_index"))) k;
                 List.app
                   (List.app (list_ascii_of_string "ycilop_")
                      (key ("_" ++ capacityType_value ct ++ "_index"))) k ])
            (map key names))).
Proof.
  unfold dimension_ids. rewrite !map_app. f_equal. f_equal.
  - cbn [map]. now rewrite key_target_id, key_policy_id.
  - induction names as [|n names IH]; [reflexivity|].
    cbn [flat_map map List.app]. rewrite IH, key_target_id, key_policy_id.
    now rewrite !app_assoc.
Qed.

Ltac distinct_keys :=
  match goal with
  | |- ~ In _ _ =>
      let H := fresh in
      intros H; in_cases H; vm_compute in H; discriminate H
  | |- forall x, In x _ -> ~ In x _ =>
      let x := fresh in let H1 := fresh in let H2 := fresh in
      intros x H1 H2; in_cases H1; in_cases H2; subst x;
      vm_compute in H2; discriminate H2
  end.

(** The keys of one dimension are distinct when the names are. *)
Lemma dimension_keys_distinct ct (kf : list ascii) (ks : list (list ascii)) :
  NoDup ks ->
  NoDup
    (List.app
       [ key (capacityType_value ct ++ "_policy_document");
         key (capacityType_value ct ++ "_autoscaling_policy");
         key (capacityType_value ct ++ "_assume_role_policy_document");
         key (capacityType_value ct ++ "_role");
         key (capacityType_value ct ++ "_role_attachment") ]
       (List.app
          [ List.app (list_ascii_of_string "tegrat_")
              (List.app (key ("_" ++ capacityType_value ct ++ "_table")) kf);
            List.app (list_ascii_of_string "ycilop_")
              (List.app (key ("_" ++ capacityType_value ct ++ "_table")) kf) ]
          (flat_map
             (fun k =>
                [ List.app
                    (List.app (list_ascii_of_string "tegrat_")
                       (key ("_" ++ capacityType_value ct ++ "_index"))) k;
                  List.app
                    (List.app (list_ascii_of_string "ycilop_")
                       (key ("_" ++ capacityType_value ct ++ "_index"))) k ])
             ks))).
Proof.
  intros Hk.
  destruct ct; (apply NoDup_app; [| apply NoDup_app |]);
    try distinct_keys;
    try (apply NoDup_tagged; [reflexivity | discriminate | exact Hk]);
    repeat (apply NoDup_cons; [distinct_keys|]); apply NoDup_nil.
Qed.

(** The ids of both dimensions and of the table are distinct when the
    names are. *)
Lemma all_ids_distinct uniqueId names :
  NoDup names ->
  NoDup ("dynamodb_table"
         :: dimension_ids uniqueId Read names ++
            dimension_ids uniqueId Write names)%list.
Proof.
  intros Hnd.
  assert (Hk : NoDup (map key names)).
  { apply NoDup_map_NoDup_ForallPairs; [|exact Hnd].
    intros a b _ _. apply key_injective. }
  apply (NoDup_map_inv key).
  change (map key ("dynamodb_table"
                   :: dimension_ids uniqueId Read names ++
                      dimension_ids uniqueId Write names)%list)
    with (key "dynamodb_table"
          :: map key (dimension_ids uniqueId Read names ++
                      dimension_ids uniqueId Write names)%list).
  rewrite map_app, !dimension_keys.
  set (kf := key uniqueId). set (ks := map key names) in *. clearbody kf ks.
  apply NoDup_cons; [distinct_keys|].
  apply NoDup_app; [now apply dimension_keys_distinct
                   | now apply dimension_keys_distinct
                   | distinct_keys].
Qed.


Lemma NoDup_cons_app_l {A} (x : A) a b :
  NoDup (x :: a ++ b)%list -> NoDup (x :: a).
Proof.
  intros H. inversion H as [|? ? Hx Hab]; subst.
  constructor; [|now apply NoDup_app_remove_r in Hab].
  intros Hin. apply Hx, in_or_app. now left.
Qed.

Lemma NoDup_cons_app_r {A} (x : A) a b :
  NoDup (x :: a ++ b)%list -> NoDup (x :: b).
Proof.
  intros H. inversion H as [|? ? Hx Hab]; subst.
  constructor; [|now apply NoDup_app_remove_l in Hab].
  intros Hin. apply Hx, in_or_app. now right.
Qed.

Section Engine.
Variable attribute : string -> string -> string.

(** The ids a dimension with a spec asks to declare. *)
Lemma dimension_emitted_ids cfg ct s :
  spec_of cfg ct = Some s ->
  ids (dimension_emitted attribute cfg ct)
  = dimension_ids (attribute "dynamodb_table" "friendlyUniqueId") ct
      (map index_name
         (named_prefix (indexes_of (globalSecondaryIndex (tableConfig cfg))))).
Proof.
  intros Hs. unfold dimension_emitted. rewrite Hs.
  destruct (setupAutoscaling_emitted attribute (prefix cfg) s "dynamodb_table" ct
              (globalSecondaryIndex (tableConfig cfg)) (tags cfg)) as (_ & ->).
  destruct (index_steps_views attribute
              (attribute (capacityType_value ct ++ "_role") "arn")
              ct s "dynamodb_table"
              (indexes_of (globalSecondaryIndex (tableConfig cfg))))
    as (_ & _ & _ & _ & _ & _ & I7).
  cbv zeta in I7. rewrite !ids_app, I7. unfold dimension_ids.
  assert (forall L,
            flat_map
              (fun n =>
                 [ (n ++ "_" ++ capacityType_value ct ++ "_index") ++ "_target";
                   (n ++ "_" ++ capacityType_value ct ++ "_index") ++ "_policy" ])
              (map index_name L)
            = flat_map
                (fun gsIndex =>
                   [ (index_name gsIndex ++ "_" ++ capacityType_value ct ++ "_index")
                     ++ "_target";
                     (index_name gsIndex ++ "_" ++ capacityType_value ct ++ "_index")
                     ++ "_policy" ])
                L) as ->.
  { induction L as [|g L IH]; [reflexivity|].
    cbn [map flat_map]. now rewrite IH. }
  reflexivity.
Qed.

End Engine.

End IdFacts.

(** ** Keyed-table builder: a construction carries out its plan *)

Module ReplayFacts.
Import Js Build BuildFacts Frame FrameFacts KeyedTable KeyedTableObs PlanFacts
  PlanShape.

(** *** Registering declarations one after the other *)

Lemma stored_app a b : stored (a ++ b)%list = (stored a ++ stored b)%list.
Proof. apply map_app. Qed.

Lemma taken_stored st id : taken st id = true <-> In (sanitizeId id) (stored st).
Proof.
  unfold taken, stored. rewrite existsb_exists, in_map_iff. split.
  - intros (n & Hn & E). apply String.eqb_eq in E. now exists n.
  - intros (n & E & Hn). exists n. split; [exact Hn | now apply String.eqb_eq].
Qed.

Lemma taken_fresh st id : taken st id = false <-> ~ In (sanitizeId id) (stored st).
Proof.
  rewrite <- taken_stored. destruct (taken st id); split; congruence.
Qed.

(** What [settle] reaches is the scope followed by a beginning of the
    declarations. *)
Lemma settle_prefix st ns :
  exists a b, ns = (a ++ b)%list /\ snd (settle st ns) = (st ++ a)%list.
Proof.
  revert st. induction ns as [|n ns IH]; intros st.
  - exists [], []. split; [reflexivity|]. simpl. now rewrite app_nil_r.
  - simpl. destruct (taken st (fst n)).
    + exists [], (n :: ns). split; [reflexivity|]. simpl. now rewrite app_nil_r.
    + destruct (IH (st ++ [n])%list) as (a & b & E & Hs).
      exists (n :: a), b. split; [simpl; now rewrite E|].
      rewrite Hs. now rewrite <- app_assoc.
Qed.

Lemma settle_none st ns st' :
  settle st ns = (None, st') -> st' = (st ++ ns)%list.
Proof.
  revert st. induction ns as [|n ns IH]; intros st; simpl.
  - intros E. injection E as <-. now rewrite app_nil_r.
  - destruct (taken st (fst n)); [discriminate|].
    intros E. apply IH in E. now rewrite <- app_assoc in E.
Qed.

Lemma settle_app st a b :
  settle st (a ++ b)%list
  = match settle st a with
    | (None, st') => settle st' b
    | (Some k, st') => (Some k, st')
    end.
Proof.
  revert st. induction a as [|n a IH]; intros st; simpl; [reflexivity|].
  destruct (taken st (fst n)); [reflexivity | apply IH].
Qed.

(** Declarations whose stored ids are new and pairwise distinct are all
    accepted. *)
Lemma settle_accepts ns : forall st,
  NoDup (stored (st ++ ns)%list) -> settle st ns = (None, (st ++ ns)%list).
Proof.
  induction ns as [|n ns IH]; intros st Hnd; simpl.
  - now rewrite app_nil_r.
  - assert (taken st (fst n) = false) as ->.
    { apply taken_fresh. rewrite stored_app in Hnd. simpl in Hnd.
      apply NoDup_remove_2 in Hnd. intros Hin. apply Hnd.
      apply in_or_app. now left. }
    change (st ++ n :: ns)%list with (st ++ [n] ++ ns)%list in Hnd |- *.
    rewrite app_assoc in Hnd |- *. now apply IH.
Qed.

(** Conversely, when all are accepted the stored ids are new and pairwise
    distinct. *)
Lemma settle_distinct ns : forall st st',
  settle st ns = (None, st') -> NoDup (stored st) ->
  NoDup (stored (st ++ ns)%list).
Proof.
  induction ns as [|n ns IH]; intros st st' E Hnd; simpl in E.
  - now rewrite app_nil_r.
  - destruct (taken st (fst n)) eqn:Ht; [discriminate|].
    apply taken_fresh in Ht.
    change (st ++ n :: ns)%list with (st ++ [n] ++ ns)%list.
    rewrite app_assoc. apply (IH _ st' E).
    rewrite stored_app. simpl.
    apply NoDup_app; [exact Hnd | repeat constructor; intros [] |].
    intros x Hx [<-|[]]. contradiction.
Qed.

(** A refusal: the refused id is stored already. *)
Lemma settle_refused ns : forall st k st',
  settle st ns = (Some k, st') ->
  exists a n b,
    ns = (a ++ n :: b)%list /\ st' = (st ++ a)%list /\
    k = sanitizeId (fst n) /\ In k (stored (st ++ a)%list).
Proof.
  induction ns as [|n ns IH]; intros st k st' E; simpl in E; [discriminate|].
  destruct (taken st (fst n)) eqn:Ht.
  - injection E as <- <-. exists [], n, ns.
    rewrite app_nil_r. repeat split. now apply taken_stored.
  - destruct (IH _ _ _ E) as (a & m & b & -> & -> & -> & Hin).
    exists (n :: a), m, b. rewrite <- app_assoc in Hin |- *. repeat split.
    exact Hin.
Qed.

(** *** Carrying out a plan *)

Section Engine.
Variable attribute : string -> string -> string.
Variable alreadyExists : string -> string.

Lemma simulates_ret {A} (a : A) : simulates alreadyExists (ret a) (ret a).
Proof. intros st. reflexivity. Qed.

Lemma simulates_throw {A} e : simulates alreadyExists (@throw _ A e) (throw e).
Proof. intros st. reflexivity. Qed.

Lemma simulates_declare id r :
  simulates alreadyExists (declare alreadyExists id r) (request id r).
Proof.
  intros st. unfold declare, replay, outcome, emitted, request. simpl.
  destruct (taken st id); reflexivity.
Qed.

(** A computation that declares nothing carries itself out. *)
Lemma simulates_silent {A} (m : M Scope A) :
  framed m -> emitted m = [] -> simulates alreadyExists m m.
Proof.
  intros Hm He st. rewrite (Hm st), He. unfold replay. simpl.
  now rewrite app_nil_r.
Qed.

Lemma simulates_bind {A B} (m m0 : M Scope A) (k k0 : A -> M Scope B) :
  framed m0 -> (forall a, framed (k0 a)) ->
  simulates alreadyExists m m0 ->
  (forall a, simulates alreadyExists (k a) (k0 a)) ->
  simulates alreadyExists (bind m k) (bind m0 k0).
Proof.
  intros Hm0 Hk0 Hm Hk st. unfold bind at 1. rewrite (Hm st). unfold replay.
  destruct (outcome m0) as [a|e] eqn:Ho.
  - destruct (bind_returned m0 k0 a Hm0 (Hk0 a) Ho) as (E1 & E2).
    unfold Scope in *. rewrite E1, E2, settle_app.
    destruct (settle st (emitted m0)) as [[k'|] st'] eqn:Es; [reflexivity|].
    rewrite (Hk a st'). reflexivity.
  - destruct (bind_threw m0 k0 e Hm0 Ho) as (E1 & E2).
    unfold Scope in *. rewrite E1, E2.
    destruct (settle st (emitted m0)) as [[k'|] st']; reflexivity.
Qed.

Lemma simulates_forEach {A} (f f0 : A -> M Scope unit) l :
  (forall x, framed (f0 x)) ->
  (forall x, simulates alreadyExists (f x) (f0 x)) ->
  simulates alreadyExists (forEach f l) (forEach f0 l).
Proof.
  intros Hf0 Hf. induction l as [|x l IH]; simpl.
  - apply simulates_ret.
  - apply simulates_bind; auto.
    intros _. now apply framed_forEach.
Qed.

Ltac simulation :=
  repeat first
    [ apply simulates_ret
    | apply simulates_throw
    | apply simulates_declare
    | apply simulates_bind;
      [ framed_steps | intros ?; framed_steps | | intros ? ] ].

Lemma simulates_createAutoScalingRole ct p arn tg :
  simulates alreadyExists
    (createAutoScalingRole attribute (declare alreadyExists) ct p arn tg)
    (createAutoScalingRole attribute request ct p arn tg).
Proof. unfold createAutoScalingRole. simulation. Qed.

Lemma simulates_createAutoScalingPolicy roleArn pt ct mn mx tr db n :
  simulates alreadyExists
    (createAutoScalingPolicy attribute (declare alreadyExists)
       roleArn pt ct mn mx tr db n)
    (createAutoScalingPolicy attribute request roleArn pt ct mn mx tr db n).
Proof.
  unfold createAutoScalingPolicy.
  apply simulates_bind; [| intros ?; framed_steps | | intros ?; simulation].
  - destruct pt; [apply framed_ret|]. destruct (truthy_string n); framed_steps.
  - destruct pt; [apply simulates_ret|].
    destruct (truthy_string n); simulation.
Qed.

Lemma simulates_setupAutoscaling p spec db ct gsis tg :
  simulates alreadyExists
    (setupAutoscaling attribute (declare alreadyExists) p spec db ct gsis tg)
    (setupAutoscaling attribute request p spec db ct gsis tg).
Proof.
  unfold setupAutoscaling.
  apply simulates_bind;
    [ apply framed_createAutoScalingRole | intros roleArn
    | apply simulates_createAutoScalingRole | intros roleArn ].
  - apply framed_bind; [apply framed_createAutoScalingPolicy | intros _].
    destruct gsis as [[l|]|]; framed_steps.
    destruct (0 <? List.length l)%nat; [|apply framed_ret].
    apply framed_forEach. intros g. apply framed_createAutoScalingPolicy.
  - apply simulates_bind;
      [ apply framed_createAutoScalingPolicy | intros _
      | apply simulates_createAutoScalingPolicy | intros _ ].
    + destruct gsis as [[l|]|]; framed_steps.
      destruct (0 <? List.length l)%nat; [|apply framed_ret].
      apply framed_forEach. intros g. apply framed_createAutoScalingPolicy.
    + destruct gsis as [[l|]|]; simulation.
      destruct (0 <? List.length l)%nat; [|apply simulates_ret].
      apply simulates_forEach.
      * intros g. apply framed_createAutoScalingPolicy.
      * intros g. apply simulates_createAutoScalingPolicy.
Qed.

Lemma framed_step (R : option ApplicationDynamoDBTableAutoScaleProps)
    p db ct gsis tg :
  framed (match R with
          | Some rc => setupAutoscaling attribute request p rc db ct gsis tg
          | None => ret tt
          end).
Proof. destruct R; [apply framed_setupAutoscaling | apply framed_ret]. Qed.

Lemma simulates_constructor cfg :
  simulates alreadyExists
    (constructor attribute (declare alreadyExists) cfg)
    (constructor attribute request cfg).
Proof.
  unfold constructor.
  apply simulates_bind;
    [ apply framed_validateStreamConfig | intros _
    | apply simulates_silent;
      [apply framed_validateStreamConfig | apply emitted_validateStreamConfig]
    | intros _ ].
  - apply framed_bind; [apply framed_request | intros db].
    apply framed_bind; [apply framed_step | intros _].
    apply framed_bind; [apply framed_step | intros _; apply framed_ret].
  - apply simulates_bind;
      [ apply framed_request | intros db | apply simulates_declare | intros db ].
    + apply framed_bind; [apply framed_step | intros _].
      apply framed_bind; [apply framed_step | intros _; apply framed_ret].
    + apply simulates_bind; [apply framed_step | intros _ | | intros _].
      * apply framed_bind; [apply framed_step | intros _; apply framed_ret].
      * destruct (readCapacity cfg);
          [apply simulates_setupAutoscaling | apply simulates_ret].
      * apply simulates_bind;
          [ apply framed_step | intros _; apply framed_ret | | intros _;
            apply simulates_ret ].
        destruct (writeCapacity cfg);
          [apply simulates_setupAutoscaling | apply simulates_ret].
Qed.

(** A construction carries out its plan. *)
Lemma construct_replay cfg :
  construct attribute alreadyExists cfg
  = replay alreadyExists [] (fst (plan attribute cfg)) (snd (plan attribute cfg)).
Proof. apply simulates_constructor. Qed.

(** Either every declaration of the plan is accepted, and then the stored
    ids of the plan are pairwise distinct and the construction is the plan;
    or the construction throws at the first declaration of the plan whose
    stored id is taken, having declared those before it. *)
Lemma construct_cases cfg :
  (NoDup (stored (snd (plan attribute cfg))) /\
   construct attribute alreadyExists cfg = plan attribute cfg) \/
  (exists a n b,
     snd (plan attribute cfg) = (a ++ n :: b)%list /\
     construct attribute alreadyExists cfg
     = (Threw (Error (alreadyExists (sanitizeId (fst n)))), a) /\
     In (sanitizeId (fst n)) (stored a)).
Proof.
  rewrite construct_replay. unfold replay.
  destruct (settle [] (snd (plan attribute cfg))) as [[k|] st'] eqn:Es.
  - right. destruct (settle_refused _ _ _ _ Es) as (a & n & b & E & -> & -> & Hin).
    exists a, n, b. auto.
  - left. split.
    + apply (settle_distinct _ [] st' Es). constructor.
    + apply settle_none in Es. subst st'.
      now destruct (plan attribute cfg).
Qed.

(** When the stored ids of the plan are pairwise distinct the construction
    is the plan. *)
Lemma construct_exact cfg :
  NoDup (stored (snd (plan attribute cfg))) ->
  construct attribute alreadyExists cfg = plan attribute cfg.
Proof.
  intros Hnd. rewrite construct_replay. unfold replay.
  rewrite (settle_accepts _ [] Hnd). now destruct (plan attribute cfg).
Qed.

(** What a construction declares is the beginning of its plan. *)
Lemma construct_prefix cfg :
  exists b,
    snd (plan attribute cfg)
    = (snd (construct attribute alreadyExists cfg) ++ b)%list.
Proof.
  destruct (construct_cases cfg) as [(_ & ->)|(a & n & b & E & -> & _)].
  - exists []. now rewrite app_nil_r.
  - exists (n :: b). exact E.
Qed.

(** The declarations at the beginning of the plan whose stored ids are
    pairwise distinct are declared. *)
Lemma construct_keeps cfg a b :
  snd (plan attribute cfg) = (a ++ b)%list -> NoDup (stored a) ->
  exists a', snd (construct attribute alreadyExists cfg) = (a ++ a')%list.
Proof.
  intros E Hnd. rewrite construct_replay, E. unfold replay.
  rewrite settle_app, (settle_accepts a [] Hnd). simpl app.
  destruct (settle_prefix a b) as (a' & b' & _ & Hs).
  exists a'. destruct (settle a b) as [[k|] st']; exact Hs.
Qed.

End Engine.

End ReplayFacts.

(** ** Keyed-table builder: the stored ids of a plan *)

Module StoredIds.
Import Js Build BuildFacts Frame FrameFacts KeyedTable KeyedTableObs PlanFacts
  PlanShape IdFacts ReplayFacts.

Lemma sanitizeId_app a b : sanitizeId (a ++ b) = sanitizeId a ++ sanitizeId b.
Proof.
  induction a as [|c a IH]; [reflexivity|]. simpl.
  destruct (Ascii.eqb c "/"); simpl; now rewrite IH.
Qed.

Lemma stored_ids s : stored s = map sanitizeId (ids s).
Proof. unfold stored, ids. now rewrite map_map. Qed.

(** The stored ids of a dimension are its ids over the stored forms of the
    table's unique id and of the index names. *)
Lemma sanitizeId_dimension_ids uniqueId ct names :
  map sanitizeId (dimension_ids uniqueId ct names)
  = dimension_ids (sanitizeId uniqueId) ct (map sanitizeId names).
Proof.
  unfold dimension_ids. rewrite !map_app. f_equal; [|f_equal].
  - destruct ct; reflexivity.
  - destruct ct; cbn [map capacityType_value]; now rewrite !sanitizeId_app.
  - induction names as [|n names IH]; [reflexivity|].
    cbn [flat_map map List.app]. rewrite IH.
    destruct ct; cbn [capacityType_value]; now rewrite !sanitizeId_app.
Qed.

Section Engine.
Variable attribute : string -> string -> string.

(** The stored ids of what a dimension asks to declare. *)
Lemma dimension_stored cfg ct :
  stored (dimension_emitted attribute cfg ct)
  = match spec_of cfg ct with
    | Some _ =>
        dimension_ids (sanitizeId (attribute "dynamodb_table" "friendlyUniqueId")) ct
          (map sanitizeId
             (map index_name
                (named_prefix (indexes_of (globalSecondaryIndex (tableConfig cfg))))))
    | None => []
    end.
Proof.
  rewrite stored_ids. destruct (spec_of cfg ct) as [s|] eqn:Hs.
  - rewrite (dimension_emitted_ids attribute cfg ct s Hs).
    apply sanitizeId_dimension_ids.
  - unfold dimension_emitted. now rewrite Hs.
Qed.

(** The stored ids of a plan are pairwise distinct when the names of the
    indexes before the first one without a name give distinct construct
    ids. *)
Lemma plan_stored_distinct cfg :
  distinct_ids (named_prefix (indexes_of (globalSecondaryIndex (tableConfig cfg)))) ->
  NoDup (stored (snd (plan attribute cfg))).
Proof.
  intros Hd.
  destruct (plan_ind attribute (fun _ => True)) with (cfg := cfg)
    as [-> | (t & E & Ep & _)]; auto; [constructor|].
  assert (Hok : streamAccepted (tableConfig cfg)).
  { intros Hen. destruct (validStreamViewType_dec (tableConfig cfg)) as [Hv|Hv];
      [exact Hv|].
    destruct (plan_rejected attribute cfg Hen Hv) as (msg & Er & _).
    rewrite Er in Ep. discriminate Ep. }
  destruct (plan_emitted attribute cfg Hok) as (t' & _ & _ & _ & Es & _).
  rewrite Es.
  change (stored (("dynamodb_table", RDynamodbTable t')
                  :: dimension_emitted attribute cfg Read ++
                     (if dimension_completes cfg Read
                      then dimension_emitted attribute cfg Write else []))%list)
    with ("dynamodb_table"
          :: stored (dimension_emitted attribute cfg Read ++
                     (if dimension_completes cfg Read
                      then dimension_emitted attribute cfg Write else []))%list).
  rewrite stored_app.
  unfold distinct_ids in Hd. rewrite <- map_map in Hd.
  pose proof (all_ids_distinct
                (sanitizeId (attribute "dynamodb_table" "friendlyUniqueId"))
                _ Hd) as Hall.
  destruct (dimension_completes cfg Read).
  - rewrite !dimension_stored.
    destruct (spec_of cfg Read); destruct (spec_of cfg Write).
    + exact Hall.
    + rewrite app_nil_r. exact (NoDup_cons_app_l _ _ _ Hall).
    + exact (NoDup_cons_app_r _ _ _ Hall).
    + repeat constructor. intros [].
  - unfold stored at 2. simpl map. rewrite app_nil_r, dimension_stored.
    destruct (spec_of cfg Read).
    + exact (NoDup_cons_app_l _ _ _ Hall).
    + repeat constructor. intros [].
Qed.


End Engine.

End StoredIds.

(** ** Keyed-table builder: the wiring of a plan *)

Module PlanWiring.
Import Js Build BuildFacts Frame FrameFacts KeyedTable KeyedTableObs PlanFacts
  PlanShape.

Lemma roles_first_app attribute a : forall roles b,
  roles_first attribute roles a ->
  (forall roles', roles_first attribute roles' b) ->
  roles_first attribute roles (a ++ b)%list.
Proof.
  induction a as [|n a IH]; intros roles b Ha Hb; [apply Hb|].
  simpl in Ha |- *. destruct (snd n); auto.
  destruct Ha as (Ht & Ha). auto.
Qed.

Lemma roles_first_prefix attribute a : forall roles b,
  roles_first attribute roles (a ++ b)%list -> roles_first attribute roles a.
Proof.
  induction a as [|n a IH]; intros roles b H; [exact I|].
  simpl in H |- *. destruct (snd n); eauto.
  destruct H as (Ht & H). eauto.
Qed.

Lemma backward_prefix a : forall seen b,
  backward seen (a ++ b)%list -> backward seen a.
Proof.
  induction a as [|n a IH]; intros seen b H; [exact I|].
  simpl in H |- *. destruct H as (Hn & H). eauto.
Qed.

Section Engine.
Variable attribute : string -> string -> string.

(** The policies of a plan are in step with its targets. *)
Lemma plan_in_step cfg : in_step attribute (snd (plan attribute cfg)).
Proof.
  unfold in_step.
  destruct (plan_ind attribute
              (fun E =>
                 map (fun p => (ap_dependsOn p, ap_resourceId p,
                                ap_scalableDimension p, ap_serviceNamespace p,
                                policyType p))
                   (policies E)
                 = map (fun i => ([i; "dynamodb_table"], attribute i "resourceId",
                                  attribute i "scalableDimension",
                                  attribute i "serviceNamespace",
                                  "TargetTrackingScaling"))
                     (target_ids E)))
    with (cfg := cfg) as [-> | (t & E & -> & H)].
  - reflexivity.
  - intros a b Ha Hb.
    rewrite policies_app, target_ids_app, !map_app. now rewrite Ha, Hb.
  - intros. reflexivity.
  - intros. reflexivity.
  - intros ct mn mx tr n Hn. now rewrite (index_step_emitted _ _ _ _ _ _ _ _ Hn).
  - reflexivity.
  - exact H.
Qed.

(** The targets of a plan: namespace, dependency, dimension and role. *)
Lemma plan_targets cfg :
  Forall
    (fun t =>
       tg_serviceNamespace t = "dynamodb" /\
       tg_dependsOn t = ["dynamodb_table"] /\
       exists ct pt,
         tg_scalableDimension t
         = "dynamodb:" ++ policyTarget_value pt ++ ":" ++
           capacityType_value ct ++ "Units" /\
         tg_roleArn t = attribute (capacityType_value ct ++ "_role") "arn")
    (targets (snd (plan attribute cfg))).
Proof.
  set (Q := fun t =>
              tg_serviceNamespace t = "dynamodb" /\
              tg_dependsOn t = ["dynamodb_table"] /\
              exists ct pt,
                tg_scalableDimension t
                = "dynamodb:" ++ policyTarget_value pt ++ ":" ++
                  capacityType_value ct ++ "Units" /\
                tg_roleArn t = attribute (capacityType_value ct ++ "_role") "arn").
  destruct (plan_ind attribute (fun E => Forall Q (targets E))) with (cfg := cfg)
    as [-> | (t & E & -> & H)].
  - constructor.
  - intros a b Ha Hb. rewrite targets_app. apply Forall_app. auto.
  - intros. constructor.
  - intros ct mn mx tr. constructor; [|constructor].
    split; [reflexivity | split; [reflexivity|]]. exists ct, table. auto.
  - intros ct mn mx tr n Hn. rewrite (index_step_emitted _ _ _ _ _ _ _ _ Hn).
    constructor; [|constructor].
    split; [reflexivity | split; [reflexivity|]]. exists ct, index. auto.
  - constructor.
  - exact H.
Qed.

(** In what a dimension asks to declare, the role comes before the
    targets, which all act through it. *)
Lemma dimension_roles_first cfg ct roles :
  roles_first attribute roles (dimension_emitted attribute cfg ct).
Proof.
  unfold dimension_emitted. destruct (spec_of cfg ct) as [s|]; [|exact I].
  destruct (setupAutoscaling_emitted attribute (prefix cfg) s "dynamodb_table" ct
              (globalSecondaryIndex (tableConfig cfg)) (tags cfg)) as (_ & ->).
  cbn [emitted createAutoScalingRole]. unfold emitted at 1. cbn.
  split.
  - exists ct. split; [reflexivity | now left].
  - generalize (named_prefix_named
                  (indexes_of (globalSecondaryIndex (tableConfig cfg)))).
    generalize (named_prefix (indexes_of (globalSecondaryIndex (tableConfig cfg)))).
    intros l. induction l as [|g l IH]; intros Hl; [exact I|].
    simpl in Hl. apply andb_true_iff in Hl as (Hg & Hl).
    apply truthy_string_Some in Hg.
    cbn [flat_map].
    rewrite (index_step_emitted attribute _ ct _ _ _ _ _ Hg).
    cbn [List.app roles_first snd]. split; [|now apply IH].
    exists ct. split; [reflexivity | now left].
Qed.

Lemma plan_roles_first cfg : roles_first attribute [] (snd (plan attribute cfg)).
Proof.
  destruct (plan_ind attribute (fun _ => True)) with (cfg := cfg)
    as [-> | (t & E & Ep & _)]; auto; [exact I|].
  assert (Hok : streamAccepted (tableConfig cfg)).
  { intros Hen. destruct (validStreamViewType_dec (tableConfig cfg)) as [Hv|Hv];
      [exact Hv|].
    destruct (plan_rejected attribute cfg Hen Hv) as (msg & Er & _).
    rewrite Er in Ep. discriminate Ep. }
  destruct (plan_emitted attribute cfg Hok) as (t' & _ & _ & _ & -> & _).
  cbn [roles_first snd].
  apply roles_first_app; [apply dimension_roles_first|].
  intros roles'. destruct (dimension_completes cfg Read);
    [apply dimension_roles_first | exact I].
Qed.

(** Every declaration of a plan other than the table depends only on
    declarations made before it, and the table has the dependencies of the
    caller's table configuration. *)
Lemma plan_backward cfg :
  backward [] (snd (plan attribute cfg)) /\
  Forall (fun t => dt_tableConfig t = tableConfig cfg)
    (tables (snd (plan attribute cfg))).
Proof.
  split.
  - destruct (plan_ind attribute
                (fun E => forall seen, In "dynamodb_table" seen -> backward seen E))
      with (cfg := cfg) as [-> | (t & E & -> & H)].
    + intros; exact I.
    + intros a b Ha Hb seen Hin. apply backward_app; auto.
    + intros ct p arn tg seen Hin. simpl. unfold incl. simpl.
      intuition (subst; auto).
    + intros ct mn mx tr seen Hin. simpl. unfold incl. simpl.
      intuition (subst; auto).
    + intros ct mn mx tr n Hn seen Hin.
      rewrite (index_step_emitted _ _ _ _ _ _ _ _ Hn). simpl. unfold incl. simpl.
      intuition (subst; auto).
    + exact I.
    + split; [exact I|]. apply H. now left.
  - destruct (truthy_flag (streamEnabled (tableConfig cfg))) eqn:Hen.
    + destruct (validStreamViewType_dec (tableConfig cfg)) as [Hv|Hv].
      * destruct (plan_emitted attribute cfg (fun _ => Hv))
          as (t & Ht & _ & _ & E & _).
        destruct (plan_accepted attribute cfg (fun _ => Hv))
          as (t' & c & ns & E' & _ & _ & T & _).
        rewrite E'. simpl. rewrite T. constructor; [|constructor].
        rewrite E' in E. simpl in E. injection E as <- _. exact Ht.
      * destruct (plan_rejected attribute cfg Hen Hv) as (msg & -> & _).
        constructor.
    + assert (Hok : streamAccepted (tableConfig cfg))
        by (intros H; rewrite Hen in H; discriminate H).
      destruct (plan_emitted attribute cfg Hok) as (t & Ht & _ & _ & E & _).
      destruct (plan_accepted attribute cfg Hok)
        as (t' & c & ns & E' & _ & _ & T & _).
      rewrite E'. simpl. rewrite T. constructor; [|constructor].
      rewrite E' in E. simpl in E. injection E as <- _. exact Ht.
Qed.

(** The target ids of what a dimension asks to declare. *)
Lemma dimension_target_ids_emitted cfg ct s :
  spec_of cfg ct = Some s ->
  target_ids (dimension_emitted attribute cfg ct)
  = dimension_target_ids (attribute "dynamodb_table" "friendlyUniqueId") ct
      (named_prefix (indexes_of (globalSecondaryIndex (tableConfig cfg)))).
Proof.
  intros Hs. unfold dimension_emitted. rewrite Hs.
  destruct (setupAutoscaling_emitted attribute (prefix cfg) s "dynamodb_table" ct
              (globalSecondaryIndex (tableConfig cfg)) (tags cfg)) as (_ & ->).
  rewrite !target_ids_app. unfold dimension_target_ids.
  change (target_ids
            (emitted
               (createAutoScalingRole attribute request ct (prefix cfg)
                  (attribute "dynamodb_table" "arn") (tags cfg)))) with (@nil string).
  assert (target_ids
            (emitted
               (createAutoScalingPolicy attribute request
                  (attribute (capacityType_value ct ++ "_role") "arn") table ct
                  (Some (min s)) (max s) (tracking s) "dynamodb_table" None))
          = [ (attribute "dynamodb_table" "friendlyUniqueId" ++ "_" ++
               capacityType_value ct ++ "_table") ++ "_target" ]) as ->
    by reflexivity.
  cbn [List.app]. f_equal.
  generalize (named_prefix_named
                (indexes_of (globalSecondaryIndex (tableConfig cfg)))).
  generalize (named_prefix (indexes_of (globalSecondaryIndex (tableConfig cfg)))).
  intros l. induction l as [|g l IH]; intros Hl; [reflexivity|].
  simpl in Hl. apply andb_true_iff in Hl as (Hg & Hl).
  apply truthy_string_Some in Hg.
  cbn [flat_map map]. rewrite target_ids_app, (IH Hl).
  now rewrite (index_step_emitted attribute _ ct _ _ _ _ _ Hg).
Qed.

End Engine.

End PlanWiring.

(** ** Keyed-table builder: targets and policies stay in step *)

Module StepFacts.
Import Js Build BuildFacts Frame FrameFacts KeyedTable KeyedTableObs PlanFacts
  PlanShape IdFacts ReplayFacts StoredIds.

Lemma string_app_assoc (a b c : string) : (a ++ b) ++ c = a ++ b ++ c.
Proof. induction a as [|x a IH]; simpl; [reflexivity | now rewrite IH]. Qed.

(** *** Properties of the scope kept by every step *)

Lemma keeps_bind {A B} (P : Scope -> Prop) (m : M Scope A) (k : A -> M Scope B) :
  (forall st, P st -> P (snd (m st))) ->
  (forall a st, P st -> P (snd (k a st))) ->
  forall st, P st -> P (snd (bind m k st)).
Proof.
  intros Hm Hk st H. unfold bind. specialize (Hm st H).
  destruct (m st) as [[a|e] st']; simpl in *; auto.
Qed.

Lemma keeps_forEach {A} (P : Scope -> Prop) (f : A -> M Scope unit) l :
  (forall x st, P st -> P (snd (f x st))) ->
  forall st, P st -> P (snd (forEach f l st)).
Proof.
  intros Hf. induction l as [|x l IH]; intros st H; [exact H|].
  simpl forEach. apply keeps_bind; auto.
Qed.

(** The stored ids of a target and of a policy of a table or index step. *)
Lemma step_stored base ct pt sfx :
  sfx = "_target" \/ sfx = "_policy" ->
  sanitizeId ((base ++ "_" ++ capacityType_value ct ++ "_" ++ policyTarget_value pt)
              ++ sfx)
  = (sanitizeId base ++ "_" ++ capacityType_value ct) ++ "_" ++
    policyTarget_value pt ++ sfx.
Proof.
  intros [-> | ->]; destruct ct, pt; cbn [capacityType_value policyTarget_value];
    rewrite !sanitizeId_app, !string_app_assoc; reflexivity.
Qed.

(** A stored id that ends as a target id is not one that ends as a policy
    id. *)
Lemma target_not_policy x pt y pt' :
  x ++ "_" ++ policyTarget_value pt ++ "_target"
  <> y ++ "_" ++ policyTarget_value pt' ++ "_policy".
Proof.
  intros H. apply (f_equal key) in H. rewrite !key_app in H.
  destruct pt, pt'; vm_compute in H; discriminate H.
Qed.

(** Equal policy ids of steps come with equal target ids. *)
Lemma policy_target x pt y pt' :
  x ++ "_" ++ policyTarget_value pt ++ "_policy"
  = y ++ "_" ++ policyTarget_value pt' ++ "_policy" ->
  x ++ "_" ++ policyTarget_value pt ++ "_target"
  = y ++ "_" ++ policyTarget_value pt' ++ "_target".
Proof.
  intros H. apply key_injective.
  apply (f_equal key) in H. rewrite !key_app in H |- *.
  destruct pt, pt'; vm_compute in H |- *;
    first [discriminate H | injection H as ->; reflexivity].
Qed.

Ltac not_step_policy :=
  let x := fresh in let pt := fresh in let H := fresh in
  intros x pt H; apply (f_equal key) in H; rewrite !key_app in H;
  destruct pt; vm_compute in H; discriminate H.

Section Engine.
Variable attribute : string -> string -> string.
Variable alreadyExists : string -> string.

(** A declaration that is neither a target nor a policy and whose stored id
    does not end as the policy id of a step. *)
Lemma keeps_other id r st :
  (forall x pt, sanitizeId id <> x ++ "_" ++ policyTarget_value pt ++ "_policy") ->
  policies [(id, r)] = [] -> target_ids [(id, r)] = [] ->
  well_keyed st /\ in_step attribute st ->
  well_keyed (snd (declare alreadyExists id r st)) /\
  in_step attribute (snd (declare alreadyExists id r st)).
Proof.
  intros Hid Hp Ht (Hk & Hs). unfold declare.
  destruct (taken st id); [split; assumption|]. simpl snd. split.
  - intros x pt Hin. rewrite stored_app in Hin |- *.
    apply in_app_or in Hin as [Hin|[Hin|[]]].
    + apply in_or_app. left. now apply Hk.
    + exfalso. exact (Hid x pt Hin).
  - unfold in_step in *. now rewrite policies_app, target_ids_app, Hp, Ht, !app_nil_r.
Qed.

(** The target and the policy of a step: when the target is accepted the
    policy is, and both are kept in step. *)
Lemma keeps_pair base ct pt t p st tid pid :
  tid = (base ++ "_" ++ capacityType_value ct ++ "_" ++ policyTarget_value pt)
        ++ "_target" ->
  pid = (base ++ "_" ++ capacityType_value ct ++ "_" ++ policyTarget_value pt)
        ++ "_policy" ->
  (ap_dependsOn p, ap_resourceId p, ap_scalableDimension p,
   ap_serviceNamespace p, policyType p)
  = ([tid; "dynamodb_table"], attribute tid "resourceId",
     attribute tid "scalableDimension", attribute tid "serviceNamespace",
     "TargetTrackingScaling") ->
  well_keyed st /\ in_step attribute st ->
  taken st tid = false ->
  taken (st ++ [(tid, RAppautoscalingTarget t)])%list pid = false /\
  well_keyed
    ((st ++ [(tid, RAppautoscalingTarget t)]) ++ [(pid, RAppautoscalingPolicy p)])%list /\
  in_step attribute
    ((st ++ [(tid, RAppautoscalingTarget t)]) ++ [(pid, RAppautoscalingPolicy p)])%list.
Proof.
  intros Etid Epid Hp (Hk & Hs) HT.
  apply taken_fresh in HT.
  assert (ET : sanitizeId tid
               = (sanitizeId base ++ "_" ++ capacityType_value ct) ++ "_" ++
                 policyTarget_value pt ++ "_target")
    by (rewrite Etid; apply step_stored; now left).
  assert (EP : sanitizeId pid
               = (sanitizeId base ++ "_" ++ capacityType_value ct) ++ "_" ++
                 policyTarget_value pt ++ "_policy")
    by (rewrite Epid; apply step_stored; now right).
  clear Etid Epid.
  split; [|split].
  - apply taken_fresh. rewrite stored_app. intros Hin.
    apply in_app_or in Hin as [Hin|[Hin|[]]].
    + rewrite EP in Hin. apply Hk in Hin. rewrite <- ET in Hin. contradiction.
    + cbn [fst] in Hin. rewrite ET, EP in Hin.
      exact (target_not_policy _ _ _ _ Hin).
  - intros x pt' Hin. rewrite !stored_app in Hin |- *. cbn [stored map fst] in *.
    apply in_app_or in Hin as [Hin|[Hin|[]]];
      [apply in_app_or in Hin as [Hin|[Hin|[]]]|].
    + apply in_or_app. left. apply in_or_app. left. now apply Hk.
    + exfalso. rewrite ET in Hin. exact (target_not_policy _ _ _ _ Hin).
    + apply in_or_app. left. apply in_or_app. right. left.
      rewrite ET. rewrite EP in Hin. now apply policy_target.
  - unfold in_step in *. rewrite !policies_app, !target_ids_app, !map_app, Hs.
    cbn [policies target_ids flat_map snd fst List.app map].
    now rewrite Hp, !app_nil_r.
Qed.

(** The step of the table or of an index. *)
Lemma keeps_createAutoScalingPolicy roleArn pt ct mn mx tr n st :
  well_keyed st /\ in_step attribute st ->
  well_keyed
    (snd (createAutoScalingPolicy attribute (declare alreadyExists)
            roleArn pt ct mn mx tr "dynamodb_table" n st)) /\
  in_step attribute
    (snd (createAutoScalingPolicy attribute (declare alreadyExists)
            roleArn pt ct mn mx tr "dynamodb_table" n st)).
Proof.
  intros HI. unfold createAutoScalingPolicy.
  set (base := if truthy_string n
               then match n with Some n0 => n0 | None => "" end
               else attribute "dynamodb_table" "friendlyUniqueId").
  assert (Hrun : forall rid,
            well_keyed
              (snd (bind (ret rid)
                      (fun resourceId : string =>
                         bind (declare alreadyExists
                                 ((base ++ "_" ++ capacityType_value ct ++ "_" ++
                                   policyTarget_value pt) ++ "_target")
                                 (RAppautoscalingTarget
                                    {| maxCapacity := mx;
                                       minCapacity := mn;
                                       tg_resourceId := resourceId;
                                       tg_scalableDimension :=
                                         "dynamodb:" ++ policyTarget_value pt ++ ":" ++
                                         capacityType_value ct ++ "Units";
                                       tg_roleArn := roleArn;
                                       tg_serviceNamespace := "dynamodb";
                                       tg_dependsOn := ["dynamodb_table"] |}))
                           (fun targetTracking =>
                              bind (declare alreadyExists
                                      ((base ++ "_" ++ capacityType_value ct ++ "_" ++
                                        policyTarget_value pt) ++ "_policy")
                                      (RAppautoscalingPolicy
                                         {| ap_name :=
                                              "DynamoDB" ++ capacityType_value ct ++
                                              "Utilization:" ++
                                              attribute targetTracking "resourceId";
                                            policyType := "TargetTrackingScaling";
                                            ap_resourceId :=
                                              attribute targetTracking "resourceId";
                                            ap_scalableDimension :=
                                              attribute targetTracking "scalableDimension";
                                            ap_serviceNamespace :=
                                              attribute targetTracking "serviceNamespace";
                                            predefinedMetricType :=
                                              "DynamoDB" ++ capacityType_value ct ++
                                              "Utilization";
                                            targetValue := tr;
                                            ap_dependsOn :=
                                              [targetTracking; "dynamodb_table"] |}))
                                (fun _ => ret tt))) st)) /\
            in_step attribute
              (snd (bind (ret rid)
                      (fun resourceId : string =>
                         bind (declare alreadyExists
                                 ((base ++ "_" ++ capacityType_value ct ++ "_" ++
                                   policyTarget_value pt) ++ "_target")
                                 (RAppautoscalingTarget
                                    {| maxCapacity := mx;
                                       minCapacity := mn;
                                       tg_resourceId := resourceId;
                                       tg_scalableDimension :=
                                         "dynamodb:" ++ policyTarget_value pt ++ ":" ++
                                         capacityType_value ct ++ "Units";
                                       tg_roleArn := roleArn;
                                       tg_serviceNamespace := "dynamodb";
                                       tg_dependsOn := ["dynamodb_table"] |}))
                           (fun targetTracking =>
                              bind (declare alreadyExists
                                      ((base ++ "_" ++ capacityType_value ct ++ "_" ++
                                        policyTarget_value pt) ++ "_policy")
                                      (RAppautoscalingPolicy
                                         {| ap_name :=
                                              "DynamoDB" ++ capacityType_value ct ++
                                              "Utilization:" ++
                                              attribute targetTracking "resourceId";
                                            policyType := "TargetTrackingScaling";
                                            ap_resourceId :=
                                              attribute targetTracking "resourceId";
                                            ap_scalableDimension :=
                                              attribute targetTracking "scalableDimension";
                                            ap_serviceNamespace :=
                                              attribute targetTracking "serviceNamespace";
                                            predefinedMetricType :=
                                              "DynamoDB" ++ capacityType_value ct ++
                                              "Utilization";
                                            targetValue := tr;
                                            ap_dependsOn :=
                                              [targetTracking; "dynamodb_table"] |}))
                                (fun _ => ret tt))) st))).
  { intros rid. unfold bind, declare, ret.
    destruct (taken st ((base ++ "_" ++ capacityType_value ct ++ "_" ++
                         policyTarget_value pt) ++ "_target")) eqn:HT;
      [exact HI|].
    match goal with
    | |- context [RAppautoscalingPolicy ?p] =>
        match goal with
        | |- context [RAppautoscalingTarget ?t] =>
            destruct (keeps_pair base ct pt t p st _ _ eq_refl eq_refl eq_refl HI HT)
              as (HP & Hk & Hs)
        end
    end.
    rewrite HP. split; assumption. }
  destruct pt.
  - apply Hrun.
  - destruct (truthy_string n) eqn:Hn.
    + apply Hrun.
    + exact HI.
Qed.

(** The role step. *)
Lemma keeps_createAutoScalingRole ct p arn tg st :
  well_keyed st /\ in_step attribute st ->
  well_keyed
    (snd (createAutoScalingRole attribute (declare alreadyExists) ct p arn tg st)) /\
  in_step attribute
    (snd (createAutoScalingRole attribute (declare alreadyExists) ct p arn tg st)).
Proof.
  revert st. unfold createAutoScalingRole.
  repeat (apply (keeps_bind (fun s => well_keyed s /\ in_step attribute s));
          [ intros st HI; apply keeps_other;
            [ destruct ct; not_step_policy | reflexivity | reflexivity | exact HI ]
          | intros ? ]).
  intros st HI. exact HI.
Qed.

(** The set-up of a dimension. *)
Lemma keeps_setupAutoscaling p spec ct gsis tg st :
  well_keyed st /\ in_step attribute st ->
  well_keyed
    (snd (setupAutoscaling attribute (declare alreadyExists) p spec
            "dynamodb_table" ct gsis tg st)) /\
  in_step attribute
    (snd (setupAutoscaling attribute (declare alreadyExists) p spec
            "dynamodb_table" ct gsis tg st)).
Proof.
  revert st. unfold setupAutoscaling.
  apply (keeps_bind (fun s => well_keyed s /\ in_step attribute s));
    [intros st; apply keeps_createAutoScalingRole | intros roleArn].
  apply (keeps_bind (fun s => well_keyed s /\ in_step attribute s));
    [intros st; apply keeps_createAutoScalingPolicy | intros _].
  destruct gsis as [[l|]|]; try (intros st HI; exact HI).
  destruct (0 <? List.length l)%nat; [|intros st HI; exact HI].
  apply (keeps_forEach (fun s => well_keyed s /\ in_step attribute s)).
  intros g st. apply keeps_createAutoScalingPolicy.
Qed.

Lemma keeps_bind_declare {B} (P : Scope -> Prop) id r (k : string -> M Scope B) :
  (forall st, P st -> P (snd (declare alreadyExists id r st))) ->
  (forall st, P st -> P (snd (k id st))) ->
  forall st, P st -> P (snd (bind (declare alreadyExists id r) k st)).
Proof.
  intros Hm Hk st H. specialize (Hm st H). unfold bind, declare in *.
  destruct (taken st id); simpl in *; auto.
Qed.

(** Whatever a construction declares is in step. *)
Lemma construct_in_step cfg :
  in_step attribute (snd (construct attribute alreadyExists cfg)).
Proof.
  assert (HI : well_keyed [] /\ in_step attribute [])
    by (split; [intros x pt [] | reflexivity]).
  unfold construct, constructor.
  apply (keeps_bind (fun s => well_keyed s /\ in_step attribute s)); [| |exact HI].
  - intros st H.
    rewrite (framed_validateStreamConfig (tableConfig cfg)
               ApplicationDynamoDBTableStreamViewType st).
    rewrite emitted_validateStreamConfig. simpl. now rewrite app_nil_r.
  - intros _.
    apply (keeps_bind_declare (fun s => well_keyed s /\ in_step attribute s)).
    + intros st H. apply keeps_other;
        [not_step_policy | reflexivity | reflexivity | exact H].
    + apply (keeps_bind (fun s => well_keyed s /\ in_step attribute s)).
      * intros st H. destruct (readCapacity cfg); [|exact H].
        now apply keeps_setupAutoscaling.
      * intros _.
        apply (keeps_bind (fun s => well_keyed s /\ in_step attribute s)).
        -- intros st H. destruct (writeCapacity cfg); [|exact H].
           now apply keeps_setupAutoscaling.
        -- intros _ st H. exact H.
Qed.

End Engine.

End StepFacts.

(** ** Keyed-table builder: the constructor *)

Module KeyedTableFacts.
Import Js Build BuildFacts Frame FrameFacts KeyedTable KeyedTableObs PlanFacts
  PlanShape IdFacts ReplayFacts StoredIds PlanWiring StepFacts.

Lemma app_nil_l_inv {A} (a b : list A) : (a ++ b)%list = [] -> a = [].
Proof. destruct a; [reflexivity | discriminate]. Qed.

Section Engine.
Variable attribute : string -> string -> string.
Variable alreadyExists : string -> string.

(** A configuration the stream validation rejects: the constructor throws
    before anything is declared. *)
Lemma construct_rejected cfg :
  truthy_flag (streamEnabled (tableConfig cfg)) = true ->
  ~ validStreamViewType (tableConfig cfg) ->
  exists msg,
    construct attribute alreadyExists cfg = (Threw (Error msg), []) /\
    (msg = "you must specify a stream view type if streams are enabled" \/
     msg = "you must specify a valid stream view type").
Proof.
  intros Hen Hinv.
  destruct (plan_rejected attribute cfg Hen Hinv) as (msg & E & Hmsg).
  exists msg. split; [|exact Hmsg].
  rewrite construct_exact; [exact E|]. rewrite E. constructor.
Qed.

(** The first steps of the first dimension with a capacity spec are in the
    plan, after the table, and their stored ids are pairwise distinct. *)
Lemma plan_first_steps cfg :
  streamAccepted (tableConfig cfg) ->
  readCapacity cfg <> None \/ writeCapacity cfg <> None ->
  exists a b,
    snd (plan attribute cfg) = (a ++ b)%list /\ NoDup (stored a) /\
    targets a <> [] /\ policies a <> [].
Proof.
  intros Hok Hcap.
  destruct (plan_emitted attribute cfg Hok) as (t & _ & _ & _ & E & _).
  assert (Hct : exists ct s,
             spec_of cfg ct = Some s /\
             exists b, snd (plan attribute cfg)
                       = (("dynamodb_table", RDynamodbTable t)
                          :: dimension_emitted attribute cfg ct ++ b)%list).
  { destruct (readCapacity cfg) as [rc|] eqn:ER.
    - exists Read, rc. split; [exact ER|]. eexists. exact E.
    - destruct (writeCapacity cfg) as [wc|] eqn:EW; [|destruct Hcap; congruence].
      exists Write, wc. split; [exact EW|]. exists [].
      rewrite E. unfold dimension_emitted at 1, dimension_completes, spec_of.
      rewrite ER. now rewrite app_nil_r. }
  destruct Hct as (ct & s & Hs & b & Ep).
  unfold dimension_emitted in Ep. rewrite Hs in Ep.
  destruct (setupAutoscaling_emitted attribute (prefix cfg) s "dynamodb_table" ct
              (globalSecondaryIndex (tableConfig cfg)) (tags cfg)) as (_ & Ee).
  rewrite Ee in Ep. clear Ee.
  eexists (("dynamodb_table", RDynamodbTable t)
           :: emitted (createAutoScalingRole attribute request ct (prefix cfg)
                         (attribute "dynamodb_table" "arn") (tags cfg)) ++
              emitted (createAutoScalingPolicy attribute request
                         (attribute (capacityType_value ct ++ "_role") "arn") table ct
                         (Some (min s)) (max s) (tracking s) "dynamodb_table" None))%list.
  eexists. split; [|split; [|split]].
  - rewrite Ep. cbn [List.app]. f_equal. rewrite <- !app_assoc. reflexivity.
  - pose proof (all_ids_distinct
                  (sanitizeId (attribute "dynamodb_table" "friendlyUniqueId")) []
                  (NoDup_nil _)) as Hall.
    assert (Est : forall u,
              stored
                ((u, RDynamodbTable t)
                 :: emitted (createAutoScalingRole attribute request ct (prefix cfg)
                               (attribute "dynamodb_table" "arn") (tags cfg)) ++
                    emitted (createAutoScalingPolicy attribute request
                               (attribute (capacityType_value ct ++ "_role") "arn")
                               table ct (Some (min s)) (max s) (tracking s)
                               "dynamodb_table" None))%list
              = sanitizeId u
                :: dimension_ids
                     (sanitizeId (attribute "dynamodb_table" "friendlyUniqueId")) ct []).
    { intros u. destruct ct; cbn; now rewrite !sanitizeId_app. }
    rewrite Est. destruct ct.
    + exact (NoDup_cons_app_l _ _ _ Hall).
    + exact (NoDup_cons_app_r _ _ _ Hall).
  - destruct ct; discriminate.
  - destruct ct; discriminate.
Qed.

(** A configuration the stream validation accepts: the table is declared
    first and is the only table; without capacity specs the construction
    completes with the table alone; with one, the table's target and policy
    of the first dimension are declared. *)
Lemma construct_accepted cfg :
  streamAccepted (tableConfig cfg) ->
  exists t c ns,
    construct attribute alreadyExists cfg
    = (c, ("dynamodb_table", RDynamodbTable t) :: ns) /\
    dt_billingMode t = billingMode_of cfg /\
    preventDestroy (dt_lifecycle t)
    = (match preventDestroyTable cfg with Some false => false | _ => true end) /\
    tables ns = [] /\
    (readCapacity cfg = None -> writeCapacity cfg = None ->
     c = Returned "dynamodb_table" /\ ns = []) /\
    (readCapacity cfg <> None \/ writeCapacity cfg <> None ->
     targets ns <> [] /\ policies ns <> []).
Proof.
  intros Hok.
  destruct (plan_accepted attribute cfg Hok)
    as (t & c0 & ns0 & E0 & B & P & T0 & F1 & F2).
  destruct (construct_keeps attribute alreadyExists cfg
              [("dynamodb_table", RDynamodbTable t)] ns0) as (a & Ea).
  { now rewrite E0. }
  { repeat constructor. intros []. }
  cbn [List.app] in Ea.
  destruct (construct_prefix attribute alreadyExists cfg) as (b & Eb).
  rewrite Ea, E0 in Eb. simpl in Eb. injection Eb as Eb.
  exists t, (fst (construct attribute alreadyExists cfg)), a.
  split; [|split; [exact B | split; [exact P | split; [|split]]]].
  - apply injective_projections; [reflexivity | exact Ea].
  - rewrite Eb, tables_app in T0. now apply app_nil_l_inv in T0.
  - intros HR HW. destruct (F1 HR HW) as (-> & ->).
    rewrite construct_exact in *; rewrite E0 in *.
    + simpl in Ea. injection Ea as <-. auto.
    + repeat constructor. intros [].
    + repeat constructor. intros [].
  - intros Hcap.
    destruct (plan_first_steps cfg Hok Hcap) as (a1 & b1 & E1 & Hnd & HT & HP).
    destruct (construct_keeps attribute alreadyExists cfg a1 b1 E1 Hnd)
      as (a2 & E2).
    rewrite Ea in E2.
    assert (Hne : forall (A : Type) (x : list A) y, x <> [] -> (x ++ y)%list <> []).
    { intros A x y Hx E. apply app_eq_nil in E. now destruct E. }
    pose proof (f_equal targets E2) as ET.
    pose proof (f_equal policies E2) as EP.
    rewrite targets_app in ET. rewrite policies_app in EP.
    change (targets a = (targets a1 ++ targets a2)%list) in ET.
    change (policies a = (policies a1 ++ policies a2)%list) in EP.
    rewrite ET, EP. split; now apply Hne.
Qed.

(** The tables a construction declares: none when the stream validation
    rejects the configuration, otherwise exactly one. *)
Lemma construct_tables cfg :
  (truthy_flag (streamEnabled (tableConfig cfg)) = true /\
   ~ validStreamViewType (tableConfig cfg) /\
   snd (construct attribute alreadyExists cfg) = []) \/
  (streamAccepted (tableConfig cfg) /\
   exists t,
     tables (snd (construct attribute alreadyExists cfg)) = [t] /\
     dt_billingMode t = billingMode_of cfg /\
     preventDestroy (dt_lifecycle t)
     = (match preventDestroyTable cfg with Some false => false | _ => true end)).
Proof.
  destruct (truthy_flag (streamEnabled (tableConfig cfg))) eqn:Hen.
  - destruct (validStreamViewType_dec (tableConfig cfg)) as [Hv|Hv].
    + right. split; [intros _; exact Hv|].
      destruct (construct_accepted cfg (fun _ => Hv))
        as (t & c & ns & E & B & P & T & _).
      exists t. rewrite E. simpl. rewrite T. auto.
    + left. destruct (construct_rejected cfg Hen Hv) as (msg & E & _).
      rewrite E. auto.
  - assert (Hok : streamAccepted (tableConfig cfg))
      by (intros H; rewrite Hen in H; discriminate H).
    right. split; [exact Hok|].
    destruct (construct_accepted cfg Hok) as (t & c & ns & E & B & P & T & _).
    exists t. rewrite E. simpl. rewrite T. auto.
Qed.

(** *** Claims *)

(** C1, amended.  With a read and a write capacity spec on a table whose
    secondary indexes are an array in which every index has a name and the
    names give pairwise distinct construct ids, and a stream configuration
    that passes validation, the construction completes and each dimension
    gets exactly one autoscaling target and policy for the table followed
    by one per index, read first.  An index target has the capacity the
    index declares for the dimension as minimum and the maximum of the
    table-level spec; every policy tracks the target value of the
    table-level spec.  So there are [2 + 2 * n] targets and as many
    policies for [n] indexes.  The targets are those of the table and of
    the indexes, by their ids, and the i-th policy is the policy of the
    i-th target: it depends on it and takes its resource id from it. *)
Theorem autoscaling_fan_out cfg rc wc l :
  readCapacity cfg = Some rc ->
  writeCapacity cfg = Some wc ->
  globalSecondaryIndex (tableConfig cfg) = Some (Value l) ->
  forallb named l = true ->
  distinct_ids l ->
  (truthy_flag (streamEnabled (tableConfig cfg)) = true ->
   validStreamViewType (tableConfig cfg)) ->
  exists ns,
    construct attribute alreadyExists cfg = (Returned "dynamodb_table", ns) /\
    map target_view (targets ns)
    = (dimension_targets (attribute "dynamodb_table" "name") Read rc l ++
       dimension_targets (attribute "dynamodb_table" "name") Write wc l)%list /\
    map policy_view (policies ns)
    = (dimension_policies Read rc l ++ dimension_policies Write wc l)%list /\
    List.length (targets ns) = 2 + 2 * List.length l /\
    List.length (policies ns) = 2 + 2 * List.length l /\
    target_ids ns
    = (dimension_target_ids (attribute "dynamodb_table" "friendlyUniqueId") Read l ++
       dimension_target_ids (attribute "dynamodb_table" "friendlyUniqueId") Write l)%list /\
    map (fun p => (ap_dependsOn p, ap_resourceId p)) (policies ns)
    = map (fun i => ([i; "dynamodb_table"], attribute i "resourceId"))
        (target_ids ns).
Proof.
  intros HR HW HG Hl Hd Hok.
  assert (Hex : construct attribute alreadyExists cfg = plan attribute cfg).
  { apply construct_exact, plan_stored_distinct.
    rewrite HG. simpl indexes_of. now rewrite (named_prefix_all l Hl). }
  destruct (plan_fan_out attribute cfg rc wc l HR HW HG Hl Hok)
    as (ns & E & T & P & LT & LP).
  exists ns. rewrite Hex.
  split; [exact E | split; [exact T | split; [exact P | split; [exact LT|]]]].
  split; [exact LP | split].
  - destruct (plan_emitted attribute cfg Hok) as (t & _ & _ & _ & Es & _).
    assert (HC : dimension_completes cfg Read = true).
    { unfold dimension_completes. rewrite HG. simpl. rewrite Hl.
      destruct (readCapacity cfg); reflexivity. }
    rewrite HC, E in Es. simpl in Es. rewrite Es.
    change (target_ids (("dynamodb_table", RDynamodbTable t)
                        :: dimension_emitted attribute cfg Read ++
                           dimension_emitted attribute cfg Write)%list)
      with (target_ids (dimension_emitted attribute cfg Read ++
                        dimension_emitted attribute cfg Write)%list).
    rewrite target_ids_app.
    rewrite (dimension_target_ids_emitted attribute cfg Read rc HR),
      (dimension_target_ids_emitted attribute cfg Write wc HW), HG.
    simpl indexes_of. now rewrite (named_prefix_all l Hl).
  - pose proof (plan_in_step attribute cfg) as Hs. rewrite E in Hs.
    unfold in_step in Hs. simpl snd in Hs.
    apply (f_equal (map (fun x : list string * string * string * string * string =>
                           (fst (fst (fst (fst x))), snd (fst (fst (fst x))))))) in Hs.
    rewrite !map_map in Hs. exact Hs.
Qed.


(** C4, amended.  Every table the construction declares has the billing
    mode of the capacity mode, ['PAY_PER_REQUEST'] for [ON_DEMAND] and
    ['PROVISIONED'] for [PROVISIONED] or none, and a configuration that
    passes the stream validation declares exactly one table.  Without
    capacity specs no autoscaling target or policy is declared.  With a
    capacity spec, a configuration that passes the stream validation
    gets autoscaling targets and policies whatever its capacity mode. *)
Theorem billing_mode_and_autoscaling cfg :
  Forall (fun t => dt_billingMode t = billingMode_of cfg)
    (tables (snd (construct attribute alreadyExists cfg))) /\
  ((truthy_flag (streamEnabled (tableConfig cfg)) = true ->
    validStreamViewType (tableConfig cfg)) ->
   exists t, tables (snd (construct attribute alreadyExists cfg)) = [t]) /\
  (readCapacity cfg = None -> writeCapacity cfg = None ->
   targets (snd (construct attribute alreadyExists cfg)) = [] /\
   policies (snd (construct attribute alreadyExists cfg)) = []) /\
  ((truthy_flag (streamEnabled (tableConfig cfg)) = true ->
    validStreamViewType (tableConfig cfg)) ->
   readCapacity cfg <> None \/ writeCapacity cfg <> None ->
   targets (snd (construct attribute alreadyExists cfg)) <> [] /\
   policies (snd (construct attribute alreadyExists cfg)) <> []).
Proof.
  split; [|split; [|split]].
  - destruct (construct_tables cfg) as [(_ & _ & E)|(_ & t & E & B & _)];
      rewrite E; simpl; auto.
  - intros Hok.
    destruct (construct_accepted cfg Hok) as (t & c & ns & E & _ & _ & T & _).
    exists t. rewrite E. simpl. now rewrite T.
  - intros HR HW.
    destruct (construct_tables cfg) as [(_ & _ & E)|(Hok & _)].
    + rewrite E. auto.
    + destruct (construct_accepted cfg Hok)
        as (t & c & ns & E & _ & _ & _ & F1 & _).
      destruct (F1 HR HW) as (_ & ->). rewrite E. auto.
  - intros Hok Hcap.
    destruct (construct_accepted cfg Hok)
      as (t & c & ns & E & _ & _ & _ & _ & F2).
    destruct (F2 Hcap) as (G & P). rewrite E. simpl. auto.
Qed.

(** C10. A declared table is protected from destruction when
    [preventDestroyTable] is unset or [true] and is not when it is
    [false]; a configuration that passes the stream validation declares
    exactly one table. *)
Theorem destroy_protection cfg :
  (preventDestroyTable cfg = None \/ preventDestroyTable cfg = Some true ->
   Forall (fun t => preventDestroy (dt_lifecycle t) = true)
     (tables (snd (construct attribute alreadyExists cfg)))) /\
  (preventDestroyTable cfg = Some false ->
   Forall (fun t => preventDestroy (dt_lifecycle t) = false)
     (tables (snd (construct attribute alreadyExists cfg)))) /\
  ((truthy_flag (streamEnabled (tableConfig cfg)) = true ->
    validStreamViewType (tableConfig cfg)) ->
   exists t, tables (snd (construct attribute alreadyExists cfg)) = [t]).
Proof.
  split; [|split].
  - intros H.
    destruct (construct_tables cfg) as [(_ & _ & E)|(_ & t & E & _ & P)];
      rewrite E; simpl; auto.
    constructor; [|constructor]. rewrite P.
    destruct H as [-> | ->]; reflexivity.
  - intros H.
    destruct (construct_tables cfg) as [(_ & _ & E)|(_ & t & E & _ & P)];
      rewrite E; simpl; auto.
    constructor; [|constructor]. now rewrite P, H.
  - intros Hok.
    destruct (construct_accepted cfg Hok) as (t & c & ns & E & _ & _ & T & _).
    exists t. rewrite E. simpl. now rewrite T.
Qed.

End Engine.

(** *** The claims on sample configurations *)

Import Samples Samples.Table MoreSamples.

(** The example of the specification: read and write specs
    [{tracking: 70, max: 10, min: 1}] and two indexes declaring read
    capacity 2 and write capacity 3 give two table targets and four index
    targets. *)
Lemma autoscaling_fan_out_two_indexes :
  exists ns,
    construct reference alreadyThere readWriteTwoIndexes
    = (Returned "dynamodb_table", ns) /\
    map target_view (targets ns)
    = [ ("dynamodb:table:ReadCapacityUnits", "table/${dynamodb_table.name}",
         Some 1%Z, 10%Z);
        ("dynamodb:index:ReadCapacityUnits",
         "table/${dynamodb_table.name}/index/index1", Some 2%Z, 10%Z);
        ("dynamodb:index:ReadCapacityUnits",
         "table/${dynamodb_table.name}/index/index2", Some 2%Z, 10%Z);
        ("dynamodb:table:WriteCapacityUnits", "table/${dynamodb_table.name}",
         Some 1%Z, 10%Z);
        ("dynamodb:index:WriteCapacityUnits",
         "table/${dynamodb_table.name}/index/index1", Some 3%Z, 10%Z);
        ("dynamodb:index:WriteCapacityUnits",
         "table/${dynamodb_table.name}/index/index2", Some 3%Z, 10%Z) ] /\
    map policy_view (policies ns)
    = [ ("DynamoDBReadCapacityUtilization", 70%Z);
        ("DynamoDBReadCapacityUtilization", 70%Z);
        ("DynamoDBReadCapacityUtilization", 70%Z);
        ("DynamoDBWriteCapacityUtilization", 70%Z);
        ("DynamoDBWriteCapacityUtilization", 70%Z);
        ("DynamoDBWriteCapacityUtilization", 70%Z) ] /\
    List.length (targets ns) = 6 /\
    List.length (policies ns) = 6 /\
    target_ids ns
    = [ "${dynamodb_table.friendlyUniqueId}_ReadCapacity_table_target";
        "index1_ReadCapacity_index_target";
        "index2_ReadCapacity_index_target";
        "${dynamodb_table.friendlyUniqueId}_WriteCapacity_table_target";
        "index1_WriteCapacity_index_target";
        "index2_WriteCapacity_index_target" ] /\
    map (fun p => (ap_dependsOn p, ap_resourceId p)) (policies ns)
    = map (fun i => ([i; "dynamodb_table"], reference i "resourceId"))
        (target_ids ns).
Proof.
  apply (autoscaling_fan_out reference alreadyThere readWriteTwoIndexes
           spec_70_10_1 spec_70_10_1 twoIndexes);
    [reflexivity | reflexivity | reflexivity | reflexivity | |].
  - unfold distinct_ids. simpl.
    apply NoDup_cons; [simpl; intuition discriminate|].
    apply NoDup_cons; [simpl; tauto | apply NoDup_nil].
  - simpl. intros H. discriminate H.
Defined.

(** C1 as stated fails on three configurations with a read and a write
    capacity spec and secondary indexes.  On [secondIndexUnnamed] the
    second of three indexes has no name: the construction throws there,
    after two targets.  On [sameNameReadWrite] the two indexes have one
    name: the construction throws at the second, after two targets.  On
    [readWriteStreamNoView] the stream validation fails: nothing is
    declared. *)
Lemma fan_out_needs_accepted_indexes :
  (fst (construct reference alreadyThere secondIndexUnnamed)
   = Threw (Error
       "you must specify an indexName when creating an index auto scaling policy") /\
   List.length (targets (snd (construct reference alreadyThere secondIndexUnnamed)))
   = 2) /\
  (fst (construct reference alreadyThere sameNameReadWrite)
   = Threw (Error (alreadyThere "index1_ReadCapacity_index_target")) /\
   List.length (targets (snd (construct reference alreadyThere sameNameReadWrite)))
   = 2) /\
  construct reference alreadyThere readWriteStreamNoView
  = (Threw (Error "you must specify a stream view type if streams are enabled"),
     []) /\
  ~ (forall attribute alreadyExists cfg rc wc l,
       readCapacity cfg = Some rc ->
       writeCapacity cfg = Some wc ->
       globalSecondaryIndex (tableConfig cfg) = Some (Value l) ->
       List.length (targets (snd (construct attribute alreadyExists cfg)))
       = 2 + 2 * List.length l).
Proof.
  split; [split; reflexivity | split; [split; reflexivity | split; [reflexivity|]]].
  intros H.
  specialize (H reference alreadyThere secondIndexUnnamed spec_70_10_1 spec_70_10_1
                _ eq_refl eq_refl eq_refl).
  vm_compute in H. discriminate H.
Qed.



(** C4 as stated fails on [onDemandRead]: the table is on-demand and is
    given a read capacity spec, and it gets an autoscaling target and
    policy. *)
Lemma on_demand_table_gets_autoscaling :
  capacityMode onDemandRead = Some ON_DEMAND /\
  fst (construct reference alreadyThere onDemandRead) = Returned "dynamodb_table" /\
  map dt_billingMode (tables (snd (construct reference alreadyThere onDemandRead)))
  = ["PAY_PER_REQUEST"] /\
  map target_view (targets (snd (construct reference alreadyThere onDemandRead)))
  = [ ("dynamodb:table:ReadCapacityUnits", "table/${dynamodb_table.name}",
       Some 1%Z, 10%Z) ] /\
  map policy_view (policies (snd (construct reference alreadyThere onDemandRead)))
  = [ ("DynamoDBReadCapacityUtilization", 70%Z) ] /\
  ~ (forall attribute alreadyExists cfg,
       capacityMode cfg = Some ON_DEMAND ->
       policies (snd (construct attribute alreadyExists cfg)) = []).
Proof.
  repeat (split; [reflexivity|]).
  intros H. specialize (H reference alreadyThere onDemandRead eq_refl).
  vm_compute in H. discriminate H.
Qed.

(** An on-demand table without capacity specs is billed per request and has
    no autoscaling; given a read capacity spec it has. *)
Lemma billing_mode_and_autoscaling_samples :
  Forall (fun t => dt_billingMode t = "PAY_PER_REQUEST")
    (tables (snd (construct reference alreadyThere onDemandOnly))) /\
  (exists t, tables (snd (construct reference alreadyThere onDemandOnly)) = [t]) /\
  targets (snd (construct reference alreadyThere onDemandOnly)) = [] /\
  policies (snd (construct reference alreadyThere onDemandOnly)) = [] /\
  targets (snd (construct reference alreadyThere onDemandRead)) <> [].
Proof.
  destruct (billing_mode_and_autoscaling reference alreadyThere onDemandOnly)
    as (B & T & N & _).
  destruct (billing_mode_and_autoscaling reference alreadyThere onDemandRead)
    as (_ & _ & _ & A).
  split; [exact B | split; [|split; [|split]]].
  - apply T. simpl. intros H. discriminate H.
  - apply N; reflexivity.
  - apply N; reflexivity.
  - apply A.
    + simpl. intros H. discriminate H.
    + left. discriminate.
Defined.

(** C5. A read capacity spec on a table configuration without
    [globalSecondaryIndex]: the table, the role and the table's target and
    policy are declared, then the constructor throws a [TypeError]. *)
Theorem capacity_without_indexes_throws attribute alreadyExists :
  fst (construct attribute alreadyExists readNoIndexes)
  = Threw (TypeError "Cannot read properties of undefined (reading 'length')") /\
  map target_view (targets (snd (construct attribute alreadyExists readNoIndexes)))
  = [ ("dynamodb:table:ReadCapacityUnits",
       "table/" ++ attribute "dynamodb_table" "name", Some 1%Z, 10%Z) ].
Proof.
  rewrite construct_exact; [split; reflexivity|].
  apply plan_stored_distinct. constructor.
Qed.

(** Protection by default, none with [preventDestroyTable: false]. *)
Lemma destroy_protection_samples :
  Forall (fun t => preventDestroy (dt_lifecycle t) = true)
    (tables (snd (construct reference alreadyThere onDemandOnly))) /\
  Forall (fun t => preventDestroy (dt_lifecycle t) = false)
    (tables (snd (construct reference alreadyThere unprotected))) /\
  (exists t, tables (snd (construct reference alreadyThere unprotected)) = [t]).
Proof.
  destruct (destroy_protection reference alreadyThere onDemandOnly) as (P & _ & _).
  destruct (destroy_protection reference alreadyThere unprotected) as (_ & U & T).
  split; [|split].
  - apply P. left. reflexivity.
  - apply U. reflexivity.
  - apply T. simpl. intros H. discriminate H.
Defined.

End KeyedTableFacts.

(** ** Keyed-table builder: wiring, partial constructions, names *)

Module KeyedTableExtra.
Import Js Build BuildFacts Frame FrameFacts KeyedTable KeyedTableObs PlanFacts
  PlanShape IdFacts ReplayFacts StoredIds PlanWiring StepFacts.

Section Engine.
Variable attribute : string -> string -> string.
Variable alreadyExists : string -> string.

(** *** The plan, dimension by dimension *)

Lemma plan_dimensions cfg :
  streamAccepted (tableConfig cfg) ->
  (readCapacity cfg = None /\ writeCapacity cfg = None) \/
  setup_completion (globalSecondaryIndex (tableConfig cfg)) = Returned tt ->
  exists ns,
    plan attribute cfg = (Returned "dynamodb_table", ns) /\
    map target_view (targets ns)
    = (supplied_targets (attribute "dynamodb_table" "name") Read (readCapacity cfg)
         (indexes_of (globalSecondaryIndex (tableConfig cfg))) ++
       supplied_targets (attribute "dynamodb_table" "name") Write (writeCapacity cfg)
         (indexes_of (globalSecondaryIndex (tableConfig cfg))))%list /\
    map policy_view (policies ns)
    = (supplied_policies Read (readCapacity cfg)
         (indexes_of (globalSecondaryIndex (tableConfig cfg))) ++
       supplied_policies Write (writeCapacity cfg)
         (indexes_of (globalSecondaryIndex (tableConfig cfg))))%list /\
    iam_roles ns
    = (supplied_role (prefix cfg) (tags cfg) Read (readCapacity cfg) ++
       supplied_role (prefix cfg) (tags cfg) Write (writeCapacity cfg))%list /\
    iam_policies ns
    = ((match readCapacity cfg with
        | Some _ => [(prefix cfg ++ "-ReadCapacity-AutoScalingPolicy")%string]
        | None => []
        end) ++
       (match writeCapacity cfg with
        | Some _ => [(prefix cfg ++ "-WriteCapacity-AutoScalingPolicy")%string]
        | None => []
        end))%list /\
    attachments ns
    = ((match readCapacity cfg with
        | Some _ =>
            [(attribute "ReadCapacity_autoscaling_policy" "arn",
              attribute "ReadCapacity_role" "name")]
        | None => []
        end) ++
       (match writeCapacity cfg with
        | Some _ =>
            [(attribute "WriteCapacity_autoscaling_policy" "arn",
              attribute "WriteCapacity_role" "name")]
        | None => []
        end))%list.
Proof.
  intros Hok Hc.
  destruct (plan_emitted attribute cfg Hok) as (t & _ & _ & _ & E & R & RT & _).
  assert (HR : dimension_completes cfg Read = true).
  { unfold dimension_completes, spec_of.
    destruct Hc as [(-> & _)| ->]; [reflexivity|].
    destruct (readCapacity cfg); reflexivity. }
  assert (HW : dimension_completes cfg Write = true).
  { unfold dimension_completes, spec_of.
    destruct Hc as [(_ & ->)| ->]; [reflexivity|].
    destruct (writeCapacity cfg); reflexivity. }
  rewrite HR, HW in R. rewrite HR in E. specialize (RT R).
  destruct (plan attribute cfg) as [c ns]. simpl in E, RT. subst c ns.
  eexists. split; [reflexivity|].
  destruct (dimension_views attribute cfg Read) as (T1 & P1 & _ & R1 & Q1 & A1).
  destruct (dimension_views attribute cfg Write) as (T2 & P2 & _ & R2 & Q2 & A2).
  cbv zeta in *. unfold spec_of in *.
  change (("dynamodb_table", RDynamodbTable t)
          :: dimension_emitted attribute cfg Read ++
             dimension_emitted attribute cfg Write)%list
    with ([("dynamodb_table", RDynamodbTable t)] ++
          dimension_emitted attribute cfg Read ++
          dimension_emitted attribute cfg Write)%list.
  rewrite !targets_app, !policies_app, !iam_roles_app, !iam_policies_app,
    !attachments_app, !map_app, T1, P1, T2, P2, R1, Q1, A1, R2, Q2, A2.
  assert (HN : readCapacity cfg = None /\ writeCapacity cfg = None \/
               named_prefix (indexes_of (globalSecondaryIndex (tableConfig cfg)))
               = indexes_of (globalSecondaryIndex (tableConfig cfg))).
  { destruct Hc as [Hc|Hc]; [now left | right].
    destruct (globalSecondaryIndex (tableConfig cfg)) as [[l|]|];
      try reflexivity.
    simpl in Hc |- *. apply named_prefix_all.
    destruct (forallb named l); [reflexivity | discriminate Hc]. }
  destruct HN as [(-> & ->)| ->]; repeat split; reflexivity.
Qed.

Lemma plan_failed_dimension cfg e ct s :
  streamAccepted (tableConfig cfg) ->
  setup_completion (globalSecondaryIndex (tableConfig cfg)) = Threw e ->
  (ct = Read /\ readCapacity cfg = Some s) \/
  (ct = Write /\ readCapacity cfg = None /\ writeCapacity cfg = Some s) ->
  exists ns,
    plan attribute cfg = (Threw e, ns) /\
    map target_view (targets ns)
    = dimension_targets (attribute "dynamodb_table" "name") ct s
        (named_prefix (indexes_of (globalSecondaryIndex (tableConfig cfg)))) /\
    map policy_view (policies ns)
    = dimension_policies ct s
        (named_prefix (indexes_of (globalSecondaryIndex (tableConfig cfg)))) /\
    iam_roles ns
    = [(prefix cfg ++ "-" ++ capacityType_value ct ++ "-AutoScalingRole", tags cfg)].
Proof.
  intros Hok Hc Hct.
  destruct (plan_emitted attribute cfg Hok) as (t & _ & _ & _ & E & R & _ & RF).
  destruct (dimension_views attribute cfg Read) as (T1 & P1 & _ & I1 & _).
  destruct (dimension_views attribute cfg Write) as (T2 & P2 & _ & I2 & _).
  cbv zeta in *. unfold dimension_completes, spec_of in *.
  rewrite Hc in *. simpl returned in *.
  destruct Hct as [(-> & HR)|(-> & HR & HW)].
  - rewrite HR in *. simpl in R. specialize (RF R).
    destruct (plan attribute cfg) as [c ns]. simpl in E, RF. subst c ns.
    eexists. split; [reflexivity|].
    rewrite app_nil_r.
    change (("dynamodb_table", RDynamodbTable t) :: dimension_emitted attribute cfg Read)
      with ([("dynamodb_table", RDynamodbTable t)] ++
            dimension_emitted attribute cfg Read)%list.
    rewrite targets_app, policies_app, iam_roles_app, !map_app, T1, P1, I1.
    repeat split.
  - rewrite HR, HW in *. simpl in R. specialize (RF R).
    destruct (plan attribute cfg) as [c ns]. simpl in E, RF. subst c ns.
    eexists. split; [reflexivity|].
    change (("dynamodb_table", RDynamodbTable t)
            :: dimension_emitted attribute cfg Read ++
               dimension_emitted attribute cfg Write)%list
      with ([("dynamodb_table", RDynamodbTable t)] ++
            dimension_emitted attribute cfg Read ++
            dimension_emitted attribute cfg Write)%list.
    rewrite !targets_app, !policies_app, !iam_roles_app, !map_app,
      T1, P1, I1, T2, P2, I2.
    repeat split.
Qed.

(** Accepted indexes let the set-up of the plan complete and give distinct
    stored ids. *)
Lemma indexesAccepted_plan gsis :
  indexesAccepted gsis ->
  setup_completion gsis = Returned tt /\
  distinct_ids (named_prefix (indexes_of gsis)).
Proof.
  destruct gsis as [[l|]|]; simpl.
  - intros (Hl & Hd). rewrite Hl, (named_prefix_all l Hl). auto.
  - intros _. split; [reflexivity | constructor].
  - intros [].
Qed.

(** A configuration without capacity specs: the table alone. *)
Lemma construct_table_only cfg :
  streamAccepted (tableConfig cfg) ->
  readCapacity cfg = None -> writeCapacity cfg = None ->
  construct attribute alreadyExists cfg = plan attribute cfg.
Proof.
  intros Hok HR HW. apply construct_exact.
  destruct (plan_accepted attribute cfg Hok) as (t & c & ns & E & _ & _ & _ & F1 & _).
  destruct (F1 HR HW) as (_ & ->). rewrite E.
  repeat constructor. intros [].
Qed.

(** *** Properties *)

(** X1. With streaming enabled, a view type that is missing or empty throws
    the missing-view-type error, and one that is present, not empty and not
    among the four values throws the invalid-view-type error; either way
    nothing is declared. *)
Theorem stream_error_messages cfg :
  truthy_flag (streamEnabled (tableConfig cfg)) = true ->
  (truthy_string (streamViewType (tableConfig cfg)) = false ->
   construct attribute alreadyExists cfg
   = (Threw (Error "you must specify a stream view type if streams are enabled"),
      [])) /\
  (forall v,
     streamViewType (tableConfig cfg) = Some v -> v <> "" ->
     ~ In v ApplicationDynamoDBTableStreamViewType ->
     construct attribute alreadyExists cfg
     = (Threw (Error "you must specify a valid stream view type"), [])).
Proof.
  intros Hen. split.
  - intros Ht. unfold construct, constructor, bind at 1.
    unfold validateStreamConfig. rewrite Hen. unfold bind at 1.
    now rewrite Ht.
  - intros v Hv Hne Hin. unfold construct, constructor, bind at 1.
    unfold validateStreamConfig. rewrite Hen, Hv. unfold bind at 1.
    apply truthy_string_Some in Hne. rewrite Hne. simpl negb. cbv iota.
    unfold ret at 1. cbv iota.
    destruct (array_includes ApplicationDynamoDBTableStreamViewType (Some v)) eqn:Hi.
    + apply array_includes_In in Hi. contradiction.
    + reflexivity.
Qed.

(** X2. The dimensions are set up independently.  A configuration that
    passes the stream validation and either supplies no capacity spec or
    has indexes a set-up completes on (a token, or an array in which every
    index has a name and the names give distinct construct ids)
    constructs, and the targets and policies are those of the read
    dimension if a read spec is supplied, followed by those of the write
    dimension if a write spec is supplied; a dimension without spec gets
    none. *)
Theorem dimensions_independent cfg :
  streamAccepted (tableConfig cfg) ->
  (readCapacity cfg = None /\ writeCapacity cfg = None) \/
  indexesAccepted (globalSecondaryIndex (tableConfig cfg)) ->
  exists ns,
    construct attribute alreadyExists cfg = (Returned "dynamodb_table", ns) /\
    map target_view (targets ns)
    = (supplied_targets (attribute "dynamodb_table" "name") Read (readCapacity cfg)
         (indexes_of (globalSecondaryIndex (tableConfig cfg))) ++
       supplied_targets (attribute "dynamodb_table" "name") Write (writeCapacity cfg)
         (indexes_of (globalSecondaryIndex (tableConfig cfg))))%list /\
    map policy_view (policies ns)
    = (supplied_policies Read (readCapacity cfg)
         (indexes_of (globalSecondaryIndex (tableConfig cfg))) ++
       supplied_policies Write (writeCapacity cfg)
         (indexes_of (globalSecondaryIndex (tableConfig cfg))))%list.
Proof.
  intros Hok Hc.
  assert (Hex : construct attribute alreadyExists cfg = plan attribute cfg).
  { destruct Hc as [(HR & HW)|Hc]; [now apply construct_table_only|].
    apply construct_exact, plan_stored_distinct.
    now apply indexesAccepted_plan. }
  destruct (plan_dimensions cfg Hok) as (ns & E & T & P & _).
  { destruct Hc as [Hc|Hc]; [now left | right]. now apply indexesAccepted_plan. }
  exists ns. rewrite Hex. auto.
Qed.

(** X3. A set-up that throws stops the construction, and what was declared
    until then stays declared.  For a configuration that passes the stream
    validation and whose indexes are undefined, or an array with an index
    without a name before which the names give distinct construct ids, the
    construction throws the [TypeError] or the index-name error and has
    declared, for the first dimension with a spec, the role, the table's
    target and policy and those of the indexes before the first one
    without a name; a write dimension after a failed read dimension is
    never set up. *)
Theorem failed_dimension_stops_construction cfg e ct s :
  streamAccepted (tableConfig cfg) ->
  (globalSecondaryIndex (tableConfig cfg) = None /\
   e = TypeError "Cannot read properties of undefined (reading 'length')") \/
  (exists l,
     globalSecondaryIndex (tableConfig cfg) = Some (Value l) /\
     forallb named l = false /\
     e = Error
           "you must specify an indexName when creating an index auto scaling policy") ->
  distinct_ids (named_prefix (indexes_of (globalSecondaryIndex (tableConfig cfg)))) ->
  (ct = Read /\ readCapacity cfg = Some s) \/
  (ct = Write /\ readCapacity cfg = None /\ writeCapacity cfg = Some s) ->
  exists ns,
    construct attribute alreadyExists cfg = (Threw e, ns) /\
    map target_view (targets ns)
    = dimension_targets (attribute "dynamodb_table" "name") ct s
        (named_prefix (indexes_of (globalSecondaryIndex (tableConfig cfg)))) /\
    map policy_view (policies ns)
    = dimension_policies ct s
        (named_prefix (indexes_of (globalSecondaryIndex (tableConfig cfg)))) /\
    iam_roles ns
    = [(prefix cfg ++ "-" ++ capacityType_value ct ++ "-AutoScalingRole", tags cfg)].
Proof.
  intros Hok He Hd Hct.
  rewrite (construct_exact attribute alreadyExists cfg
             (plan_stored_distinct attribute cfg Hd)).
  apply plan_failed_dimension; [exact Hok | | exact Hct].
  destruct He as [(-> & ->)|(l & -> & Hl & ->)]; simpl; [reflexivity|].
  now rewrite Hl.
Qed.

(** X4. Whatever the configuration, every autoscaling target that gets
    declared is in the [dynamodb] namespace, depends on the table, scales
    the table or an index in one capacity dimension, and acts through the
    role of that dimension, which was declared before it. *)
Theorem targets_use_dimension_role cfg :
  Forall
    (fun t =>
       tg_serviceNamespace t = "dynamodb" /\
       tg_dependsOn t = ["dynamodb_table"] /\
       exists ct pt,
         tg_scalableDimension t
         = "dynamodb:" ++ policyTarget_value pt ++ ":" ++
           capacityType_value ct ++ "Units" /\
         tg_roleArn t = attribute (capacityType_value ct ++ "_role") "arn")
    (targets (snd (construct attribute alreadyExists cfg))) /\
  roles_first attribute [] (snd (construct attribute alreadyExists cfg)).
Proof.
  destruct (construct_prefix attribute alreadyExists cfg) as (b & E).
  split.
  - pose proof (plan_targets attribute cfg) as H.
    rewrite E, targets_app in H. now apply Forall_app in H.
  - pose proof (plan_roles_first attribute cfg) as H.
    rewrite E in H. now apply roles_first_prefix in H.
Qed.

(** X5. Whatever the configuration, the scaling policies are in step with
    the targets: the i-th policy depends on the i-th target and on the
    table, takes its resource id, scalable dimension and namespace from
    that target, and is a target-tracking policy. *)
Theorem policies_follow_targets cfg :
  map (fun p => (ap_dependsOn p, ap_resourceId p, ap_scalableDimension p,
                 ap_serviceNamespace p, policyType p))
    (policies (snd (construct attribute alreadyExists cfg)))
  = map (fun i => ([i; "dynamodb_table"], attribute i "resourceId",
                   attribute i "scalableDimension",
                   attribute i "serviceNamespace", "TargetTrackingScaling"))
      (target_ids (snd (construct attribute alreadyExists cfg))).
Proof. apply construct_in_step. Qed.

(** X6. The IAM resources of a construction that completes: for each
    dimension with a spec, one role [<prefix>-<dimension>-AutoScalingRole]
    carrying the caller's tags, one policy
    [<prefix>-<dimension>-AutoScalingPolicy], and one attachment of that
    policy to that role; nothing for a dimension without spec.  This holds
    for a configuration that passes the stream validation and either
    supplies no capacity spec or has indexes a set-up completes on. *)
Theorem iam_per_dimension cfg :
  streamAccepted (tableConfig cfg) ->
  (readCapacity cfg = None /\ writeCapacity cfg = None) \/
  indexesAccepted (globalSecondaryIndex (tableConfig cfg)) ->
  fst (construct attribute alreadyExists cfg) = Returned "dynamodb_table" /\
  iam_roles (snd (construct attribute alreadyExists cfg))
  = (supplied_role (prefix cfg) (tags cfg) Read (readCapacity cfg) ++
     supplied_role (prefix cfg) (tags cfg) Write (writeCapacity cfg))%list /\
  iam_policies (snd (construct attribute alreadyExists cfg))
  = ((match readCapacity cfg with
      | Some _ => [(prefix cfg ++ "-ReadCapacity-AutoScalingPolicy")%string]
      | None => []
      end) ++
     (match writeCapacity cfg with
      | Some _ => [(prefix cfg ++ "-WriteCapacity-AutoScalingPolicy")%string]
      | None => []
      end))%list /\
  attachments (snd (construct attribute alreadyExists cfg))
  = ((match readCapacity cfg with
      | Some _ =>
          [(attribute "ReadCapacity_autoscaling_policy" "arn",
            attribute "ReadCapacity_role" "name")]
      | None => []
      end) ++
     (match writeCapacity cfg with
      | Some _ =>
          [(attribute "WriteCapacity_autoscaling_policy" "arn",
            attribute "WriteCapacity_role" "name")]
      | None => []
      end))%list.
Proof.
  intros Hok Hc.
  assert (Hex : construct attribute alreadyExists cfg = plan attribute cfg).
  { destruct Hc as [(HR & HW)|Hc]; [now apply construct_table_only|].
    apply construct_exact, plan_stored_distinct.
    now apply indexesAccepted_plan. }
  destruct (plan_dimensions cfg Hok) as (ns & E & _ & _ & R & P & A).
  { destruct Hc as [Hc|Hc]; [now left | right]. now apply indexesAccepted_plan. }
  rewrite Hex, E. auto.
Qed.

(** X8. Whatever the configuration, every declaration other than the table
    depends only on declarations made before it, and the table is declared
    with the caller's table configuration, its [dependsOn] included. *)
Theorem dependencies_point_backward cfg :
  backward [] (snd (construct attribute alreadyExists cfg)) /\
  Forall (fun t => dt_tableConfig t = tableConfig cfg /\
                   dependsOn (RDynamodbTable t)
                   = match tc_dependsOn (tableConfig cfg) with
                     | Some d => d
                     | None => []
                     end)
    (tables (snd (construct attribute alreadyExists cfg))).
Proof.
  destruct (construct_prefix attribute alreadyExists cfg) as (b & E).
  destruct (plan_backward attribute cfg) as (B & T).
  rewrite E in B, T. split.
  - now apply backward_prefix in B.
  - rewrite tables_app in T. apply Forall_app in T as (T & _).
    apply Forall_impl with (2 := T). intros t Ht. split; [exact Ht|].
    simpl. now rewrite Ht.
Qed.

End Engine.

End KeyedTableExtra.

(** ** Keyed-table builder: the local ids *)

Module KeyedTableIds.
Import Js Build BuildFacts Frame FrameFacts KeyedTable KeyedTableObs PlanFacts
  PlanShape IdFacts ReplayFacts StoredIds.

Section Engine.
Variable attribute : string -> string -> string.
Variable alreadyExists : string -> string.


End Engine.

End KeyedTableIds.
(** ** JavaScript string primitives *)

Module JsFacts.
Import Js.

Lemma prefix_append p s :
  String.prefix p s = true <-> exists b, s = p ++ b.
Proof.
  revert s. induction p as [|c p IH]; intros s; simpl.
  - split; [intros _; now exists s | intros _; now destruct s].
  - destruct s as [|d s]; simpl.
    + split; [discriminate | intros (b & E); discriminate].
    + destruct (Ascii.ascii_dec c d) as [->|Hcd].
      * rewrite IH. split; intros (b & E); exists b; congruence.
      * split; [discriminate | intros (b & E); congruence].
Qed.

Lemma includes_eq s sub :
  includes s sub
  = if String.prefix sub s then true
    else match s with
         | "" => false
         | String _ s' => includes s' sub
         end.
Proof. destruct s; reflexivity. Qed.

(** [s.includes(sub)] holds exactly when [sub] occurs in [s]. *)
Lemma includes_occurs s sub :
  includes s sub = true <-> exists a b, s = a ++ sub ++ b.
Proof.
  split.
  - induction s as [|c s IH]; rewrite includes_eq.
    + destruct (String.prefix sub "") eqn:E; [|discriminate].
      intros _. apply prefix_append in E as (b & E). now exists "", b.
    + destruct (String.prefix sub (String c s)) eqn:E.
      * intros _. apply prefix_append in E as (b & E). now exists "", b.
      * intros H. destruct (IH H) as (a & b & ->). now exists (String c a), b.
  - intros (a & b & ->). induction a as [|c a IH]; rewrite includes_eq.
    + assert (String.prefix sub ("" ++ sub ++ b) = true) as ->
        by (apply prefix_append; now exists b).
      reflexivity.
    + destruct (String.prefix sub (String c a ++ sub ++ b)); auto.
Qed.

End JsFacts.

(** ** Relational-cluster builder *)

Module RdsClusterFacts.
Import Js Build RdsCluster.

Lemma toString_hex_length bs :
  String.length (toString_hex bs) = 2 * List.length bs.
Proof. induction bs as [|b bs IH]; simpl; [reflexivity | rewrite IH; lia]. Qed.

Lemma toString_hex_digits bs :
  forallb is_hex_digit (list_ascii_of_string (toString_hex bs)) = true.
Proof.
  induction bs as [|b bs IH]; [reflexivity|].
  cbn [toString_hex list_ascii_of_string forallb]. rewrite IH.
  destruct b; reflexivity.
Qed.

(** Decoding gives the bytes back, so two encodings are equal only for equal
    byte sequences. *)
Lemma fromHex_toString_hex bs : fromHex (toString_hex bs) = bs.
Proof.
  induction bs as [|b bs IH]; [reflexivity|].
  cbn [toString_hex fromHex].
  destruct b; cbn; now rewrite IH.
Qed.

Lemma toString_hex_injective bs bs' :
  toString_hex bs = toString_hex bs' -> bs = bs'.
Proof.
  intros E. rewrite <- (fromHex_toString_hex bs), <- (fromHex_toString_hex bs').
  now rewrite E.
Qed.

Lemma rdsPort_of_postgresql eng :
  (exists e a b, eng = Some e /\ e = a ++ "postgresql" ++ b) ->
  rdsPort_of eng = 5432%Z.
Proof.
  intros (e & a & b & -> & E). unfold rdsPort_of.
  assert (includes e "postgresql" = true) as ->; [|reflexivity].
  apply JsFacts.includes_occurs. now exists a, b.
Qed.

Lemma rdsPort_of_other eng :
  ~ (exists e a b, eng = Some e /\ e = a ++ "postgresql" ++ b) ->
  rdsPort_of eng = 3306%Z.
Proof.
  intros H. unfold rdsPort_of. destruct eng as [e|]; [|reflexivity].
  destruct (includes e "postgresql") eqn:E; [|reflexivity].
  exfalso. apply H. apply JsFacts.includes_occurs in E as (a & b & E).
  now exists e, a, b.
Qed.

Section Engine.
Variable attribute : string -> string -> string.

(** The construction never throws; it draws random bytes only when no
    password is supplied. *)
Lemma construct_returns src n cfg :
  fst (construct attribute src n cfg)
  = Returned ("rds_cluster", attribute "rds_secret" "arn").
Proof.
  unfold construct, constructor.
  destruct (masterPassword (rdsConfig cfg)); reflexivity.
Qed.

(** *** Claims *)

(** C7. The construction completes.  The declared cluster has the supplied
    master password when there is one, and no random byte is drawn.
    Otherwise the password is the hexadecimal encoding of the next 8 bytes
    of the random source, which this call consumes: 16 characters, all in
    [0-9a-f]; and two generated passwords are equal only when the 8 bytes
    drawn are. *)
Theorem master_password src n cfg :
  fst (construct attribute src n cfg)
  = Returned ("rds_cluster", attribute "rds_secret" "arn") /\
  (forall p,
     masterPassword (rdsConfig cfg) = Some p ->
     map rc_masterPassword (clusters (scope (snd (construct attribute src n cfg))))
     = [p] /\
     drawn (snd (construct attribute src n cfg)) = n) /\
  (masterPassword (rdsConfig cfg) = None ->
   exists pw,
     map rc_masterPassword (clusters (scope (snd (construct attribute src n cfg))))
     = [pw] /\
     pw = toString_hex (map src (seq n 8)) /\
     String.length pw = 16 /\
     forallb is_hex_digit (list_ascii_of_string pw) = true /\
     drawn (snd (construct attribute src n cfg)) = n + 8) /\
  (forall src' n',
     toString_hex (map src (seq n 8)) = toString_hex (map src' (seq n' 8)) ->
     map src (seq n 8) = map src' (seq n' 8)).
Proof.
  split; [apply construct_returns | split; [|split]].
  - intros p Hp. unfold construct, constructor. rewrite Hp. split; reflexivity.
  - intros Hp. exists (toString_hex (map src (seq n 8))).
    split; [|split; [reflexivity | split; [|split]]].
    + unfold construct, constructor. rewrite Hp. reflexivity.
    + rewrite toString_hex_length, length_map, length_seq. reflexivity.
    + apply toString_hex_digits.
    + unfold construct, constructor. rewrite Hp. reflexivity.
  - intros src' n'. apply toString_hex_injective.
Qed.

(** C8. The secret version holds one payload.  It has a [database_url]
    property exactly when the engine is ['aurora-mysql'], and then the
    property is [mysql://<user>:<password>@<host>:<port>/<dbname>] built
    from the cluster's master username, master password, endpoint and
    database name and the derived port, which is 3306. *)
Theorem secret_database_url src n cfg :
  exists payload,
    secretPayloads (scope (snd (construct attribute src n cfg))) = [payload] /\
    (engine (rdsConfig cfg) = Some "aurora-mysql" ->
     property payload "database_url"
     = Some (JString
               ("mysql://" ++ attribute "rds_cluster" "masterUsername" ++ ":" ++
                attribute "rds_cluster" "masterPassword" ++ "@" ++
                attribute "rds_cluster" "endpoint" ++ ":" ++ "3306" ++ "/" ++
                attribute "rds_cluster" "databaseName"))) /\
    (engine (rdsConfig cfg) <> Some "aurora-mysql" ->
     property payload "database_url" = None).
Proof.
  unfold construct, constructor.
  destruct (String.eqb_spec
              (match engine (rdsConfig cfg) with Some e => e | None => "" end)
              "aurora-mysql") as [E|E].
  - assert (engine (rdsConfig cfg) = Some "aurora-mysql") as ->.
    { destruct (engine (rdsConfig cfg)); [congruence | discriminate]. }
    destruct (masterPassword (rdsConfig cfg));
      (eexists; split; [reflexivity | split; [reflexivity | congruence]]).
  - destruct (engine (rdsConfig cfg)) as [e|] eqn:He.
    + apply String.eqb_neq in E.
      destruct (masterPassword (rdsConfig cfg));
        (eexists; split;
         [cbn; unfold createRdsSecret; cbn; rewrite E, andb_false_r; reflexivity
         | split; [intros H; apply String.eqb_neq in E; congruence
                  | intros _; reflexivity]]).
    + destruct (masterPassword (rdsConfig cfg));
        (eexists; split; [reflexivity | split; [discriminate | reflexivity]]).
Qed.

(** C9. The derived port is 5432 when the engine name contains
    ['postgresql'] and 3306 otherwise, also without an engine.  The security
    group has one ingress rule, for that port over tcp from the CIDR block
    of the looked-up network, and one egress rule open to everything.  The
    [port] of the secret payload is the derived port, whatever [port] the
    cluster configuration carries, which reaches the cluster unchanged. *)
Theorem derived_port src n cfg :
  ((exists e a b, engine (rdsConfig cfg) = Some e /\ e = a ++ "postgresql" ++ b) ->
   rdsPort_of (engine (rdsConfig cfg)) = 5432%Z) /\
  (~ (exists e a b, engine (rdsConfig cfg) = Some e /\ e = a ++ "postgresql" ++ b) ->
   rdsPort_of (engine (rdsConfig cfg)) = 3306%Z) /\
  (exists g,
     securityGroupsOf (scope (snd (construct attribute src n cfg))) = [g] /\
     ingress g
     = [ {| fromPort := rdsPort_of (engine (rdsConfig cfg));
            toPort := rdsPort_of (engine (rdsConfig cfg));
            protocol := "tcp";
            cidrBlocks := [attribute "vpc" "cidrBlock"];
            rule_description := Null;
            ipv6CidrBlocks := Null;
            prefixListIds := Null;
            securityGroups := Null |} ] /\
     egress g
     = [ {| fromPort := 0;
            toPort := 0;
            protocol := "-1";
            cidrBlocks := ["0.0.0.0/0"];
            rule_description := Given "required";
            ipv6CidrBlocks := Given [];
            prefixListIds := Given [];
            securityGroups := Given [] |} ]) /\
  (exists payload,
     secretPayloads (scope (snd (construct attribute src n cfg))) = [payload] /\
     property payload "port"
     = Some (JNumber (rdsPort_of (engine (rdsConfig cfg))))) /\
  map (fun c => port (rc_rdsConfig c))
    (clusters (scope (snd (construct attribute src n cfg))))
  = [port (rdsConfig cfg)].
Proof.
  split; [apply rdsPort_of_postgresql | split; [apply rdsPort_of_other|]].
  unfold construct, constructor.
  destruct (masterPassword (rdsConfig cfg)).
  - split; [eexists; repeat split | split; [|reflexivity]].
    unfold createRdsSecret. cbn.
    destruct (truthy_string (engine (rdsConfig cfg)) && _);
      eexists; split; reflexivity.
  - split; [eexists; repeat split | split; [|reflexivity]].
    unfold createRdsSecret. cbn.
    destruct (truthy_string (engine (rdsConfig cfg)) && _);
      eexists; split; reflexivity.
Qed.

End Engine.

(** *** The claims on sample configurations *)

Import Samples Samples.Cluster.

(** Without a master password, and with the bytes 0, 1, ..., 7 next in the
    random source, the password is ["0001020304050607"]; a construction
    that starts 8 bytes later gets another one; a supplied password is
    kept. *)
Lemma master_password_samples :
  map rc_masterPassword
    (clusters (scope (snd (construct reference counting 0
                             (cluster None (Some "aurora-mysql") None)))))
  = ["0001020304050607"] /\
  map rc_masterPassword
    (clusters (scope (snd (construct reference counting 8
                             (cluster None (Some "aurora-mysql") None)))))
  = ["08090a0b0c0d0e0f"] /\
  map rc_masterPassword
    (clusters (scope (snd (construct reference counting 0
                             (cluster (Some "bowling") None None)))))
  = ["bowling"].
Proof.
  destruct (master_password reference counting 0
              (cluster None (Some "aurora-mysql") None)) as (_ & _ & G0 & _).
  destruct (master_password reference counting 8
              (cluster None (Some "aurora-mysql") None)) as (_ & _ & G8 & _).
  destruct (master_password reference counting 0
              (cluster (Some "bowling") None None)) as (_ & S & _).
  split; [|split].
  - destruct (G0 eq_refl) as (pw & E & -> & _). exact E.
  - destruct (G8 eq_refl) as (pw & E & -> & _). exact E.
  - destruct (S "bowling" eq_refl) as (E & _). exact E.
Defined.

(** The URL of a MySQL cluster, and none for a PostgreSQL cluster. *)
Lemma secret_database_url_samples :
  (exists payload,
     secretPayloads
       (scope (snd (construct reference counting 0
                      (cluster None (Some "aurora-mysql") None))))
     = [payload] /\
     property payload "database_url"
     = Some (JString
               "mysql://${rds_cluster.masterUsername}:${rds_cluster.masterPassword}@${rds_cluster.endpoint}:3306/${rds_cluster.databaseName}")) /\
  (exists payload,
     secretPayloads
       (scope (snd (construct reference counting 0
                      (cluster None (Some "aurora-postgresql") None))))
     = [payload] /\
     property payload "database_url" = None).
Proof.
  split.
  - destruct (secret_database_url reference counting 0
                (cluster None (Some "aurora-mysql") None)) as (payload & E & U & _).
    exists payload. split; [exact E | exact (U eq_refl)].
  - destruct (secret_database_url reference counting 0
                (cluster None (Some "aurora-postgresql") None))
      as (payload & E & _ & U).
    exists payload. split; [exact E | apply U; discriminate].
Defined.

(** A PostgreSQL cluster configured with [port: 9999]: the ingress rule and
    the secret use 5432. *)
Lemma derived_port_samples :
  rdsPort_of (Some "aurora-postgresql") = 5432%Z /\
  rdsPort_of (Some "aurora") = 3306%Z /\
  rdsPort_of None = 3306%Z /\
  exists payload,
    secretPayloads
      (scope (snd (construct reference counting 0
                     (cluster None (Some "aurora-postgresql") (Some 9999%Z)))))
    = [payload] /\
    property payload "port" = Some (JNumber 5432).
Proof.
  destruct (derived_port reference counting 0
              (cluster None (Some "aurora-postgresql") (Some 9999%Z)))
    as (P & _ & _ & S & _).
  destruct (derived_port reference counting 0 (cluster None (Some "aurora") None))
    as (_ & A & _).
  destruct (derived_port reference counting 0 (cluster None None None))
    as (_ & N & _).
  split; [|split; [|split]].
  - apply P. exists "aurora-postgresql", "aurora-", "". split; reflexivity.
  - reflexivity.
  - reflexivity.
  - exact S.
Defined.

End RdsClusterFacts.

(** ** Load-balancer builder *)

Module LoadBalancerFacts.
Import Js Build BuildFacts LoadBalancer.

(** *** The prefix check *)






Section Engine.
Variable attribute : string -> string -> string.



(** The construction when the prefix check accepts the prefix: it is the
    bucket choice that decides. *)
Lemma construct_good_prefix cfg logs :
  accessLogs cfg = Some logs ->
  startsOrEndsWithSlash (resolvedPrefix cfg logs) = false ->
  (existingBucket logs = None -> bucket logs = None ->
   exists sg,
     construct attribute cfg
     = (Threw (Error
          "If you are configuring access logs you need to define either an existing bucket or a new one to store the logs"),
        [sg])) /\
  (forall x,
     existingBucket logs = Some x ->
     exists ns a,
       construct attribute cfg = (Returned ("alb", "alb_security_group"), ns) /\
       lookedUpBuckets ns = [x] /\ createdBuckets ns = [] /\
       albs ns = [a] /\
       alb_accessLogs a
       = Some {| logs_bucket := attribute "log-bucket" "bucket";
                 logs_enabled := true;
                 logs_prefix := resolvedPrefix cfg logs |}) /\
  (forall y,
     existingBucket logs = None -> bucket logs = Some y ->
     exists ns a,
       construct attribute cfg = (Returned ("alb", "alb_security_group"), ns) /\
       lookedUpBuckets ns = [] /\ createdBuckets ns = [Some y] /\
       albs ns = [a] /\
       alb_accessLogs a
       = Some {| logs_bucket := attribute "log-bucket" "bucket";
                 logs_enabled := true;
                 logs_prefix := resolvedPrefix cfg logs |}).
Proof.
  intros Hl Hp. split; [|split].
  - intros He Hb. unfold construct, constructor. rewrite Hl.
    eexists. unfold bind at 1. unfold declare at 1. simpl app.
    unfold bind at 1. rewrite Hp.
    unfold getOrCreateBucket. rewrite He, Hb. reflexivity.
  - intros x He. unfold construct, constructor. rewrite Hl.
    do 2 eexists. unfold bind at 1. unfold declare at 1. simpl app.
    unfold bind at 1. rewrite Hp.
    unfold getOrCreateBucket. rewrite He.
    repeat split.
  - intros y He Hb. unfold construct, constructor. rewrite Hl.
    do 2 eexists. unfold bind at 1. unfold declare at 1. simpl app.
    unfold bind at 1. rewrite Hp.
    unfold getOrCreateBucket. rewrite He, Hb.
    repeat split.
Qed.

(** *** Claims *)

(** C3, amended.  With an access-log configuration whose prefix passes the
    prefix check, the construction throws when neither [existingBucket] nor
    [bucket] is set and completes when at least one is.  With
    [existingBucket] set, also together with [bucket], that bucket is
    looked up and none is created; with only [bucket] set, that bucket is
    created.  The load balancer logs to the chosen bucket. *)
Theorem bucket_choice cfg logs :
  accessLogs cfg = Some logs ->
  startsOrEndsWithSlash (resolvedPrefix cfg logs) = false ->
  (existingBucket logs = None -> bucket logs = None ->
   exists sg,
     construct attribute cfg
     = (Threw (Error
          "If you are configuring access logs you need to define either an existing bucket or a new one to store the logs"),
        [sg])) /\
  (forall x,
     existingBucket logs = Some x ->
     exists ns a,
       construct attribute cfg = (Returned ("alb", "alb_security_group"), ns) /\
       lookedUpBuckets ns = [x] /\ createdBuckets ns = [] /\
       albs ns = [a] /\
       alb_accessLogs a
       = Some {| logs_bucket := attribute "log-bucket" "bucket";
                 logs_enabled := true;
                 logs_prefix := resolvedPrefix cfg logs |}) /\
  (forall y,
     existingBucket logs = None -> bucket logs = Some y ->
     exists ns a,
       construct attribute cfg = (Returned ("alb", "alb_security_group"), ns) /\
       lookedUpBuckets ns = [] /\ createdBuckets ns = [Some y] /\
       albs ns = [a] /\
       alb_accessLogs a
       = Some {| logs_bucket := attribute "log-bucket" "bucket";
                 logs_enabled := true;
                 logs_prefix := resolvedPrefix cfg logs |}).
Proof. apply construct_good_prefix. Qed.


End Engine.

(** *** The claims on sample configurations *)

Import Samples Samples.Balancer.

(** C3 as stated fails on an access-log configuration with both
    [existingBucket] and [bucket] set: the construction completes, looking
    up the existing bucket and creating none. *)
Lemma both_buckets_set_completes :
  fst (construct reference
         (balancer (Some (logsTo (Some "logging-bucket") (Some "new-bucket") None))))
  = Returned ("alb", "alb_security_group") /\
  lookedUpBuckets
    (snd (construct reference
            (balancer (Some (logsTo (Some "logging-bucket") (Some "new-bucket") None)))))
  = ["logging-bucket"] /\
  createdBuckets
    (snd (construct reference
            (balancer (Some (logsTo (Some "logging-bucket") (Some "new-bucket") None)))))
  = [] /\
  ~ (forall attribute cfg logs,
       accessLogs cfg = Some logs ->
       existingBucket logs <> None -> bucket logs <> None ->
       returned (fst (construct attribute cfg)) = false).
Proof.
  repeat (split; [reflexivity|]).
  intros H.
  specialize (H reference
                (balancer (Some (logsTo (Some "logging-bucket") (Some "new-bucket") None)))
                (logsTo (Some "logging-bucket") (Some "new-bucket") None)
                eq_refl).
  assert (true = false) as E; [|discriminate E].
  apply H; discriminate.
Qed.

(** No bucket, both buckets, and a new bucket only. *)
Lemma bucket_choice_samples :
  (exists sg,
     construct reference (balancer (Some (logsTo None None None)))
     = (Threw (Error
          "If you are configuring access logs you need to define either an existing bucket or a new one to store the logs"),
        [sg])) /\
  (exists ns,
     construct reference
       (balancer (Some (logsTo (Some "logging-bucket") (Some "new-bucket") None)))
     = (Returned ("alb", "alb_security_group"), ns) /\
     lookedUpBuckets ns = ["logging-bucket"] /\ createdBuckets ns = []) /\
  (exists ns,
     construct reference (balancer (Some (logsTo None (Some "new-bucket") None)))
     = (Returned ("alb", "alb_security_group"), ns) /\
     lookedUpBuckets ns = [] /\ createdBuckets ns = [Some "new-bucket"]).
Proof.
  split; [|split].
  - destruct (bucket_choice reference
                (balancer (Some (logsTo None None None))) (logsTo None None None)
                eq_refl eq_refl) as (N & _).
    exact (N eq_refl eq_refl).
  - destruct (bucket_choice reference
                (balancer (Some (logsTo (Some "logging-bucket") (Some "new-bucket") None)))
                (logsTo (Some "logging-bucket") (Some "new-bucket") None)
                eq_refl eq_refl) as (_ & E & _).
    destruct (E "logging-bucket" eq_refl) as (ns & a & C & L & K & _).
    exists ns. auto.
  - destruct (bucket_choice reference
                (balancer (Some (logsTo None (Some "new-bucket") None)))
                (logsTo None (Some "new-bucket") None)
                eq_refl eq_refl) as (_ & _ & B).
    destruct (B "new-bucket" eq_refl eq_refl) as (ns & a & C & L & K & _).
    exists ns. auto.
Defined.


End LoadBalancerFacts.

(** ** Relational-cluster builder: names, wiring and the secret payload *)

Module RdsClusterExtra.
Import Js Build RdsCluster RdsClusterObs.

Lemma lower_ascii_not_upper c : is_upper (lower_ascii c) = false.
Proof.
  destruct c as [[] [] [] [] [] [] [] []]; reflexivity.
Qed.

(** Lower-casing leaves no ASCII capital letter. *)
Lemma toLowerCase_no_upper s :
  forallb (fun c => negb (is_upper c)) (list_ascii_of_string (toLowerCase s))
  = true.
Proof.
  induction s as [|c s IH]; [reflexivity|].
  cbn [toLowerCase list_ascii_of_string forallb].
  now rewrite lower_ascii_not_upper, IH.
Qed.

Lemma toLowerCase_length s : String.length (toLowerCase s) = String.length s.
Proof. induction s as [|c s IH]; simpl; [reflexivity | now rewrite IH]. Qed.

Lemma lower_ascii_ascii c :
  (nat_of_ascii c <? 128)%nat = true -> (nat_of_ascii (lower_ascii c) <? 128)%nat = true.
Proof.
  destruct c as [[] [] [] [] [] [] [] []]; intros H; try reflexivity; discriminate H.
Qed.

(** Lower-casing a string of ASCII characters gives one. *)
Lemma toLowerCase_ascii s : is_ascii s = true -> is_ascii (toLowerCase s) = true.
Proof.
  unfold is_ascii. induction s as [|c s IH]; [reflexivity|].
  cbn [toLowerCase list_ascii_of_string forallb].
  intros H. apply andb_true_iff in H as (Hc & Hs).
  now rewrite (lower_ascii_ascii c Hc), IH.
Qed.

(** Closes [NoDup l] for a list [l] of literal names. *)
Ltac distinct_names :=
  cbn [map fst List.app];
  repeat (apply NoDup_cons;
          [ let H := fresh in intros H; vm_compute in H; intuition discriminate | ]);
  apply NoDup_nil.

Section Engine.
Variable attribute : string -> string -> string.

(** X9. For a prefix of ASCII characters, whatever the rest of the
    configuration, the cluster identifier prefix and the subnet-group name
    prefix are both the lower-cased prefix, which is a string of ASCII
    characters of the length of the prefix without a capital letter, while
    the security group and the secret name keep the prefix as the caller
    wrote it. *)
Theorem identifiers_lower_cased src n cfg :
  is_ascii (prefix cfg) = true ->
  map clusterIdentifierPrefix
    (clusters (scope (snd (construct attribute src n cfg))))
  = [toLowerCase (prefix cfg)] /\
  subnetGroupPrefixes (scope (snd (construct attribute src n cfg)))
  = [toLowerCase (prefix cfg)] /\
  is_ascii (toLowerCase (prefix cfg)) = true /\
  forallb (fun c => negb (is_upper c))
    (list_ascii_of_string (toLowerCase (prefix cfg))) = true /\
  String.length (toLowerCase (prefix cfg)) = String.length (prefix cfg) /\
  map sg_namePrefix
    (securityGroupsOf (scope (snd (construct attribute src n cfg))))
  = [prefix cfg] /\
  map (fun s => snd (fst s))
    (secrets (scope (snd (construct attribute src n cfg))))
  = [prefix cfg ++ "/" ++ attribute "rds_cluster" "clusterIdentifier"].
Proof.
  intros Ha.
  split; [|split; [|split; [now apply toLowerCase_ascii
                           |split; [apply toLowerCase_no_upper
                                   |split; [apply toLowerCase_length|]]]]];
    unfold construct, constructor;
    destruct (masterPassword (rdsConfig cfg)); try split; reflexivity.
Qed.

(** X10. Whatever the configuration, the construction declares the same six
    nodes in the same order, with pairwise distinct ids, and wires them
    together: the security group sits in the looked-up network, the cluster
    in that security group and in the subnet group over the caller's
    subnets, the secret waits for the cluster and the secret version for
    the secret it belongs to. *)
Theorem cluster_wiring src n cfg :
  ids (scope (snd (construct attribute src n cfg)))
  = ["vpc"; "rds_security_group"; "rds_subnet_group"; "rds_cluster";
     "rds_secret"; "rds_secret_version"] /\
  NoDup (ids (scope (snd (construct attribute src n cfg)))) /\
  vpcFilters (scope (snd (construct attribute src n cfg)))
  = [[("vpc-id", [vpcId cfg])]] /\
  map sg_vpcId (securityGroupsOf (scope (snd (construct attribute src n cfg))))
  = [attribute "vpc" "id"] /\
  subnetGroupSubnets (scope (snd (construct attribute src n cfg)))
  = [subnetIds cfg] /\
  map (fun c => (vpcSecurityGroupIds c, dbSubnetGroupName c))
    (clusters (scope (snd (construct attribute src n cfg))))
  = [([attribute "rds_security_group" "id"],
      attribute "rds_subnet_group" "name")] /\
  map snd (secrets (scope (snd (construct attribute src n cfg))))
  = [["rds_cluster"]] /\
  secretVersions (scope (snd (construct attribute src n cfg)))
  = [(attribute "rds_secret" "id", ["rds_secret"])].
Proof.
  assert (ids (scope (snd (construct attribute src n cfg)))
          = ["vpc"; "rds_security_group"; "rds_subnet_group"; "rds_cluster";
             "rds_secret"; "rds_secret_version"]) as E.
  { unfold construct, constructor.
    destruct (masterPassword (rdsConfig cfg)); reflexivity. }
  split; [exact E | split].
  - rewrite E.
    distinct_names.
  - unfold construct, constructor.
    destruct (masterPassword (rdsConfig cfg)); repeat split; reflexivity.
Qed.

(** X11. Whatever the configuration, the secret payload has the properties
    [engine], [host], [username], [password], [dbname] and [port], in this
    order, followed by [database_url] for the engine ['aurora-mysql'] and by
    nothing otherwise; no property occurs twice; and the first five are the
    cluster's own attributes, so that the payload never holds the password
    the construction was given or generated. *)
Theorem secret_payload_properties src n cfg :
  exists payload,
    secretPayloads (scope (snd (construct attribute src n cfg))) = [payload] /\
    map fst payload
    = (["engine"; "host"; "username"; "password"; "dbname"; "port"]
       ++ match engine (rdsConfig cfg) with
          | Some e => if String.eqb e "aurora-mysql" then ["database_url"] else []
          | None => []
          end)%list /\
    NoDup (map fst payload) /\
    property payload "engine" = Some (JString (attribute "rds_cluster" "engine")) /\
    property payload "host" = Some (JString (attribute "rds_cluster" "endpoint")) /\
    property payload "username"
    = Some (JString (attribute "rds_cluster" "masterUsername")) /\
    property payload "password"
    = Some (JString (attribute "rds_cluster" "masterPassword")) /\
    property payload "dbname"
    = Some (JString (attribute "rds_cluster" "databaseName")).
Proof.
  unfold construct, constructor.
  destruct (engine (rdsConfig cfg)) as [e|] eqn:He.
  - destruct (String.eqb e "aurora-mysql") eqn:Ee.
    + apply String.eqb_eq in Ee. subst e.
      destruct (masterPassword (rdsConfig cfg));
        (eexists; split;
         [ cbn; unfold createRdsSecret; cbn; reflexivity
         | split; [reflexivity | split; [|repeat split; reflexivity]] ]);
        distinct_names.
    + destruct (masterPassword (rdsConfig cfg));
        (eexists; split;
         [ cbn; unfold createRdsSecret; cbn;
           rewrite Ee, andb_false_r; reflexivity
         | split; [reflexivity | split; [|repeat split; reflexivity]] ]);
        distinct_names.
  - destruct (masterPassword (rdsConfig cfg));
      (eexists; split;
       [ cbn; unfold createRdsSecret; cbn; reflexivity
       | split; [reflexivity | split; [|repeat split; reflexivity]] ]);
      distinct_names.
Qed.

End Engine.

End RdsClusterExtra.

(** ** Load-balancer builder: tags, declarations and the log bucket *)

Module LoadBalancerExtra.
Import Js Build LoadBalancer LoadBalancerObs LoadBalancerFacts.

(** *** Object spread followed by one property *)

Lemma tag_set_property_same o k v : tag k (set_property o k v) = Some v.
Proof.
  unfold tag. induction o as [|[k' v'] o IH]; cbn [set_property].
  - cbn. now rewrite String.eqb_refl.
  - destruct (String.eqb k' k) eqn:E; cbn [find fst].
    + now rewrite String.eqb_refl.
    + now rewrite E.
Qed.

Lemma tag_set_property_other o k v k0 :
  k0 <> k -> tag k0 (set_property o k v) = tag k0 o.
Proof.
  intros Hk. apply String.eqb_neq in Hk. unfold tag.
  induction o as [|[k' v'] o IH]; cbn [set_property].
  - cbn. rewrite String.eqb_sym. now rewrite Hk.
  - destruct (String.eqb k' k) eqn:E; cbn [find fst].
    + apply String.eqb_eq in E. subst k'.
      rewrite String.eqb_sym. now rewrite Hk.
    + destruct (String.eqb k' k0); [reflexivity | exact IH].
Qed.

Lemma set_property_keys_in o k v x :
  In x (map fst (set_property o k v)) -> x = k \/ In x (map fst o).
Proof.
  induction o as [|[k' v'] o IH]; cbn [set_property].
  - cbn. intuition.
  - destruct (String.eqb k' k) eqn:E; cbn.
    + intuition.
    + intros [H|H]; [auto | destruct (IH H); auto].
Qed.

Lemma set_property_keys_NoDup o k v :
  NoDup (map fst o) -> NoDup (map fst (set_property o k v)).
Proof.
  induction o as [|[k' v'] o IH]; cbn [set_property].
  - intros _. cbn. apply NoDup_cons; [intros [] | apply NoDup_nil].
  - cbn [map fst]. intros H. apply NoDup_cons_iff in H as (Hn & Ho).
    destruct (String.eqb k' k) eqn:E; cbn [map fst].
    + apply String.eqb_eq in E. subst k'. now apply NoDup_cons.
    + apply NoDup_cons; [|auto].
      intros Hin. apply set_property_keys_in in Hin as [->|Hin]; [|auto].
      now rewrite String.eqb_refl in E.
Qed.

(** Closes [NoDup l] for a list [l] of literal names. *)
Ltac distinct_literals :=
  repeat (apply NoDup_cons;
          [ let H := fresh in intros H; vm_compute in H; intuition discriminate | ]);
  apply NoDup_nil.

Section Engine.
Variable attribute : string -> string -> string.

(** The construction, path by path: no access logs, a rejected prefix,
    then the three bucket choices. *)
Ltac paths cfg :=
  unfold construct, constructor; cbv zeta;
  destruct (accessLogs cfg) as [logs|];
  [ unfold bind at 1; unfold declare at 1; cbn [List.app];
    unfold bind at 1;
    destruct (startsOrEndsWithSlash (resolvedPrefix cfg logs));
    [ | unfold getOrCreateBucket;
        destruct (existingBucket logs) as [x|];
        [ | destruct (bucket logs) as [y|] ] ]
  | ].

(** X12. Whatever the configuration, and whether or not the construction
    completes, one security group is declared.  Its tags are the caller's
    with [Name] set to the group's name prefix: [Name] has that value even
    when the caller supplies a [Name] tag, every other tag has the
    caller's value, and keys stay distinct when the caller's are. *)
Theorem security_group_tags cfg :
  exists g,
    securityGroupsOf (snd (construct attribute cfg)) = [g] /\
    sg_namePrefix g = prefix cfg ++ "-HTTP/S Security Group" /\
    tag "Name" (sg_tags g) = Some (sg_namePrefix g) /\
    (forall k, k <> "Name" ->
               tag k (sg_tags g)
               = tag k (match tags cfg with Some t => t | None => [] end)) /\
    (NoDup (map fst (match tags cfg with Some t => t | None => [] end)) ->
     NoDup (map fst (sg_tags g))).
Proof.
  paths cfg;
    (eexists; split; [reflexivity | split; [reflexivity | split; [|split]]]);
    cbn [sg_tags sg_namePrefix];
    first [ apply tag_set_property_same
          | intros k Hk; now apply tag_set_property_other
          | apply set_property_keys_NoDup ].
Qed.

(** X13. Whatever the configuration, the ids of the declarations are
    pairwise distinct.  A construction that completes declares the load
    balancer, once and last; one that throws has declared the security
    group and nothing else: no bucket, no policy and no load balancer. *)
Theorem balancer_declared_last cfg :
  NoDup (ids (snd (construct attribute cfg))) /\
  (returned (fst (construct attribute cfg)) = true ->
   List.length (albs (snd (construct attribute cfg))) = 1 /\
   last (ids (snd (construct attribute cfg))) "" = "alb") /\
  (returned (fst (construct attribute cfg)) = false ->
   ids (snd (construct attribute cfg)) = ["alb_security_group"]).
Proof.
  paths cfg; (split; [cbn; distinct_literals | split; cbn; intros H]);
    first [ discriminate H | split; reflexivity | reflexivity ].
Qed.

(** X14. Every load balancer the construction declares has the caller's
    six-character name prefix, subnets and tags, which do not gain the
    [Name] tag of the security group, sits in the declared security group,
    and is internal only when the caller says so. *)
Theorem balancer_settings cfg a :
  In a (albs (snd (construct attribute cfg))) ->
  namePrefix a = alb6CharacterPrefix cfg /\
  subnets a = subnetIds cfg /\
  alb_tags a = tags cfg /\
  alb_securityGroups a = [attribute "alb_security_group" "id"] /\
  alb_internal a = match internal cfg with Some b => b | None => false end /\
  (accessLogs cfg = None -> alb_accessLogs a = None).
Proof.
  paths cfg; cbn; intros H; try contradiction;
    destruct H as [<-|[]]; repeat split; discriminate.
Qed.

(** X15. With an access-log configuration whose prefix passes the check:
    pointing at an existing bucket declares the lookup and nothing else for
    the logs, no bucket policy, policy document or service-account lookup;
    naming a new bucket declares the bucket, one service-account lookup and
    one bucket policy on that bucket, whose document allows the
    load-balancing account, and only it, to put objects anywhere in that
    bucket. *)
Theorem bucket_policy_for_new_bucket cfg logs :
  accessLogs cfg = Some logs ->
  startsOrEndsWithSlash (resolvedPrefix cfg logs) = false ->
  (forall x,
     existingBucket logs = Some x ->
     ids (snd (construct attribute cfg))
     = ["alb_security_group"; "log-bucket"; "alb"] /\
     bucketPolicies (snd (construct attribute cfg)) = [] /\
     policyDocuments (snd (construct attribute cfg)) = [] /\
     serviceAccountLookups (snd (construct attribute cfg)) = 0) /\
  (forall y,
     existingBucket logs = None -> bucket logs = Some y ->
     ids (snd (construct attribute cfg))
     = ["alb_security_group"; "log-bucket"; "elb-service-account";
        "iam-log-bucket-policy-document"; "log-bucket-policy"; "alb"] /\
     bucketPolicies (snd (construct attribute cfg))
     = [(attribute "log-bucket" "bucket",
         attribute "iam-log-bucket-policy-document" "json")] /\
     policyDocuments (snd (construct attribute cfg))
     = [[ mkStatement "Allow"
            [mkPrincipal "AWS"
               ["arn:aws:iam::" ++ attribute "elb-service-account" "id" ++ ":root"]]
            ["s3:PutObject"]
            ["arn:aws:s3:::" ++ attribute "log-bucket" "bucket" ++ "/*"] ]] /\
     serviceAccountLookups (snd (construct attribute cfg)) = 1).
Proof.
  intros Hl Hp. split.
  - intros x He. unfold construct, constructor. rewrite Hl.
    unfold bind at 1. unfold declare at 1. cbn [List.app].
    unfold bind at 1. rewrite Hp.
    unfold getOrCreateBucket. rewrite He. repeat split.
  - intros y He Hb. unfold construct, constructor. rewrite Hl.
    unfold bind at 1. unfold declare at 1. cbn [List.app].
    unfold bind at 1. rewrite Hp.
    unfold getOrCreateBucket. rewrite He, Hb. repeat split.
Qed.

(** X16. Without an access-log configuration the construction always
    completes, whatever the rest of the configuration: it declares the
    security group and a load balancer without access logs, and nothing
    for buckets. *)
Theorem without_access_logs cfg :
  accessLogs cfg = None ->
  fst (construct attribute cfg) = Returned ("alb", "alb_security_group") /\
  ids (snd (construct attribute cfg)) = ["alb_security_group"; "alb"] /\
  map alb_accessLogs (albs (snd (construct attribute cfg))) = [None] /\
  lookedUpBuckets (snd (construct attribute cfg)) = [] /\
  createdBuckets (snd (construct attribute cfg)) = [].
Proof.
  intros Hl. unfold construct, constructor. rewrite Hl. repeat split.
Qed.

End Engine.

End LoadBalancerExtra.

(** ** The further properties on sample configurations *)

Module ExtraSamples.
Import Js Build Samples Samples.Table Samples.Cluster Samples.Balancer MoreSamples.

Module Table.
Import KeyedTable KeyedTableObs.

(** A stream without view type and a stream with the view type ['ALL']
    are rejected with their own messages, before anything is declared. *)
Lemma stream_error_messages_samples :
  construct reference alreadyThere streamNoView
  = (Threw (Error "you must specify a stream view type if streams are enabled"),
     []) /\
  construct reference alreadyThere streamBadView
  = (Threw (Error "you must specify a valid stream view type"), []).
Proof.
  destruct (KeyedTableExtra.stream_error_messages reference alreadyThere streamNoView eq_refl)
    as (H & _).
  destruct (KeyedTableExtra.stream_error_messages reference alreadyThere streamBadView eq_refl)
    as (_ & H').
  split.
  - apply H. reflexivity.
  - apply (H' "ALL"); [reflexivity | discriminate |].
    simpl. intuition discriminate.
Defined.

(** A write capacity spec alone on a table with two indexes: the write
    targets and policies of the table and of both indexes, none for
    reading. *)
Lemma dimensions_independent_write_only :
  exists ns,
    construct reference alreadyThere writeOnlyTwoIndexes
    = (Returned "dynamodb_table", ns) /\
    map target_view (targets ns)
    = [ ("dynamodb:table:WriteCapacityUnits", "table/${dynamodb_table.name}",
         Some 1%Z, 10%Z);
        ("dynamodb:index:WriteCapacityUnits",
         "table/${dynamodb_table.name}/index/index1", Some 3%Z, 10%Z);
        ("dynamodb:index:WriteCapacityUnits",
         "table/${dynamodb_table.name}/index/index2", Some 3%Z, 10%Z) ] /\
    map policy_view (policies ns)
    = [ ("DynamoDBWriteCapacityUtilization", 70%Z);
        ("DynamoDBWriteCapacityUtilization", 70%Z);
        ("DynamoDBWriteCapacityUtilization", 70%Z) ].
Proof.
  apply (KeyedTableExtra.dimensions_independent reference alreadyThere
           writeOnlyTwoIndexes).
  - intros H. discriminate H.
  - right. split; [reflexivity|]. unfold distinct_ids. simpl.
    apply NoDup_cons; [simpl; intuition discriminate|].
    apply NoDup_cons; [simpl; tauto | apply NoDup_nil].
Defined.

(** Read and write capacity on a table whose second of three indexes has
    no name: the construction stops in the read dimension, with the targets
    of the table and of the first index; the third index and the write
    dimension are never reached. *)
Lemma failed_dimension_second_index_unnamed :
  exists ns,
    construct reference alreadyThere secondIndexUnnamed
    = (Threw (Error
         "you must specify an indexName when creating an index auto scaling policy"),
       ns) /\
    map target_view (targets ns)
    = [ ("dynamodb:table:ReadCapacityUnits", "table/${dynamodb_table.name}",
         Some 1%Z, 10%Z);
        ("dynamodb:index:ReadCapacityUnits",
         "table/${dynamodb_table.name}/index/index1", Some 2%Z, 10%Z) ] /\
    map policy_view (policies ns)
    = [ ("DynamoDBReadCapacityUtilization", 70%Z);
        ("DynamoDBReadCapacityUtilization", 70%Z) ] /\
    iam_roles ns
    = [("abides--ReadCapacity-AutoScalingRole", tags secondIndexUnnamed)].
Proof.
  apply (KeyedTableExtra.failed_dimension_stops_construction reference alreadyThere
           secondIndexUnnamed _ Read spec_70_10_1).
  - intros H. discriminate H.
  - right. eexists. split; [reflexivity | split; reflexivity].
  - unfold distinct_ids. simpl.
    apply NoDup_cons; [simpl; tauto | apply NoDup_nil].
  - left. split; reflexivity.
Defined.

(** Read and write capacity: one role, one policy and one attachment for
    each of the two dimensions. *)
Lemma iam_per_dimension_read_write :
  map fst (iam_roles (snd (construct reference alreadyThere readWriteTwoIndexes)))
  = ["abides--ReadCapacity-AutoScalingRole";
     "abides--WriteCapacity-AutoScalingRole"] /\
  iam_policies (snd (construct reference alreadyThere readWriteTwoIndexes))
  = ["abides--ReadCapacity-AutoScalingPolicy";
     "abides--WriteCapacity-AutoScalingPolicy"] /\
  attachments (snd (construct reference alreadyThere readWriteTwoIndexes))
  = [("${ReadCapacity_autoscaling_policy.arn}", "${ReadCapacity_role.name}");
     ("${WriteCapacity_autoscaling_policy.arn}", "${WriteCapacity_role.name}")].
Proof.
  destruct (KeyedTableExtra.iam_per_dimension reference alreadyThere
              readWriteTwoIndexes) as (_ & R & P & A).
  - intros H. discriminate H.
  - right. split; [reflexivity|]. unfold distinct_ids. simpl.
    apply NoDup_cons; [simpl; intuition discriminate|].
    apply NoDup_cons; [simpl; tauto | apply NoDup_nil].
  - rewrite R. split; [reflexivity | split; [exact P | exact A]].
Defined.


End Table.

Module Cluster.
Import RdsCluster RdsClusterObs.

(** The sample prefix [BowlingTeam] is lower-cased for the cluster and the
    subnet group and kept for the security group. *)
Lemma identifiers_lower_cased_sample :
  map clusterIdentifierPrefix
    (clusters (scope (snd (construct reference counting 0 (cluster None None None)))))
  = ["bowlingteam"] /\
  subnetGroupPrefixes
    (scope (snd (construct reference counting 0 (cluster None None None))))
  = ["bowlingteam"] /\
  map sg_namePrefix
    (securityGroupsOf
       (scope (snd (construct reference counting 0 (cluster None None None)))))
  = ["BowlingTeam"].
Proof.
  destruct (RdsClusterExtra.identifiers_lower_cased reference counting 0
              (cluster None None None) eq_refl)
    as (C & G & _ & _ & _ & S & _).
  split; [exact C | split; [exact G | exact S]].
Defined.

End Cluster.

Module Balancer.
Import LoadBalancer LoadBalancerObs.

(** The load balancer of the sample configuration. *)
Lemma balancer_settings_sample :
  exists a,
    albs (snd (construct reference (balancer None))) = [a] /\
    namePrefix a = "TSTPRD" /\
    subnets a = ["a"; "b"] /\
    alb_tags a = Some [("name", "thedude")] /\
    alb_securityGroups a = ["${alb_security_group.id}"] /\
    alb_internal a = false /\
    (accessLogs (balancer None) = None -> alb_accessLogs a = None).
Proof.
  eexists. split; [reflexivity|].
  apply (LoadBalancerExtra.balancer_settings reference (balancer None)).
  left. reflexivity.
Defined.

(** Logging to an existing bucket declares three nodes and no policy;
    logging to a new bucket declares six, with one policy. *)
Lemma bucket_policy_for_new_bucket_samples :
  (ids (snd (construct reference
               (balancer (Some (logsTo (Some "logging-bucket") None None)))))
   = ["alb_security_group"; "log-bucket"; "alb"] /\
   bucketPolicies
     (snd (construct reference
             (balancer (Some (logsTo (Some "logging-bucket") None None)))))
   = []) /\
  (List.length
     (ids (snd (construct reference
                  (balancer (Some (logsTo None (Some "new-bucket") None))))))
   = 6 /\
   bucketPolicies
     (snd (construct reference
             (balancer (Some (logsTo None (Some "new-bucket") None)))))
   = [("${log-bucket.bucket}", "${iam-log-bucket-policy-document.json}")]).
Proof.
  destruct (LoadBalancerExtra.bucket_policy_for_new_bucket reference
              (balancer (Some (logsTo (Some "logging-bucket") None None)))
              (logsTo (Some "logging-bucket") None None) eq_refl eq_refl)
    as (E & _).
  destruct (LoadBalancerExtra.bucket_policy_for_new_bucket reference
              (balancer (Some (logsTo None (Some "new-bucket") None)))
              (logsTo None (Some "new-bucket") None) eq_refl eq_refl)
    as (_ & N).
  destruct (E "logging-bucket" eq_refl) as (I & P & _).
  destruct (N "new-bucket" eq_refl eq_refl) as (I' & P' & _).
  split; split; [exact I | exact P | now rewrite I' | exact P'].
Defined.

(** The sample configuration without access logs. *)
Lemma without_access_logs_sample :
  fst (construct reference (balancer None))
  = Returned ("alb", "alb_security_group") /\
  ids (snd (construct reference (balancer None)))
  = ["alb_security_group"; "alb"] /\
  map alb_accessLogs (albs (snd (construct reference (balancer None)))) = [None] /\
  lookedUpBuckets (snd (construct reference (balancer None))) = [] /\
  createdBuckets (snd (construct reference (balancer None))) = [].
Proof.
  apply (LoadBalancerExtra.without_access_logs reference (balancer None)).
  reflexivity.
Defined.

End Balancer.

End ExtraSamples.
